(** * TM38 slab-thickness calculators: a shallow embedding

    The repository holds two implementations of the CCANZ TM38 ground-floor
    slab design method:

    - [BackToBackRackCalculator.tsx] (module [Rack] below): the calculation
      helpers shared by the point, rack and wheel pages, the adjacent-load
      superposition and the 1 mm thickness search [findMinThickness];
    - the page components of the same file (module [Pages] below): the
      handlers of the point-load, single-rack, back-to-back and wheel pages,
      which read the form fields and call the helpers and the search;
    - [ConcretePointLoadCalculator.tsx] (module [PointLoad] below): the
      stand-alone point-load calculator with its 25 mm search
      [calculateThicknessForPosition] and the design summary.

    Both are plain arithmetic over JavaScript numbers.  Numbers are modelled
    as the extended reals with a NaN ([number]): arithmetic on finite values
    is exact real arithmetic, and the special values follow IEEE 754 /
    ECMAScript ([x / 0], [Math.log 0], comparisons with NaN, ...).  Rounding,
    overflow and the sign of zero are not modelled: a zero is the positive
    zero. *)

From Stdlib Require Import Reals Lra Lia ZArith List Bool String Ascii.
Import ListNotations.


(* ================================================================== *)
(** * JavaScript numbers and the parts of the standard library in use *)
(* ================================================================== *)

Module JS.

Local Open Scope R_scope.

Inductive number : Type :=
| NaN
| PInf
| NInf
| Num (x : R).

Definition Rleb (x y : R) : bool := if Rle_dec x y then true else false.
Definition Rltb (x y : R) : bool := if Rlt_dec x y then true else false.
Definition Reqb (x y : R) : bool := if Req_dec_T x y then true else false.

(** ** Comparisons: every comparison with NaN is false *)

Definition nle (a b : number) : bool :=
  match a, b with
  | NaN, _ | _, NaN => false
  | NInf, _ => true
  | _, PInf => true
  | Num x, Num y => Rleb x y
  | _, _ => false
  end.

Definition nlt (a b : number) : bool :=
  match a, b with
  | NaN, _ | _, NaN => false
  | NInf, NInf | PInf, _ | _, NInf => false
  | NInf, _ => true
  | Num _, PInf => true
  | Num x, Num y => Rltb x y
  end.

Definition nge (a b : number) : bool := nle b a.
Definition ngt (a b : number) : bool := nlt b a.

(** [a === b] on numbers. *)
Definition nseq (a b : number) : bool :=
  match a, b with
  | PInf, PInf | NInf, NInf => true
  | Num x, Num y => Reqb x y
  | _, _ => false
  end.

(** [isNaN]. *)
Definition isNaN (a : number) : bool :=
  match a with NaN => true | _ => false end.

(** Truthiness of a number: [0] and NaN are falsy. *)
Definition truthy (a : number) : bool :=
  match a with
  | NaN => false
  | Num x => negb (Reqb x 0)
  | _ => true
  end.

(** ** Arithmetic *)

Definition inf_of (positive : bool) : number := if positive then PInf else NInf.

(** The infinity that a non-zero finite factor [x] turns [inf_of s] into;
    [0 * Infinity] is NaN. *)
Definition scale_inf (s : bool) (x : R) : number :=
  if Rltb 0 x then inf_of s
  else if Rltb x 0 then inf_of (negb s)
  else NaN.

Definition nopp (a : number) : number :=
  match a with
  | NaN => NaN
  | PInf => NInf
  | NInf => PInf
  | Num x => Num (- x)
  end.

Definition nadd (a b : number) : number :=
  match a, b with
  | NaN, _ | _, NaN => NaN
  | PInf, NInf | NInf, PInf => NaN
  | PInf, _ | _, PInf => PInf
  | NInf, _ | _, NInf => NInf
  | Num x, Num y => Num (x + y)
  end.

Definition nsub (a b : number) : number := nadd a (nopp b).

Definition nmul (a b : number) : number :=
  match a, b with
  | NaN, _ | _, NaN => NaN
  | PInf, PInf | NInf, NInf => PInf
  | PInf, NInf | NInf, PInf => NInf
  | PInf, Num y => scale_inf true y
  | NInf, Num y => scale_inf false y
  | Num x, PInf => scale_inf true x
  | Num x, NInf => scale_inf false x
  | Num x, Num y => Num (x * y)
  end.

Definition ndiv (a b : number) : number :=
  match a, b with
  | NaN, _ | _, NaN => NaN
  | (PInf | NInf), (PInf | NInf) => NaN
  | PInf, Num y => inf_of (Rleb 0 y)
  | NInf, Num y => inf_of (negb (Rleb 0 y))
  | Num _, (PInf | NInf) => Num 0
  | Num x, Num y =>
      if Reqb y 0 then scale_inf true x else Num (x / y)
  end.

(** ** [Math] *)

Definition Math_sqrt (a : number) : number :=
  match a with
  | NaN | NInf => NaN
  | PInf => PInf
  | Num x => if Rleb 0 x then Num (sqrt x) else NaN
  end.

Definition Math_log (a : number) : number :=
  match a with
  | NaN | NInf => NaN
  | PInf => PInf
  | Num x => if Rltb 0 x then Num (ln x)
             else if Reqb x 0 then NInf else NaN
  end.

Definition Math_log10 (a : number) : number :=
  match a with
  | NaN | NInf => NaN
  | PInf => PInf
  | Num x => if Rltb 0 x then Num (ln x / ln 10)
             else if Reqb x 0 then NInf else NaN
  end.

Definition Math_min (a b : number) : number :=
  match a, b with
  | NaN, _ | _, NaN => NaN
  | _, _ => if nle a b then a else b
  end.

Definition Math_max (a b : number) : number :=
  match a, b with
  | NaN, _ | _, NaN => NaN
  | _, _ => if nle a b then b else a
  end.

(** Integral reals and their parity, for [Math.pow] of a negative base. *)
Definition is_integer (y : R) : bool := Reqb (IZR (Int_part y)) y.
Definition is_odd_integer (y : R) : bool := is_integer y && Z.odd (Int_part y).

(** [Math.pow base exponent]. *)
Definition Math_pow (b e : number) : number :=
  match e with
  | NaN => NaN
  | Num y =>
      if Reqb y 0 then Num 1 else
      match b with
      | NaN => NaN
      | Num x =>
          if Rltb 0 x then Num (Rpower x y)
          else if Reqb x 0 then (if Rltb 0 y then Num 0 else PInf)
          else if is_integer y
               then Num ((if Z.odd (Int_part y) then -1 else 1) * Rpower (- x) y)
               else NaN
      | PInf => if Rltb 0 y then PInf else Num 0
      | NInf => if Rltb 0 y
                then (if is_odd_integer y then NInf else PInf)
                else Num 0
      end
  | PInf =>
      match b with
      | NaN => NaN
      | Num x => if Rltb 1 (Rabs x) then PInf
                 else if Reqb (Rabs x) 1 then NaN else Num 0
      | _ => PInf
      end
  | NInf =>
      match b with
      | NaN => NaN
      | Num x => if Rltb 1 (Rabs x) then Num 0
                 else if Reqb (Rabs x) 1 then NaN else PInf
      | _ => Num 0
      end
  end.

Definition Math_PI : number := Num PI.

(** ** Strings *)

(** [s.includes(sub)]. *)
Fixpoint includes (s sub : string) : bool :=
  String.prefix sub s ||
  match s with
  | EmptyString => false
  | String _ s' => includes s' sub
  end.

Definition is_white (c : ascii) : bool :=
  let n := nat_of_ascii c in
  (n =? 32)%nat || ((9 <=? n)%nat && (n <=? 13)%nat).

Definition digit_of (c : ascii) : option Z :=
  let n := nat_of_ascii c in
  if ((48 <=? n) && (n <=? 57))%nat then Some (Z.of_nat n - 48)%Z else None.

Fixpoint skip_white (s : string) : string :=
  match s with
  | String c s' => if is_white c then skip_white s' else s
  | EmptyString => s
  end.

(** Reads a run of decimal digits: the value read so far, the number of
    digits, and what is left. *)
Fixpoint read_digits (s : string) (acc : Z) (count : nat) : Z * nat * string :=
  match s with
  | String c s' =>
      match digit_of c with
      | Some d => read_digits s' (10 * acc + d)%Z (S count)
      | None => (acc, count, s)
      end
  | EmptyString => (acc, count, s)
  end.

Definition read_sign (s : string) : bool * string :=
  match s with
  | String "-"%char s' => (true, s')
  | String "+"%char s' => (false, s')
  | _ => (false, s)
  end.

(** The optional exponent part [e[+-]digits]; 0 when absent or ill-formed. *)
Definition read_exponent (s : string) : Z :=
  match s with
  | String c s' =>
      if (Ascii.eqb c "e" || Ascii.eqb c "E")%bool then
        let '(neg, s1) := read_sign s' in
        let '(v, n, _) := read_digits s1 0%Z 0%nat in
        match n with
        | O => 0%Z
        | _ => if neg then (- v)%Z else v
        end
      else 0%Z
  | EmptyString => 0%Z
  end.

(** What [parseFloat] reads at the start of a string: nothing, an
    [Infinity], or a decimal literal [mantissa * 10^exponent]. *)
Inductive literal : Type :=
| LitNone
| LitInfinity (negative : bool)
| LitDecimal (negative : bool) (mantissa exponent : Z).

(** Leading white space, a sign, then [Infinity] or the longest decimal
    literal: digits, a fraction, an exponent. *)
Definition scan_literal (s : string) : literal :=
  let '(neg, s1) := read_sign (skip_white s) in
  if String.prefix "Infinity" s1 then LitInfinity neg else
  let '(ip, ni, s2) := read_digits s1 0%Z 0%nat in
  let '(m, nf, s3) :=
    match s2 with
    | String "."%char s2' => read_digits s2' ip 0%nat
    | _ => (ip, 0%nat, s2)
    end in
  match (ni + nf)%nat with
  | O => LitNone
  | _ => LitDecimal neg m (read_exponent s3 - Z.of_nat nf)
  end.

Definition number_of_literal (l : literal) : number :=
  match l with
  | LitNone => NaN
  | LitInfinity neg => inf_of (negb neg)
  | LitDecimal neg m e =>
      let v := IZR m * powerRZ 10 e in
      Num (if neg then - v else v)
  end.

(** [parseFloat] on a string; NaN when it does not start with a number. *)
Definition parseFloat (s : string) : number :=
  number_of_literal (scan_literal s).

(** ** Values that are not always numbers *)

Inductive value : Type :=
| VNum (n : number)
| VStr (s : string)
| VNull.

(** [parseFloat v]: a number is printed and read back, which gives the
    number itself. *)
Definition parseFloat_value (v : value) : number :=
  match v with
  | VNum n => n
  | VStr s => parseFloat s
  | VNull => NaN
  end.

Definition truthy_value (v : value) : bool :=
  match v with
  | VNum n => truthy n
  | VStr s => negb (String.eqb s "")
  | VNull => false
  end.

End JS.

Declare Scope js_scope.
Delimit Scope js_scope with js.
Bind Scope js_scope with JS.number.
Notation "x + y" := (JS.nadd x y) : js_scope.
Notation "x - y" := (JS.nsub x y) : js_scope.
Notation "x * y" := (JS.nmul x y) : js_scope.
Notation "x / y" := (JS.ndiv x y) : js_scope.
Notation "x <=? y" := (JS.nle x y) : js_scope.
Notation "x <? y" := (JS.nlt x y) : js_scope.
Notation "x >=? y" := (JS.nge x y) (at level 70) : js_scope.
Notation "x >? y" := (JS.ngt x y) (at level 70) : js_scope.
Notation "x === y" := (JS.nseq x y) (at level 70) : js_scope.

(* ================================================================== *)
(** * BackToBackRackCalculator.tsx: helpers, superposition, search     *)
(* ================================================================== *)

Module Rack.

Import JS.
Local Open Scope js_scope.

(** ** Constants *)

Definition POISSON_RATIO : number := Num 0.15.
Definition LOAD_FACTOR : number := Num 1.5.

(** ** Soil and subgrade *)

Definition calculateKFromCBR (cbr : number) : number :=
  if cbr <=? Num 0 then Num 0
  else if cbr <? Num 30 then Num 22.5 * Math_log cbr + Num 1.4305
  else Num 109.2 * Math_log cbr - Num 293.32.


Definition calculateModifiedK (k_subgrade subbase_thickness : number) : number :=
  if subbase_thickness <=? Num 0 then k_subgrade
  else if k_subgrade <=? Num 0 then Num 0
  else
    let term1 := subbase_thickness * (Num 0.0612 * Math_log k_subgrade - Num 0.1029) in
    let term2 := (Num 0.8752 * k_subgrade) - Num 1.453 in
    term1 + term2.

(** ** Concrete and stress *)

Definition calculateEc (fc : number) : number :=
  if fc >? Num 0 then Num 3320 * Math_sqrt fc + Num 6900 else Num 0.

Definition getK1 (days : number) : number :=
  if days >=? Num 90 then Num 1.1 else Num 1.0.

Definition getK2 (repetitionsStr : string) : number :=
  let repetitions := parseFloat repetitionsStr in
  if isNaN repetitions || (repetitions <? Num 8000) then Num 1.0
  else if String.eqb repetitionsStr "Unlimited" then Num 0.75
  else if (repetitions >=? Num 8000) && (repetitions <=? Num 400000) then
    let k2_calculated :=
      Num 1.5 * (Num 0.73 - Num 0.0846 * (Math_log10 repetitions - Num 3)) in
    Math_max (Num 0.75) (Math_min (Num 1.0) k2_calculated)
  else if repetitions >? Num 400000 then Num 0.77
  else Num 1.0.

(** [postTensionStress] comes from the shared form state and is a number or
    the text of an input field (never null); [parseFloat] of its text is
    [parseFloat_value]. *)
Definition calculateAllowableStress
    (fc days : number) (repetitions : string) (postTensionStress : value) : number :=
  if negb (truthy fc) || (fc <=? Num 0) then Num 0
  else
    let baseFr := Num 0.456 * getK1 days * getK2 repetitions * Math_pow fc (Num 0.66) in
    baseFr + parseFloat_value postTensionStress.

Definition calculateL (Ec h k : number) : number :=
  if negb (truthy Ec) || (Ec <=? Num 0) || negb (truthy h) || (h <=? Num 0)
     || negb (truthy k) || (k <=? Num 0)
  then Num 0
  else
    let numerator := Ec * Math_pow h (Num 3) * Num 1000 in
    let denominator := Num 12 * (Num 1 - Math_pow POISSON_RATIO (Num 2)) * k in
    Math_pow (numerator / denominator) (Num 0.25).

Definition calculateRForPointLoad (shape : string) (dim1 dim2 : number) : number :=
  if String.eqb shape "circular" then dim1 / Num 2
  else Math_sqrt (dim1 * dim2 / Math_PI).

Definition calculateB (r h : number) : number :=
  if (r === Num 0) || (h === Num 0) then Num 0
  else if r >=? Num 1.72 * h then r
  else Math_sqrt (Num 1.6 * r * r + h * h) - Num 0.675 * h.

Definition calculateSingleInteriorStress (P_tonnes h l b : number) : number :=
  if (h <=? Num 0) || (l <=? Num 0) || (b <=? Num 0) then Num 0
  else
    let P_N := P_tonnes * Num 9810 in
    let stress :=
      (Num 0.275 * (Num 1 + POISSON_RATIO) * P_N / (h * h)) * Math_log (l / b) in
    if stress >? Num 0 then stress else Num 0.

Definition calculateSingleEdgeStress
    (P_tonnes h l b : number) (jointType : string) : number :=
  if (h <=? Num 0) || (l <=? Num 0) || (b <=? Num 0) then Num 0
  else
    let P_N := P_tonnes * Num 9810 in
    let stress :=
      (Num 0.529 * (Num 1 + Num 0.54 * POISSON_RATIO) * P_N / (h * h))
      * Math_log (l / b) in
    let stress :=
      if negb (String.eqb jointType "No Load Transfer") then stress * Num 0.85
      else stress in
    if stress >? Num 0 then stress else Num 0.

Definition calculateSingleCornerStress
    (P_tonnes h l r : number) (jointType : string) : number :=
  if (h <=? Num 0) || (l <=? Num 0) || (r <=? Num 0) then Num 0
  else
    let P_N := P_tonnes * Num 9810 in
    let stress :=
      (Num 3 * P_N / (h * h))
      * (Num 1 - Math_pow (r * Math_sqrt (Num 2) / l) (Num 0.6)) in
    let stress :=
      if negb (String.eqb jointType "No Load Transfer") then stress * Num 0.7
      else stress in
    if stress >? Num 0 then stress else Num 0.

(** ** Stress distribution and superposition *)

(** A row [[x, y]] of an influence table. *)
Definition point : Type := (number * number)%type.

(** The [for] loop of [interpolate]: the first pair of neighbouring rows
    that brackets [x]; [None] when the loop runs to its end. *)
Fixpoint interpolate_loop (points : list point) (x : number) : option number :=
  match points with
  | p1 :: ((p2 :: _) as rest) =>
      if (x >=? fst p1) && (x <=? fst p2) then
        let x1 := fst p1 in let y1 := snd p1 in
        let x2 := fst p2 in let y2 := snd p2 in
        Some (y1 + (y2 - y1) * (x - x1) / (x2 - x1))
      else interpolate_loop rest x
  | _ => None
  end.

(** [interpolate points x]; [None] stands for the TypeError that reading
    [points[0][0]] of an empty table throws. *)
Definition interpolate (points : list point) (x : number) : option number :=
  match nth_error points 0, nth_error points (List.length points - 1) with
  | Some first, Some last =>
      if x <=? fst first then Some (snd first)
      else if x >=? fst last then Some (snd last)
      else match interpolate_loop points x with
           | Some y => Some y
           | None => Some (snd last)
           end
  | _, _ => None
  end.

Definition pt (x y : R) : point := (Num x, Num y).

Definition interiorRadialPoints : list point :=
  [pt 0 100; pt 0.5 60; pt 1 25; pt 1.5 5; pt 2 (-5); pt 3 (-8); pt 4 (-5);
   pt 5 (-2); pt 6 0].
Definition interiorTangentialPoints : list point :=
  [pt 0 100; pt 0.5 80; pt 1 55; pt 1.5 35; pt 2 20; pt 3 8; pt 4 2;
   pt 5 0; pt 6 0].
Definition edgeRadialPoints : list point :=
  [pt 0 100; pt 0.5 50; pt 1 20; pt 1.5 5; pt 2 (-5); pt 3 (-10); pt 4 (-8);
   pt 5 (-4); pt 6 0].

(** The three tables are not empty, so the [None] branch is never taken. *)
Definition getStressContribution
    (distOverL baseStress : number) (type : string) : number :=
  let scaled (points : list point) :=
    match interpolate points distOverL with
    | Some v => baseStress * v / Num 100
    | None => NaN
    end in
  if String.eqb type "interior-radial" then scaled interiorRadialPoints
  else if String.eqb type "interior-tangential" then scaled interiorTangentialPoints
  else if String.eqb type "edge-radial" then scaled edgeRadialPoints
  else Num 0.

(** A neighbouring load point: [{ dist, type }]. *)
Record Distance : Type := mkDistance { dist : number; type : string }.

Definition calculateTotalFactoredStress
    (P_tonnes_unfactored h l : number) (jointType : string)
    (distances : list Distance) (loadCase : string) (r_contact : number) : number :=
  let r_int := r_contact in
  let r_edge := r_contact * Math_sqrt (Num 2) in
  let baseStress :=
    if includes loadCase "edge" then
      let b_base := calculateB r_edge h in
      calculateSingleEdgeStress P_tonnes_unfactored h l b_base jointType
    else if String.eqb loadCase "corner" then
      calculateSingleCornerStress P_tonnes_unfactored h l r_int jointType
    else
      let b_base := calculateB r_int h in
      calculateSingleInteriorStress P_tonnes_unfactored h l b_base in
  let totalUnfactoredStress :=
    fold_left
      (fun total d =>
         if dist d >? Num 0 then
           let distOverL := dist d / l in
           let '(adjacentStress, stressType) :=
             if String.eqb (type d) "interior" then
               let b_adj := calculateB r_int h in
               (calculateSingleInteriorStress P_tonnes_unfactored h l b_adj,
                "interior-tangential"%string)
             else if includes (type d) "edge" then
               let b_adj := calculateB r_edge h in
               (calculateSingleEdgeStress P_tonnes_unfactored h l b_adj jointType,
                "edge-radial"%string)
             else (Num 0, ""%string) in
           total + getStressContribution distOverL adjacentStress stressType
         else total)
      distances baseStress in
  totalUnfactoredStress * LOAD_FACTOR.

(** ** The thickness search *)

(** [{ thickness, stress }]: a number and a number, or ['>800'] and null. *)
Record SearchResult : Type :=
  mkSearchResult { thickness : value; stress : value }.

Section Search.

Variables (loadCase : string) (allowableStress Ec k P_tonnes_unfactored : number)
          (jointType : string) (distances : list Distance) (r_contact : number).

(** The factored stress the loop body computes at thickness [h]. *)
Definition factoredStressAt (h : Z) : number :=
  let l := calculateL Ec (Num (IZR h)) k in
  calculateTotalFactoredStress P_tonnes_unfactored (Num (IZR h)) l jointType
    distances loadCase r_contact.

(** [while (h <= 800) { ...; h++ }]; [fuel] bounds the number of tests of
    the loop condition, and [None] means it was too small. *)
Fixpoint findMinThickness_while (fuel : nat) (h : Z) : option SearchResult :=
  match fuel with
  | O => None
  | S fuel' =>
      if (h <=? 800)%Z then
        let factoredStress := factoredStressAt h in
        if factoredStress <=? allowableStress then
          Some {| thickness := VNum (Num (IZR h)); stress := VNum factoredStress |}
        else findMinThickness_while fuel' (h + 1)%Z
      else Some {| thickness := VStr ">800"; stress := VNull |}
  end.

(** The search starts at 100 and tests its condition at most 702 times. *)
Definition findMinThickness : option SearchResult :=
  findMinThickness_while 702 100.

End Search.

(** ** The critical load case of the results page *)

(** An entry of [outputs]: a search result with the design strength. *)
Record Output : Type :=
  mkOutput { result : SearchResult; ultimateStrength : number }.

(** [outputs] is listed in the order of [Object.entries]: the order in which
    the keys were set. *)
Definition criticalLoadCase (outputs : list (string * Output)) : option string :=
  let results :=
    filter (fun kv => truthy_value (thickness (result (snd kv)))) outputs in
  match results with
  | [] => None
  | _ =>
      snd (fold_left
             (fun (acc : number * option string) kv =>
                let '(maxThickness, criticalCaseName) := acc in
                let thickness := parseFloat_value (thickness (result (snd kv))) in
                if negb (isNaN thickness) && (thickness >? maxThickness)
                then (thickness, Some (fst kv))
                else acc)
             results (Num 0, None))
  end.

End Rack.

(* ================================================================== *)
(** * ConcretePointLoadCalculator.tsx: the stand-alone calculator      *)
(* ================================================================== *)

Module PointLoad.

Import JS.
Local Open Scope js_scope.

(** The fields of [Inputs] that the calculation reads. *)
Record Inputs : Type := mkInputs {
  cbrValue : number;
  scalaValue : string;
  groundAssessmentType : string;
  hasSubbase : bool;
  subbaseThickness : number;
  concreteStrength : number;
  isPrestressed : bool;
  residualStrength : number;
  assessmentAge : number;
  jointType : string;
  isBackToBack : bool;
  backToBackSpacing : number;
  baseplateX : number;
  baseplateY : number;
  wheelLoading : number;
  loadRepetitions : number
}.

Record CalculationResult : Type := mkCalculationResult {
  equivalentRadius : number;
  radiusOfStiffness : number;
  stress : number;
  thickness : number;
  isAdequate : bool
}.

Definition cbrToModulus (cbr : number) : number :=
  if cbr <=? Num 2 then Num 15
  else if cbr <=? Num 5 then Num 37
  else if cbr <=? Num 10 then Num 54
  else if cbr <=? Num 20 then Num 68
  else if cbr <=? Num 40 then Num 82
  else Num 109.

Definition scalaToCBR (scala : string) : number :=
  let scalaNum := parseFloat scala in
  if scalaNum >=? Num 100 then Num 2
  else if scalaNum >=? Num 50 then Num 3
  else if scalaNum >=? Num 20 then Num 5
  else if scalaNum >=? Num 10 then Num 8
  else if scalaNum >=? Num 5 then Num 12
  else if scalaNum >=? Num 2 then Num 20
  else if scalaNum >=? Num 1 then Num 30
  else Num 50.

(** The repetition factor: the local [k2] of [calculateModulusOfRupture]. *)
Definition k2_of (repetitions : number) : number :=
  if repetitions >=? Num 400000 then Num 0.77
  else if repetitions >=? Num 300000 then Num 0.78
  else if repetitions >=? Num 200000 then Num 0.81
  else if repetitions >=? Num 100000 then Num 0.84
  else if repetitions >=? Num 50000 then Num 0.89
  else if repetitions >=? Num 30000 then Num 0.90
  else if repetitions >=? Num 10000 then Num 0.96
  else Num 1.0.

Definition calculateModulusOfRupture (fc age repetitions : number) : number :=
  let k1 := if age >=? Num 90 then Num 1.1 else Num 1.0 in
  let k2 := k2_of repetitions in
  Num 0.456 * k1 * k2 * Math_pow fc (Num 0.66).

(** [mu] has the default value 0.15 and no caller passes it. *)
Definition calculateRadiusOfStiffness (E h k : number) : number :=
  let mu := Num 0.15 in
  let denominator := Num 12 * (Num 1 - Math_pow mu (Num 2)) * k * Num 1000 in
  Math_pow ((E * Math_pow h (Num 3)) / denominator) (Num 0.25).

Definition calculateEquivalentRadius
    (baseX baseY h : number) (isBackToBack : bool) (backToBackSpacing : number)
    : number :=
  let area := (baseX * baseY) / Num 1000000 in
  let area := if isBackToBack then area * Num 2 else area in
  Math_sqrt (area / Math_PI).

Definition calculateStress
    (P h l b : number) (position : string) (hasLoadTransfer isBackToBack : bool)
    (backToBackSpacing : number) : number :=
  let mu := Num 0.15 in
  let effectiveLoad :=
    if isBackToBack && (backToBackSpacing <? Num 2 * h) then P * Num 2 else P in
  if String.eqb position "interior" then
    let stress :=
      (effectiveLoad * Num 1000 / Math_pow h (Num 2))
      * (Num 0.70 * (Num 1 + mu) * Math_log (l / b) + Num 1.069) in
    stress * Math_pow (Num 10) (Num 6) / Num 1000
  else if String.eqb position "edge" then
    let stress :=
      Num 5.19 * (Num 1 + Num 0.54 * mu)
      * (effectiveLoad * Num 1000 / Math_pow h (Num 2))
      * (Num 4 * Math_log (l / b) + Math_log (b / Num 25.4)) in
    let stress := stress * Math_pow (Num 10) (Num 6) / Num 1000 in
    if hasLoadTransfer then stress * Num 0.85 else stress
  else if String.eqb position "corner" then
    let stress :=
      Num 41.2 * (effectiveLoad * Num 1000 / Math_pow h (Num 2))
      * (Num 1 - Math_pow (b / l) (Num 0.5)) / (Num 0.925 + Num 0.22 * (b / l)) in
    let stress := stress * Math_pow (Num 10) (Num 6) / Num 1000 in
    if hasLoadTransfer then stress * Num 0.7 else stress
  else Num 0.

Section Search.

Variable inputs : Inputs.
Variables (position : string) (modulus : number) (hasLoadTransfer : bool)
          (allowableStress : number).

Definition E_of_inputs : number :=
  Num 5000 * Math_sqrt (concreteStrength inputs) * Num 1000.

Definition radiusOfStiffnessAt (thickness : number) : number :=
  calculateRadiusOfStiffness E_of_inputs thickness modulus.

Definition equivalentRadiusAt (thickness : number) : number :=
  calculateEquivalentRadius (baseplateX inputs) (baseplateY inputs) thickness
    (isBackToBack inputs) (backToBackSpacing inputs).

(** The design stress of the loop body.  The call passes the equivalent
    radius in the place of [l] and the radius of stiffness in the place of
    [b], as the source does. *)
Definition designStressInLoop (thickness : number) : number :=
  calculateStress (wheelLoading inputs) thickness
    (equivalentRadiusAt thickness) (radiusOfStiffnessAt thickness)
    position hasLoadTransfer (isBackToBack inputs) (backToBackSpacing inputs)
  * Num 1.5.

(** The stress computed after the loop: [l] is the radius of stiffness and
    [b] the equivalent radius. *)
Definition stressAfterLoop (thickness : number) : number :=
  calculateStress (wheelLoading inputs) thickness
    (radiusOfStiffnessAt thickness) (equivalentRadiusAt thickness)
    position hasLoadTransfer (isBackToBack inputs) (backToBackSpacing inputs)
  * Num 1.5.

(** [while (iteration < maxIterations)], with [remaining] standing for
    [maxIterations - iteration]. *)
Fixpoint calculateThickness_while (remaining : nat) (thickness : number)
    : CalculationResult :=
  match remaining with
  | S remaining' =>
      let designStress := designStressInLoop thickness in
      let isAdequate := designStress <=? allowableStress in
      if isAdequate then
        {| equivalentRadius := equivalentRadiusAt thickness;
           radiusOfStiffness := radiusOfStiffnessAt thickness;
           stress := designStress;
           thickness := thickness;
           isAdequate := true |}
      else calculateThickness_while remaining' (thickness + Num 25)
  | O =>
      {| equivalentRadius := equivalentRadiusAt thickness;
         radiusOfStiffness := radiusOfStiffnessAt thickness;
         stress := stressAfterLoop thickness;
         thickness := thickness;
         isAdequate := false |}
  end.

Definition maxIterations : nat := 20.

Definition calculateThicknessForPosition : CalculationResult :=
  calculateThickness_while maxIterations (Num 125).

End Search.

(** [enhanceModulusForSubbase] closes over [inputs.hasSubbase]. *)
Definition enhanceModulusForSubbase (inputs : Inputs) (k thickness : number) : number :=
  if negb (hasSubbase inputs) || (thickness <? Num 100) then k
  else
    let enhancement := Num 1 + (thickness / Num 300) * Num 0.5 in
    Math_min (k * enhancement) (k * Num 2).

(** ** The design summary *)

Record Results : Type := mkResults {
  modulus : number;
  allowableStress : number;
  interior : CalculationResult;
  edge : CalculationResult;
  corner : CalculationResult
}.

(** The body of the main [useEffect]. *)
Definition calculate (inputs : Inputs) : Results :=
  let cbrValue :=
    if String.eqb (groundAssessmentType inputs) "scala"
       && negb (String.eqb (scalaValue inputs) "")
    then scalaToCBR (scalaValue inputs) else cbrValue inputs in
  let modulus := cbrToModulus cbrValue in
  let modulus :=
    if hasSubbase inputs
    then enhanceModulusForSubbase inputs modulus (subbaseThickness inputs)
    else modulus in
  let allowableStress :=
    calculateModulusOfRupture (concreteStrength inputs) (assessmentAge inputs)
      (loadRepetitions inputs) * Num 1000 in
  let allowableStress :=
    if isPrestressed inputs
    then allowableStress + residualStrength inputs * Num 1000
    else allowableStress in
  let hasLoadTransfer :=
    String.eqb (jointType inputs) "dowel" || String.eqb (jointType inputs) "tied" in
  {| modulus := modulus;
     allowableStress := allowableStress;
     interior := calculateThicknessForPosition inputs "interior" modulus
                   hasLoadTransfer allowableStress;
     edge := calculateThicknessForPosition inputs "edge" modulus
               hasLoadTransfer allowableStress;
     corner := calculateThicknessForPosition inputs "corner" modulus
                 hasLoadTransfer allowableStress |}.

(** [Math.max(a, b, c)]. *)
Definition Math_max3 (a b c : number) : number := Math_max (Math_max a b) c.

Definition recommendedMinimumThickness (results : Results) : number :=
  Math_max3 (thickness (interior results)) (thickness (edge results))
            (thickness (corner results)).

Definition governedBy (results : Results) : string :=
  if (thickness (corner results) >=? thickness (edge results))
     && (thickness (corner results) >=? thickness (interior results))
  then "Corner Loading"
  else if thickness (edge results) >=? thickness (interior results)
  then "Edge Loading"
  else "Interior Loading".

End PointLoad.

(* ================================================================== *)
(** * BackToBackRackCalculator.tsx: the pages that call the search     *)
(* ================================================================== *)

Module Pages.

Import JS Rack.
Local Open Scope js_scope.

(** The fields of [sharedInputs] that the pages read.  A field holds a
    number, or the text of its input once it was edited.
    [loadApplicationTime] is only ever set by its two buttons, to 28 or 90:
    numbers that [parseInt] gives back as they are. *)
Record SharedInputs : Type := mkSharedInputs {
  subgradeModulus : value;
  finalModulus : value;
  compressiveStrength : value;
  loadApplicationTime : number;
  jointType : string;
  postTensionStress : value
}.

(** The four searches of a page run one after the other, each adding its
    entry to [outputs]; [None] only if a search ran out of fuel. *)
Definition entry (name : string) (r : option SearchResult) (designStrength : number)
    : option (string * Output) :=
  match r with
  | Some r => Some (name, {| result := r; ultimateStrength := designStrength |})
  | None => None
  end.

Fixpoint entries (l : list (option (string * Output))) : option (list (string * Output)) :=
  match l with
  | [] => Some []
  | Some e :: l' =>
      match entries l' with
      | Some es => Some (e :: es)
      | None => None
      end
  | None :: _ => None
  end.

(** ** Point loading: the stresses at a given thickness *)

Module PointLoading.

Record Inputs : Type := mkInputs {
  appliedLoad : value;
  loadedShape : string;
  dim1 : value;
  dim2 : value;
  slabThickness : value
}.





End PointLoading.

(** ** Racks in a single line *)

Module SingleRack.

Record Inputs : Type := mkInputs {
  x : value;
  y : value;
  p : value;
  basePlate_a : value;
  basePlate_b : value;
  loadCycles : string
}.

(** [singleRackDistances.interior] and [singleRackDistances.edge].  The
    corner list multiplies the raw field values and is not modelled. *)
Definition singleRackDistances_interior (inputs : Inputs) : list Distance :=
  [mkDistance (parseFloat_value (x inputs)) "interior";
   mkDistance (parseFloat_value (y inputs)) "interior";
   mkDistance (parseFloat_value (y inputs)) "interior"].

Definition singleRackDistances_edge (inputs : Inputs) : list Distance :=
  [mkDistance (parseFloat_value (y inputs)) "edge";
   mkDistance (parseFloat_value (y inputs)) "edge"].

Section Handler.

Variables (sharedInputs : SharedInputs) (inputs : Inputs).

Definition fc : number := parseFloat_value (compressiveStrength sharedInputs).
Definition k : number := parseFloat_value (finalModulus sharedInputs).
Definition P_tonnes_unfactored : number := parseFloat_value (p inputs) / Num 9.81.
Definition designStrength : number :=
  calculateAllowableStress fc (loadApplicationTime sharedInputs) (loadCycles inputs)
    (postTensionStress sharedInputs).
Definition Ec : number := calculateEc fc.
Definition r_contact : number :=
  calculateRForPointLoad "rectangular" (parseFloat_value (basePlate_a inputs))
    (parseFloat_value (basePlate_b inputs)).

(** The first two searches of [handleCalculateThickness]. *)
Definition interiorResult : option SearchResult :=
  findMinThickness "interior" designStrength Ec k P_tonnes_unfactored
    (jointType sharedInputs) (singleRackDistances_interior inputs) r_contact.

Definition edgeResult : option SearchResult :=
  findMinThickness "edge" designStrength Ec k P_tonnes_unfactored
    (jointType sharedInputs) (singleRackDistances_edge inputs) r_contact.

End Handler.

End SingleRack.

(** ** Racks back to back *)

Module BackToBack.

Record Inputs : Type := mkInputs {
  x : value;
  y : value;
  z : value;
  p : value;
  basePlate_a : value;
  basePlate_b : value;
  loadCycles : string
}.

Definition dist_z_center (inputs : Inputs) : number :=
  parseFloat_value (z inputs) + parseFloat_value (basePlate_a inputs).

Definition distances_interior (inputs : Inputs) : list Distance :=
  [mkDistance (parseFloat_value (x inputs)) "interior";
   mkDistance (parseFloat_value (y inputs)) "interior";
   mkDistance (parseFloat_value (y inputs)) "interior";
   mkDistance (dist_z_center inputs) "interior"].

Definition distances_edgeLong (inputs : Inputs) : list Distance :=
  [mkDistance (parseFloat_value (y inputs)) "edgeLong";
   mkDistance (parseFloat_value (y inputs)) "edgeLong";
   mkDistance (parseFloat_value (x inputs)) "interior"].

Definition distances_edgeShort (inputs : Inputs) : list Distance :=
  [mkDistance (parseFloat_value (x inputs)) "edgeShort";
   mkDistance (dist_z_center inputs) "edgeShort";
   mkDistance (parseFloat_value (y inputs)) "interior"].

Definition distances_corner (inputs : Inputs) : list Distance :=
  [mkDistance (parseFloat_value (x inputs)) "edgeShort";
   mkDistance (parseFloat_value (y inputs)) "edgeLong";
   mkDistance
     (Math_sqrt (parseFloat_value (x inputs) * parseFloat_value (x inputs)
                 + parseFloat_value (y inputs) * parseFloat_value (y inputs)))
     "interior"].

Definition handleCalculateThickness (sharedInputs : SharedInputs) (inputs : Inputs)
    : option (list (string * Output)) :=
  let fc := parseFloat_value (compressiveStrength sharedInputs) in
  let k := parseFloat_value (finalModulus sharedInputs) in
  let P_tonnes_unfactored := parseFloat_value (p inputs) / Num 9.81 in
  let designStrength :=
    calculateAllowableStress fc (loadApplicationTime sharedInputs) (loadCycles inputs)
      (postTensionStress sharedInputs) in
  let Ec := calculateEc fc in
  let r_contact :=
    calculateRForPointLoad "rectangular" (parseFloat_value (basePlate_a inputs))
      (parseFloat_value (basePlate_b inputs)) in
  let search loadCase distances :=
    findMinThickness loadCase designStrength Ec k P_tonnes_unfactored
      (jointType sharedInputs) distances r_contact in
  entries
    [entry "interior" (search "interior"%string (distances_interior inputs)) designStrength;
     entry "edgeLong" (search "edgeLong"%string (distances_edgeLong inputs)) designStrength;
     entry "edgeShort" (search "edgeShort"%string (distances_edgeShort inputs)) designStrength;
     entry "corner" (search "corner"%string (distances_corner inputs)) designStrength].

End BackToBack.

(** ** Wheel loads *)

Module WheelLoad.

Record Inputs : Type := mkInputs {
  s : value;
  s_a : value;
  tyrePressure : value;
  axleLoad : value;
  loadCycles : string;
  wheelType : string;
  tc : value
}.

Definition P_wheel_kN (inputs : Inputs) : number :=
  parseFloat_value (axleLoad inputs) / Num 2.

(** The radius of the contact area of a wheel, or of a pair of tyres. *)
Definition r_contact (inputs : Inputs) : number :=
  let tyrePressure_MPa := parseFloat_value (tyrePressure inputs) / Num 1000 in
  if String.eqb (wheelType inputs) "dual" then
    let P_tyre_N := P_wheel_kN inputs * Num 1000 / Num 2 in
    let contactArea_tyre_mm2 := P_tyre_N / tyrePressure_MPa in
    let r_tyre := Math_sqrt (contactArea_tyre_mm2 / Math_PI) in
    Math_sqrt (Math_pow r_tyre (Num 2)
               + (Num 2 * parseFloat_value (tc inputs) * r_tyre) / Math_PI)
  else
    let contactArea_mm2 := (P_wheel_kN inputs * Num 1000) / tyrePressure_MPa in
    Math_sqrt (contactArea_mm2 / Math_PI).

Definition handleCalculateThickness (sharedInputs : SharedInputs) (inputs : Inputs)
    : option (list (string * Output)) :=
  let fc := parseFloat_value (compressiveStrength sharedInputs) in
  let k := parseFloat_value (subgradeModulus sharedInputs) in
  let designStrength :=
    calculateAllowableStress fc (loadApplicationTime sharedInputs) (loadCycles inputs)
      (postTensionStress sharedInputs) in
  let Ec := calculateEc fc in
  let P_wheel_tonnes_unfactored := P_wheel_kN inputs / Num 9.81 in
  let r_contact := r_contact inputs in
  let wheel_spacing := parseFloat_value (s inputs) in
  let search loadCase distances :=
    findMinThickness loadCase designStrength Ec k P_wheel_tonnes_unfactored
      (jointType sharedInputs) distances r_contact in
  entries
    [entry "interior" (search "interior"%string [mkDistance wheel_spacing "interior"])
       designStrength;
     entry "edgePerp" (search "edge"%string [mkDistance wheel_spacing "interior"])
       designStrength;
     entry "edgePara" (search "edge"%string [mkDistance wheel_spacing "edge"])
       designStrength;
     entry "corner" (search "corner"%string [mkDistance wheel_spacing "edge"])
       designStrength].

End WheelLoad.

End Pages.

(* ================================================================== *)
(** * Facts about numbers                                              *)
(* ================================================================== *)

Import JS.

Section NumberFacts.

Local Open Scope R_scope.

Lemma Rleb_true (x y : R) : Rleb x y = true <-> x <= y.
Proof. unfold Rleb; destruct (Rle_dec x y); split; intros; (congruence || lra). Qed.

Lemma Rleb_false (x y : R) : Rleb x y = false <-> y < x.
Proof. unfold Rleb; destruct (Rle_dec x y); split; intros; (congruence || lra). Qed.

Lemma Rltb_true (x y : R) : Rltb x y = true <-> x < y.
Proof. unfold Rltb; destruct (Rlt_dec x y); split; intros; (congruence || lra). Qed.

Lemma Rltb_false (x y : R) : Rltb x y = false <-> y <= x.
Proof. unfold Rltb; destruct (Rlt_dec x y); split; intros; (congruence || lra). Qed.

Lemma Reqb_true (x y : R) : Reqb x y = true <-> x = y.
Proof. unfold Reqb; destruct (Req_dec_T x y); split; intros; (congruence || lra). Qed.

Lemma Reqb_false (x y : R) : Reqb x y = false <-> x <> y.
Proof. unfold Reqb; destruct (Req_dec_T x y); split; intros; (congruence || lra). Qed.

(** A strict comparison that holds gives the weak one, also at the
    infinities. *)
Lemma nlt_nle (a b : number) : nlt a b = true -> nle a b = true.
Proof.
  destruct a, b; simpl; try congruence.
  rewrite Rltb_true, Rleb_true; lra.
Qed.

Lemma nle_refl_Num (x : R) : nle (Num x) (Num x) = true.
Proof. simpl; apply Rleb_true; lra. Qed.

End NumberFacts.

(** Decides the real comparisons that occur in the goal and closes the
    branches that contradict the context. *)
Ltac rcases :=
  repeat match goal with
  | |- context [Rle_dec ?a ?b] => destruct (Rle_dec a b); try lra
  | |- context [Rlt_dec ?a ?b] => destruct (Rlt_dec a b); try lra
  | |- context [Req_dec_T ?a ?b] => destruct (Req_dec_T a b); try lra
  end.

(** Positivity of a product of positive factors. *)
Ltac positive :=
  match goal with
  | |- (0 < ?a * ?b)%R => apply Rmult_lt_0_compat; positive
  | |- _ => lra
  end.

(* ================================================================== *)
(** * The single-load stress functions                                 *)
(* ================================================================== *)

Section SingleStress.

Import Rack.
Local Open Scope js_scope.

(** What each function returns once the guard is passed is a value that is
    strictly positive, or the literal zero. *)
Lemma clamp_nonneg (s : number) :
  (Num 0 <=? (if s >? Num 0 then s else Num 0)) = true.
Proof.
  destruct (s >? Num 0) eqn:E.
  - apply nlt_nle, E.
  - apply nle_refl_Num.
Qed.

(** C9: a thickness, a radius of relative stiffness or a contact radius
    that is zero or negative makes the interior, the edge and the corner
    stress function return 0, whatever the load and the joint type; no
    logarithm and no power is evaluated. *)
Theorem degenerate_geometry_gives_zero_stress
    (P h l r : number) (jointType : string) :
  (h <=? Num 0) = true \/ (l <=? Num 0) = true \/ (r <=? Num 0) = true ->
  calculateSingleInteriorStress P h l r = Num 0
  /\ calculateSingleEdgeStress P h l r jointType = Num 0
  /\ calculateSingleCornerStress P h l r jointType = Num 0.
Proof.
  intros H.
  assert (Hguard : (h <=? Num 0) || (l <=? Num 0) || (r <=? Num 0) = true).
  { rewrite !orb_true_iff. tauto. }
  unfold calculateSingleInteriorStress, calculateSingleEdgeStress,
    calculateSingleCornerStress.
  rewrite Hguard. auto.
Qed.

Lemma degenerate_geometry_witness :
  calculateSingleInteriorStress (Num 6) (Num 0) (Num 700) (Num 70) = Num 0
  /\ calculateSingleEdgeStress (Num 6) (Num 150) (Num (-1)) (Num 70) "Dowel Joints"
     = Num 0
  /\ calculateSingleCornerStress (Num 6) (Num 150) (Num 700) NInf "No Load Transfer"
     = Num 0.
Proof.
  split; [|split].
  - apply (degenerate_geometry_gives_zero_stress (Num 6) (Num 0) (Num 700) (Num 70) "").
    left. apply nle_refl_Num.
  - apply (degenerate_geometry_gives_zero_stress (Num 6) (Num 150) (Num (-1)) (Num 70)
             "Dowel Joints").
    right; left. simpl. apply Rleb_true. lra.
  - apply (degenerate_geometry_gives_zero_stress (Num 6) (Num 150) (Num 700) NInf
             "No Load Transfer").
    right; right. reflexivity.
Defined.

(** C10: every value that a single-load stress function returns is at
    least zero: a stress computed as negative (or as NaN) is replaced by
    zero before it is returned. *)
Theorem single_stress_nonnegative
    (P h l r : number) (jointType : string) :
  (Num 0 <=? calculateSingleInteriorStress P h l r) = true
  /\ (Num 0 <=? calculateSingleEdgeStress P h l r jointType) = true
  /\ (Num 0 <=? calculateSingleCornerStress P h l r jointType) = true.
Proof.
  unfold calculateSingleInteriorStress, calculateSingleEdgeStress,
    calculateSingleCornerStress.
  destruct ((h <=? Num 0) || (l <=? Num 0) || (r <=? Num 0));
    repeat split; try apply nle_refl_Num; cbv zeta; apply clamp_nonneg.
Qed.

End SingleStress.

(* ================================================================== *)
(** * The equivalent contact radius                                    *)
(* ================================================================== *)

Section EquivalentRadius.

Import Rack.
Local Open Scope js_scope.

(** For positive arguments, infinite ones included, the zero test of
    [calculateB] fails and the threshold decides. *)
Lemma calculateB_branches (r h : number) :
  (r >? Num 0) = true -> (h >? Num 0) = true ->
  calculateB r h =
    if r >=? Num 1.72 * h then r
    else Math_sqrt (Num 1.6 * r * r + h * h) - Num 0.675 * h.
Proof.
  intros Hr Hh. unfold calculateB.
  assert (Hz : forall a, (a >? Num 0) = true -> (a === Num 0) = false).
  { intros [| | |x]; simpl; try congruence.
    rewrite Rltb_true, Reqb_false. lra. }
  now rewrite (Hz r Hr), (Hz h Hh).
Qed.

(** C8: for a contact radius [r > 0] and a thickness [h > 0] the equivalent
    contact radius is [r] when [r >= 1.72 h] and
    [sqrt (1.6 r^2 + h^2) - 0.675 h] otherwise; the threshold is [1.72 h]
    itself, included in the first branch. *)
Theorem calculateB_spec (r h : R) :
  (0 < r)%R -> (0 < h)%R ->
  calculateB (Num r) (Num h) =
    Num (if Rle_dec (1.72 * h) r then r
         else sqrt (1.6 * r * r + h * h) - 0.675 * h)%R.
Proof.
  intros Hr Hh.
  rewrite calculateB_branches by (simpl; apply Rltb_true; lra).
  assert (Hs : (0 <= 1.6 * r * r + h * h)%R) by nra.
  simpl. unfold Rleb.
  destruct (Rle_dec (1.72 * h) r); [reflexivity|].
  destruct (Rle_dec 0 (1.6 * r * r + h * h)); [|lra].
  simpl. f_equal.
Qed.

Lemma calculateB_spec_witness :
  calculateB (Num 172) (Num 100) = Num 172
  /\ calculateB (Num 3) (Num 4) = Num (sqrt (1.6 * 3 * 3 + 4 * 4) - 0.675 * 4)%R.
Proof.
  split.
  - rewrite (@calculateB_spec 172 100) by lra.
    destruct (Rle_dec (1.72 * 100) 172); [reflexivity|lra].
  - rewrite (@calculateB_spec 3 4) by lra.
    destruct (Rle_dec (1.72 * 4) 3); [lra|reflexivity].
Defined.

End EquivalentRadius.

(* ================================================================== *)
(** * Interpolation in the influence tables                            *)
(* ================================================================== *)

Section Interpolation.

Import Rack.
Local Open Scope R_scope.

(** A table of finite rows. *)
Definition finite_table (rows : list (R * R)) : list point :=
  map (fun p => pt (fst p) (snd p)) rows.

(** Breakpoints in strictly increasing order. *)
Fixpoint increasing (xs : list R) : Prop :=
  match xs with
  | a :: ((b :: _) as rest) => a < b /\ increasing rest
  | _ => True
  end.

(** The straight line through [(x1, y1)] and [(x2, y2)], at [x]. *)
Definition line (x1 y1 x2 y2 x : R) : R :=
  y1 + (y2 - y1) * (x - x1) / (x2 - x1).

Lemma increasing_tail (a : R) (xs : list R) :
  increasing (a :: xs) -> increasing xs.
Proof. destruct xs; simpl; tauto. Qed.

Lemma increasing_head_lt (xs : list R) :
  forall a j b, increasing (a :: xs) -> nth_error xs j = Some b -> a < b.
Proof.
  induction xs as [|c xs IH]; intros a j b Hinc Hj.
  - destruct j; discriminate.
  - destruct Hinc as [Hac Hinc]. destruct j as [|j]; simpl in Hj.
    + injection Hj as <-. exact Hac.
    + apply Rlt_trans with c; [exact Hac|]. now apply (IH c j b).
Qed.

Lemma nth_error_fst (rows : list (R * R)) (i : nat) (x y : R) :
  nth_error rows i = Some (x, y) -> nth_error (map fst rows) i = Some x.
Proof. intros H. rewrite nth_error_map, H. reflexivity. Qed.

(** The interpolation step on finite rows with distinct breakpoints. *)
Lemma line_step (x1 y1 x2 y2 x : R) :
  x1 < x2 ->
  (Num y1 + (Num y2 - Num y1) * (Num x - Num x1) / (Num x2 - Num x1))%js
  = Num (line x1 y1 x2 y2 x).
Proof.
  intros H. simpl. unfold Reqb.
  destruct (Req_dec_T (x2 + - x1) 0); [lra|]. reflexivity.
Qed.

Lemma line_left (x1 y1 x2 y2 : R) : x1 < x2 -> line x1 y1 x2 y2 x1 = y1.
Proof. intros H. unfold line. field. lra. Qed.

Lemma line_right (x1 y1 x2 y2 : R) : x1 < x2 -> line x1 y1 x2 y2 x2 = y2.
Proof. intros H. unfold line. field. lra. Qed.

Lemma interpolate_loop_cons (p1 p2 : point) (rest : list point) (x : number) :
  interpolate_loop (p1 :: p2 :: rest) x =
    if ((x >=? fst p1) && (x <=? fst p2))%js
    then Some (snd p1 + (snd p2 - snd p1) * (x - fst p1) / (fst p2 - fst p1))%js
    else interpolate_loop (p2 :: rest) x.
Proof. reflexivity. Qed.

(** The loop returns the line of any pair of neighbouring rows that
    brackets [x]: where two pairs do, at a shared breakpoint, their lines
    meet. *)
Lemma interpolate_loop_bracket (rows : list (R * R)) :
  increasing (map fst rows) ->
  forall i x x1 y1 x2 y2,
    nth_error rows i = Some (x1, y1) ->
    nth_error rows (S i) = Some (x2, y2) ->
    x1 <= x <= x2 ->
    interpolate_loop (finite_table rows) (Num x) = Some (Num (line x1 y1 x2 y2 x)).
Proof.
  induction rows as [|[a ya] rows IH]; intros Hinc i x x1 y1 x2 y2 H1 H2 Hx.
  - destruct i; discriminate.
  - destruct rows as [|[b yb] rest]; [destruct i as [|[|i]]; discriminate|].
    assert (Hab : a < b) by (simpl in Hinc; tauto).
    change (finite_table ((a, ya) :: (b, yb) :: rest))
      with (pt a ya :: pt b yb :: finite_table rest).
    rewrite interpolate_loop_cons.
    change (pt b yb :: finite_table rest) with (finite_table ((b, yb) :: rest)).
    cbn [pt fst snd nge nle].
    rewrite line_step by exact Hab.
    destruct (Rleb a x && Rleb x b) eqn:Htest.
    + apply andb_true_iff in Htest as [Hax Hxb].
      apply Rleb_true in Hax, Hxb.
      destruct i as [|i].
      * simpl in H1, H2. injection H1 as <- <-. injection H2 as <- <-. reflexivity.
      * (* [x] is the breakpoint shared with the next pair *)
        simpl in H1, H2.
        destruct i as [|i].
        -- simpl in H1. injection H1 as <- <-.
           assert (x = b) by lra. subst x.
           assert (Hbx2 : b < x2).
           { apply (@increasing_head_lt (map fst rest) b 0 x2).
             - apply (increasing_tail _ _ Hinc).
             - apply (nth_error_fst _ _ _ _ H2). }
           now rewrite line_right, line_left.
        -- exfalso.
           assert (b < x1).
           { apply (@increasing_head_lt (map fst rest) b i x1).
             - apply (increasing_tail _ _ Hinc).
             - apply (nth_error_fst rest i _ _ H1). }
           lra.
    + destruct i as [|i].
      * simpl in H1, H2. injection H1 as <- <-. injection H2 as <- <-.
        exfalso. apply andb_false_iff in Htest.
        rewrite !Rleb_false in Htest. lra.
      * apply (IH (increasing_tail _ _ Hinc) i); assumption.
Qed.

Lemma increasing_nth (xs : list R) :
  forall i j a b,
    increasing xs -> (i < j)%nat ->
    nth_error xs i = Some a -> nth_error xs j = Some b -> a < b.
Proof.
  induction xs as [|c xs IH]; intros i j a b Hinc Hij Hi Hj.
  - destruct i; discriminate.
  - destruct j as [|j]; [lia|]. destruct i as [|i]; simpl in Hi, Hj.
    + injection Hi as <-. now apply (@increasing_head_lt xs c j b).
    + apply (IH i j a b); [now apply increasing_tail with c|lia|assumption..].
Qed.

Lemma finite_table_nth (rows : list (R * R)) (i : nat) (x y : R) :
  nth_error (finite_table rows) i = Some (Num x, Num y) <->
  nth_error rows i = Some (x, y).
Proof.
  unfold finite_table. rewrite nth_error_map.
  destruct (nth_error rows i) as [[a b]|]; cbn [option_map pt fst snd];
    split; intros H; try discriminate; injection H as <- <-; reflexivity.
Qed.

(** [interpolate] on a table of finite rows with increasing breakpoints
    whose first row is [(x0, y0)] and whose last row is [(xn, yn)]. *)
Lemma interpolate_finite (rows : list (R * R)) (x0 y0 xn yn : R) :
  increasing (map fst rows) ->
  nth_error rows 0 = Some (x0, y0) ->
  nth_error rows (List.length rows - 1) = Some (xn, yn) ->
  x0 < xn ->
  (forall x, (x <=? Num x0)%js = true ->
     interpolate (finite_table rows) x = Some (Num y0))
  /\ (forall x, (x >=? Num xn)%js = true ->
     interpolate (finite_table rows) x = Some (Num yn))
  /\ (forall i x x1 y1 x2 y2,
        nth_error rows i = Some (x1, y1) ->
        nth_error rows (S i) = Some (x2, y2) ->
        x1 <= x <= x2 ->
        interpolate (finite_table rows) (Num x) = Some (Num (line x1 y1 x2 y2 x))).
Proof.
  intros Hinc H0 Hn H0n.
  assert (E0 : nth_error (finite_table rows) 0 = Some (Num x0, Num y0))
    by now apply finite_table_nth.
  assert (En : nth_error (finite_table rows) (List.length (finite_table rows) - 1)
               = Some (Num xn, Num yn)).
  { unfold finite_table at 2. rewrite length_map. now apply finite_table_nth. }
  unfold interpolate. rewrite E0, En. cbn [fst snd].
  split; [|split].
  - intros x Hx. now rewrite Hx.
  - intros x Hx.
    destruct (x <=? Num x0)%js eqn:Hx0.
    + exfalso. destruct x as [| | |x]; simpl in Hx, Hx0; try discriminate.
      apply Rleb_true in Hx, Hx0. lra.
    + now rewrite Hx.
  - intros i x x1 y1 x2 y2 H1 H2 Hx.
    assert (Hlt12 : x1 < x2).
    { apply (@increasing_nth (map fst rows) i (S i) x1 x2 Hinc); [lia|..];
        eapply nth_error_fst; eassumption. }
    cbn [nle nge]. destruct (Rleb x x0) eqn:Hx0.
    + (* [x] is the first breakpoint *)
      apply Rleb_true in Hx0.
      destruct i as [|i].
      * rewrite H0 in H1. injection H1 as <- <-.
        assert (x = x0) by lra. subst x. now rewrite line_left.
      * exfalso.
        assert (x0 < x1).
        { apply (@increasing_nth (map fst rows) 0 (S i) x0 x1 Hinc); [lia|..];
            eapply nth_error_fst; eassumption. }
        lra.
    + apply Rleb_false in Hx0.
      destruct (Rleb xn x) eqn:Hxn.
      * (* [x] is the last breakpoint *)
        apply Rleb_true in Hxn.
        assert (Hlen : (S i < List.length rows)%nat).
        { apply nth_error_Some. congruence. }
        destruct (Nat.eq_dec (S i) (List.length rows - 1)) as [Elast|Nlast].
        -- rewrite <- Elast in Hn. rewrite Hn in H2. injection H2 as <- <-.
           assert (x = xn) by lra. subst x. now rewrite line_right.
        -- exfalso.
           assert (x2 < xn).
           { apply (@increasing_nth (map fst rows) (S i) (List.length rows - 1)
                      x2 xn Hinc); [lia|..]; eapply nth_error_fst; eassumption. }
           lra.
      * now rewrite (@interpolate_loop_bracket rows Hinc i x x1 y1 x2 y2).
Qed.

(** The three influence curves of the calculator. *)
Definition influence_curves : list (list point) :=
  [interiorRadialPoints; interiorTangentialPoints; edgeRadialPoints].

Lemma influence_curves_rows (points : list point) :
  In points influence_curves ->
  exists rows,
    points = finite_table rows
    /\ increasing (map fst rows)
    /\ nth_error rows 0 = Some (0, 100)
    /\ nth_error rows (List.length rows - 1) = Some (6, 0).
Proof.
  intros [<-|[<-|[<-|[]]]].
  - exists [(0, 100); (0.5, 60); (1, 25); (1.5, 5); (2, -5); (3, -8); (4, -5);
            (5, -2); (6, 0)].
    repeat split; simpl; lra.
  - exists [(0, 100); (0.5, 80); (1, 55); (1.5, 35); (2, 20); (3, 8); (4, 2);
            (5, 0); (6, 0)].
    repeat split; simpl; lra.
  - exists [(0, 100); (0.5, 50); (1, 20); (1.5, 5); (2, -5); (3, -10); (4, -8);
            (5, -4); (6, 0)].
    repeat split; simpl; lra.
Qed.

(** C4: on each influence curve, a ratio at or below the first breakpoint
    (0) gives the first table value (100), a ratio at or beyond the last
    breakpoint (6) gives the last table value (0), without extrapolation,
    and a ratio between two neighbouring breakpoints gives the value of the
    straight line through the two rows. *)
Theorem interpolate_influence_curve (points : list point) :
  In points influence_curves ->
  (forall x, (x <=? Num 0)%js = true -> interpolate points x = Some (Num 100))
  /\ (forall x, (x >=? Num 6)%js = true -> interpolate points x = Some (Num 0))
  /\ (forall i x x1 y1 x2 y2,
        nth_error points i = Some (Num x1, Num y1) ->
        nth_error points (S i) = Some (Num x2, Num y2) ->
        x1 <= x <= x2 ->
        interpolate points (Num x) = Some (Num (line x1 y1 x2 y2 x))).
Proof.
  intros Hin.
  destruct (influence_curves_rows _ Hin) as (rows & -> & Hinc & H0 & Hn).
  destruct (@interpolate_finite rows 0 100 6 0 Hinc H0 Hn ltac:(lra))
    as (Hfirst & Hlast & Hmid).
  repeat split; [exact Hfirst|exact Hlast|].
  intros i x x1 y1 x2 y2 H1 H2 Hx.
  apply finite_table_nth in H1, H2. now apply (Hmid i).
Qed.

Lemma interpolate_influence_curve_witness :
  interpolate interiorRadialPoints (Num (-1)) = Some (Num 100)
  /\ interpolate interiorRadialPoints PInf = Some (Num 0)
  /\ interpolate interiorRadialPoints (Num 0.25) = Some (Num (line 0 100 0.5 60 0.25)).
Proof.
  assert (Hin : In interiorRadialPoints influence_curves) by (left; reflexivity).
  destruct (interpolate_influence_curve _ Hin) as (Hfirst & Hlast & Hmid).
  split; [|split].
  - apply Hfirst. simpl. apply Rleb_true. lra.
  - apply Hlast. reflexivity.
  - apply (Hmid 0%nat); [reflexivity..|lra].
Defined.

End Interpolation.

(* ================================================================== *)
(** * The thickness searches                                           *)
(* ================================================================== *)

Section RackSearch.

Import Rack.
Local Open Scope Z_scope.

Variables (loadCase : string) (allowableStress Ec k P_tonnes_unfactored : number)
          (jointType : string) (distances : list Distance) (r_contact : number).

Let stressAt : Z -> number :=
  factoredStressAt loadCase Ec k P_tonnes_unfactored jointType distances r_contact.

Let adequate (h : Z) : bool := (stressAt h <=? allowableStress)%js.

Let search (fuel : nat) (h : Z) : option SearchResult :=
  findMinThickness_while loadCase allowableStress Ec k P_tonnes_unfactored
    jointType distances r_contact fuel h.

(** The result for the first adequate thickness [h]. *)
Definition found (h : Z) (s : number) : SearchResult :=
  {| Rack.thickness := VNum (Num (IZR h)); Rack.stress := VNum s |}.

(** The result of a search that ran past 800. *)
Definition exhausted : SearchResult :=
  {| Rack.thickness := VStr ">800"; Rack.stress := VNull |}.

(** What a search that starts at [from] returns. *)
Definition search_outcome (from : Z) (r : SearchResult) : Prop :=
  (exists h, from <= h <= 800
             /\ adequate h = true
             /\ (forall h', from <= h' < h -> adequate h' = false)
             /\ r = found h (stressAt h))
  \/ ((forall h, from <= h <= 800 -> adequate h = false) /\ r = exhausted).

Lemma findMinThickness_while_outcome (fuel : nat) :
  forall h, h <= 801 -> (Z.to_nat (801 - h) < fuel)%nat ->
  exists r, search fuel h = Some r /\ search_outcome h r.
Proof.
  induction fuel as [|fuel IH]; intros h Hh Hfuel; [lia|].
  unfold search in *. cbn [findMinThickness_while].
  destruct (h <=? 800) eqn:Hle.
  - apply Z.leb_le in Hle.
    fold (stressAt h). fold (adequate h).
    destruct (adequate h) eqn:Ha.
    + eexists; split; [reflexivity|]. left. exists h.
      split; [lia|]. split; [exact Ha|]. split; [intros h' ?; lia|reflexivity].
    + destruct (IH (h + 1)) as (r & Hr & Hout); [lia|lia|].
      exists r; split; [exact Hr|].
      destruct Hout as [(h0 & Hr0 & Ha0 & Hmin & ->)|[Hnone ->]].
      * left. exists h0.
        split; [lia|]. split; [exact Ha0|]. split; [|reflexivity].
        intros h' Hh'. destruct (Z.eq_dec h' h) as [->|]; [exact Ha|].
        apply Hmin; lia.
      * right. split; [|reflexivity].
        intros h' Hh'. destruct (Z.eq_dec h' h) as [->|]; [exact Ha|].
        apply Hnone; lia.
  - apply Z.leb_gt in Hle.
    eexists; split; [reflexivity|]. right. split; [|reflexivity].
    intros h' ?; lia.
Qed.

(** The search of the rack calculator always returns, and what it returns
    is decided by the thicknesses 100, 101, ..., 800. *)
Lemma findMinThickness_outcome :
  exists r,
    findMinThickness loadCase allowableStress Ec k P_tonnes_unfactored
      jointType distances r_contact = Some r
    /\ search_outcome 100 r.
Proof.
  apply (findMinThickness_while_outcome 702 100); simpl; lia.
Qed.

End RackSearch.

Section PointLoadSearch.

Import PointLoad.

Variable inputs : Inputs.
Variables (position : string) (modulus : number) (hasLoadTransfer : bool)
          (allowableStress : number).

(** The thickness of the trial number [i]: 125, 150, 175, ... *)
Definition trial (i : nat) : number := Num (125 + 25 * INR i).

Let designStress : number -> number :=
  designStressInLoop inputs position modulus hasLoadTransfer.

Let adequate (i : nat) : bool := (designStress (trial i) <=? allowableStress)%js.

Definition adequate_at (i : nat) : CalculationResult :=
  {| equivalentRadius := equivalentRadiusAt inputs (trial i);
     radiusOfStiffness := radiusOfStiffnessAt inputs modulus (trial i);
     PointLoad.stress := designStress (trial i);
     PointLoad.thickness := trial i;
     isAdequate := true |}.

(** The result after the last trial: the thickness was raised once more,
    and the stress is computed anew for it. *)
Definition inadequate_at (i : nat) : CalculationResult :=
  {| equivalentRadius := equivalentRadiusAt inputs (trial i);
     radiusOfStiffness := radiusOfStiffnessAt inputs modulus (trial i);
     PointLoad.stress :=
       stressAfterLoop inputs position modulus hasLoadTransfer (trial i);
     PointLoad.thickness := trial i;
     isAdequate := false |}.

Definition position_outcome (from : nat) (r : CalculationResult) : Prop :=
  (exists i, (from <= i < maxIterations)%nat
             /\ adequate i = true
             /\ (forall j, (from <= j < i)%nat -> adequate j = false)
             /\ r = adequate_at i)
  \/ ((forall i, (from <= i < maxIterations)%nat -> adequate i = false)
      /\ r = inadequate_at maxIterations).

Lemma trial_next (i : nat) : (trial i + Num 25)%js = trial (S i).
Proof. unfold trial. simpl nadd. f_equal. rewrite S_INR. ring. Qed.

Lemma calculateThickness_while_outcome (remaining : nat) :
  forall i, (i + remaining = maxIterations)%nat ->
  position_outcome i
    (calculateThickness_while inputs position modulus hasLoadTransfer
       allowableStress remaining (trial i)).
Proof.
  induction remaining as [|remaining IH]; intros i Hi.
  - right. split; [intros j ?; lia|].
    cbn [calculateThickness_while]. replace i with maxIterations by lia.
    reflexivity.
  - cbn [calculateThickness_while]. fold (designStress (trial i)).
    fold (adequate i). destruct (adequate i) eqn:Ha.
    + left. exists i. split; [lia|]. split; [exact Ha|].
      split; [intros j ?; lia|reflexivity].
    + rewrite trial_next.
      destruct (IH (S i)) as [(j & Hj & Haj & Hmin & ->)|[Hnone ->]]; [lia| |].
      * left. exists j. split; [lia|]. split; [exact Haj|]. split; [|reflexivity].
        intros j' Hj'. destruct (Nat.eq_dec j' i) as [->|]; [exact Ha|].
        apply Hmin; lia.
      * right. split; [|reflexivity].
        intros j' Hj'. destruct (Nat.eq_dec j' i) as [->|]; [exact Ha|].
        apply Hnone; lia.
Qed.

Lemma calculateThicknessForPosition_outcome :
  position_outcome 0
    (calculateThicknessForPosition inputs position modulus hasLoadTransfer
       allowableStress).
Proof.
  unfold calculateThicknessForPosition.
  replace (Num 125) with (trial 0).
  - apply calculateThickness_while_outcome. reflexivity.
  - unfold trial. f_equal. simpl. lra.
Qed.

End PointLoadSearch.


(* ================================================================== *)
(** * A compressive strength that is not positive                      *)
(* ================================================================== *)

Section InvalidConcrete.

Import Rack.
Local Open Scope js_scope.

Lemma Reqb_refl (x : R) : Reqb x x = true.
Proof. now apply Reqb_true. Qed.

Lemma Rleb_refl (x : R) : Rleb x x = true.
Proof. apply Rleb_true. lra. Qed.

Lemma nle_not_gt (a b : number) : (a <=? b) = true -> (a >? b) = false.
Proof.
  destruct a, b; simpl; try congruence.
  rewrite Rleb_true, Rltb_false. lra.
Qed.

Lemma Num_eq (x y : R) : x = y -> Num x = Num y.
Proof. now intros ->. Qed.

Lemma calculateAllowableStress_nonpos
    (fc days : number) (repetitions : string) (postTensionStress : value) :
  (fc <=? Num 0) = true ->
  calculateAllowableStress fc days repetitions postTensionStress = Num 0.
Proof.
  intros H. unfold calculateAllowableStress. rewrite H.
  now rewrite orb_true_r.
Qed.

Lemma calculateEc_nonpos (fc : number) :
  (fc <=? Num 0) = true -> calculateEc fc = Num 0.
Proof.
  intros H. unfold calculateEc. now rewrite (nle_not_gt _ _ H).
Qed.

(** Without an elastic modulus there is no radius of relative stiffness. *)
Lemma calculateL_zero_Ec (h k : number) : calculateL (Num 0) h k = Num 0.
Proof.
  unfold calculateL. cbn [truthy]. now rewrite Reqb_refl.
Qed.

Lemma interior_stress_zero_l (P h b : number) :
  calculateSingleInteriorStress P h (Num 0) b = Num 0.
Proof.
  unfold calculateSingleInteriorStress. cbn [nle]. rewrite Rleb_refl.
  now rewrite orb_true_r.
Qed.

Lemma edge_stress_zero_l (P h b : number) (jointType : string) :
  calculateSingleEdgeStress P h (Num 0) b jointType = Num 0.
Proof.
  unfold calculateSingleEdgeStress. cbn [nle]. rewrite Rleb_refl.
  now rewrite orb_true_r.
Qed.

Lemma corner_stress_zero_l (P h r : number) (jointType : string) :
  calculateSingleCornerStress P h (Num 0) r jointType = Num 0.
Proof.
  unfold calculateSingleCornerStress. cbn [nle]. rewrite Rleb_refl.
  now rewrite orb_true_r.
Qed.

(** A positive distance over a zero radius is [Infinity]. *)
Lemma div_zero_pos (a : number) : (a >? Num 0) = true -> a / Num 0 = PInf.
Proof.
  destruct a as [| | |x]; simpl; try congruence.
  - intros _. now rewrite Rleb_refl.
  - intros H. rewrite Reqb_refl. unfold scale_inf. now rewrite H.
Qed.

(** A neighbour without stress adds nothing, however far away it is. *)
Lemma no_contribution_at_infinity (type : string) :
  getStressContribution PInf (Num 0) type = Num 0.
Proof.
  assert (E : Num 0 * Num 0 / Num 100 = Num 0).
  { simpl. unfold Reqb. destruct (Req_dec_T 100 0); [lra|].
    apply Num_eq. lra. }
  unfold getStressContribution.
  destruct (String.eqb type "interior-radial"); [exact E|].
  destruct (String.eqb type "interior-tangential"); [exact E|].
  destruct (String.eqb type "edge-radial"); [exact E|reflexivity].
Qed.

Lemma total_stress_zero_l
    (P h : number) (jointType : string) (distances : list Distance)
    (loadCase : string) (r_contact : number) :
  calculateTotalFactoredStress P h (Num 0) jointType distances loadCase r_contact
  = Num 0.
Proof.
  unfold calculateTotalFactoredStress. cbv zeta.
  rewrite !interior_stress_zero_l, !edge_stress_zero_l, !corner_stress_zero_l.
  assert (Hbase : (if includes loadCase "edge" then Num 0
                   else if String.eqb loadCase "corner" then Num 0 else Num 0)
                  = Num 0).
  { destruct (includes loadCase "edge"), (String.eqb loadCase "corner"); reflexivity. }
  rewrite Hbase. clear Hbase.
  assert (Hfold : forall ds,
    fold_left
      (fun total d =>
         if dist d >? Num 0 then
           let distOverL := dist d / Num 0 in
           let '(adjacentStress, stressType) :=
             if String.eqb (type d) "interior" then
               (Num 0, "interior-tangential"%string)
             else if includes (type d) "edge" then
               (Num 0, "edge-radial"%string)
             else (Num 0, ""%string) in
           total + getStressContribution distOverL adjacentStress stressType
         else total) ds (Num 0) = Num 0).
  { induction ds as [|d ds IH]; [reflexivity|].
    cbn [fold_left]. destruct (dist d >? Num 0) eqn:Hd; [|exact IH].
    rewrite (div_zero_pos _ Hd).
    assert (E : Num 0 + Num 0 = Num 0) by (simpl; apply Num_eq; lra).
    destruct (String.eqb (type d) "interior");
      [|destruct (includes (type d) "edge")];
      cbv zeta; rewrite no_contribution_at_infinity, E; exact IH. }
  rewrite Hfold. unfold LOAD_FACTOR. simpl. apply Num_eq. lra.
Qed.

(** With a zero elastic modulus and a zero allowable stress the first trial
    is adequate: a stress of 0 is at most an allowance of 0. *)
Lemma findMinThickness_zero_Ec
    (loadCase : string) (k P : number) (jointType : string)
    (distances : list Distance) (r_contact : number) :
  findMinThickness loadCase (Num 0) (Num 0) k P jointType distances r_contact
  = Some (found 100 (Num 0)).
Proof.
  unfold findMinThickness. cbn [findMinThickness_while].
  change (100 <=? 800)%Z with true. cbv iota.
  unfold factoredStressAt. cbv zeta.
  rewrite calculateL_zero_Ec, total_stress_zero_l.
  cbn [nle]. now rewrite Rleb_refl.
Qed.

(** C2, as the code has it: a compressive strength that is zero or negative
    gives the allowable stress 0, and also the elastic modulus 0; the radius
    of relative stiffness and every stress are then 0, so every search
    (interior, edges, corner) accepts its first trial and returns the
    thickness 100 with the stress 0. *)
Theorem nonpositive_strength_search
    (fc days : number) (repetitions : string) (postTensionStress : value)
    (loadCase : string) (k P : number) (jointType : string)
    (distances : list Distance) (r_contact : number) :
  (fc <=? Num 0) = true ->
  calculateAllowableStress fc days repetitions postTensionStress = Num 0
  /\ calculateEc fc = Num 0
  /\ findMinThickness loadCase
       (calculateAllowableStress fc days repetitions postTensionStress)
       (calculateEc fc) k P jointType distances r_contact
     = Some {| thickness := VNum (Num 100); stress := VNum (Num 0) |}.
Proof.
  intros Hfc.
  rewrite (calculateAllowableStress_nonpos _ _ _ _ Hfc), (calculateEc_nonpos _ Hfc).
  repeat split. apply findMinThickness_zero_Ec.
Qed.

Lemma nonpositive_strength_search_witness :
  findMinThickness "corner"
    (calculateAllowableStress (Num (-5)) (Num 90) "10000" (VStr "0.5"))
    (calculateEc (Num (-5))) (Num 54) (Num 6) "Dowel Joints"
    [mkDistance (Num 800) "edgeShort"; mkDistance (Num 2700) "edgeLong"]
    (Num 70)
  = Some {| thickness := VNum (Num 100); stress := VNum (Num 0) |}.
Proof.
  apply (nonpositive_strength_search (Num (-5)) (Num 90) "10000" (VStr "0.5")).
  simpl. apply Rleb_true. lra.
Defined.

(** The claim of C2 that the search reports an inadequate result fails for
    a strength of 0 with the default geometry of the rack page: the search
    returns 100 mm, not ['>800']. *)
Lemma nonpositive_strength_counterexample :
  let r :=
    findMinThickness "interior"
      (calculateAllowableStress (Num 0) (Num 28) "< 8000" (VNum (Num 0)))
      (calculateEc (Num 0)) (Num 65) (Num (60 / 9.81)) "Dowel Joints"
      [mkDistance (Num 800) "interior"; mkDistance (Num 2700) "interior";
       mkDistance (Num 2700) "interior"; mkDistance (Num 625) "interior"]
      (Num (sqrt (125 * 125 / PI))) in
  r = Some {| thickness := VNum (Num 100); stress := VNum (Num 0) |}
  /\ r <> Some exhausted.
Proof.
  assert (H0 : (Num 0 <=? Num 0) = true) by apply nle_refl_Num.
  cbv zeta.
  rewrite (calculateAllowableStress_nonpos _ _ _ _ H0), (calculateEc_nonpos _ H0).
  rewrite findMinThickness_zero_Ec. split; [reflexivity|discriminate].
Qed.

End InvalidConcrete.

(* ================================================================== *)
(** * The governing load case                                          *)
(* ================================================================== *)

Section GoverningCase.

Import Rack.
Local Open Scope R_scope.

(** The thickness of an entry of [outputs], when it is a number. *)
Definition thickness_mm (o : Output) : R :=
  match thickness (result o) with
  | VNum (Num t) => t
  | _ => 0
  end.

(** An entry whose search found a thickness: a positive finite number. *)
Definition numeric (o : Output) : Prop :=
  thickness (result o) = VNum (Num (thickness_mm o)) /\ 0 < thickness_mm o.

(** An entry whose search ran past 800. *)
Definition past_800 (o : Output) : Prop := thickness (result o) = VStr ">800".

(** What [findMinThickness] can put into an entry. *)
Definition search_entry (o : Output) : Prop := numeric o \/ past_800 o.

(** One step of the [forEach] of [criticalLoadCase]. *)
Definition critical_step (acc : number * option string) (kv : string * Output)
    : number * option string :=
  let '(maxThickness, criticalCaseName) := acc in
  let thickness := parseFloat_value (thickness (result (snd kv))) in
  if (negb (isNaN thickness) && (thickness >? maxThickness)%js)%bool
  then (thickness, Some (fst kv))
  else acc.

Lemma critical_step_numeric (m : R) (name : option string) (kv : string * Output) :
  numeric (snd kv) ->
  critical_step (Num m, name) kv =
    if Rlt_dec m (thickness_mm (snd kv))
    then (Num (thickness_mm (snd kv)), Some (fst kv))
    else (Num m, name).
Proof.
  intros [Ht _]. unfold critical_step. rewrite Ht.
  cbn [parseFloat_value isNaN negb andb ngt nlt].
  unfold Rltb. now destruct (Rlt_dec m (thickness_mm (snd kv))).
Qed.

(** The text ['>800'] does not start with a number: the entry is passed
    over. *)
Lemma critical_step_past_800 (acc : number * option string) (kv : string * Output) :
  past_800 (snd kv) -> critical_step acc kv = acc.
Proof.
  intros Ht. unfold critical_step. rewrite Ht. destruct acc. reflexivity.
Qed.

Lemma past_800_thickness_mm (o : Output) : past_800 o -> thickness_mm o = 0.
Proof. intros Ht. unfold thickness_mm. now rewrite Ht. Qed.

(** The loop keeps the first entry that attains the largest numeric
    thickness. *)
Lemma critical_fold_first_max (results : list (string * Output)) :
  Forall (fun kv => search_entry (snd kv)) results ->
  forall m name, 0 <= m ->
    (Forall (fun kv => thickness_mm (snd kv) <= m) results
     /\ fold_left critical_step results (Num m, name) = (Num m, name))
    \/ (exists before k o after,
          results = before ++ (k, o) :: after
          /\ numeric o
          /\ m < thickness_mm o
          /\ Forall (fun kv => thickness_mm (snd kv) < thickness_mm o) before
          /\ Forall (fun kv => thickness_mm (snd kv) <= thickness_mm o) after
          /\ fold_left critical_step results (Num m, name)
             = (Num (thickness_mm o), Some k)).
Proof.
  induction 1 as [|[k1 o1] rest Hentry Hrest IH]; intros m name Hm0.
  - left. split; [constructor|reflexivity].
  - cbn [fold_left]. destruct Hentry as [Hnum|Hpast].
    + rewrite (critical_step_numeric m name (k1, o1) Hnum).
      cbn [fst snd] in *. destruct (Rlt_dec m (thickness_mm o1)) as [Hlt|Hge].
      * right.
        destruct (IH (thickness_mm o1) (Some k1) ltac:(lra))
          as [[Hall Hfold]
             |(before & k & o & after & -> & Ho & Hm & Hb & Ha & Hfold)].
        -- exists [], k1, o1, rest.
           split; [reflexivity|]. split; [exact Hnum|]. split; [exact Hlt|].
           split; [constructor|]. split; [exact Hall|exact Hfold].
        -- exists ((k1, o1) :: before), k, o, after.
           split; [reflexivity|]. split; [exact Ho|]. split; [lra|].
           split; [constructor; [exact Hm|exact Hb]|]. split; [exact Ha|exact Hfold].
      * destruct (IH m name Hm0)
          as [[Hall Hfold]
             |(before & k & o & after & -> & Ho & Hm & Hb & Ha & Hfold)].
        -- left. split; [|exact Hfold]. constructor; [cbn [snd]; lra|exact Hall].
        -- right. exists ((k1, o1) :: before), k, o, after.
           split; [reflexivity|]. split; [exact Ho|]. split; [exact Hm|].
           split; [constructor; [cbn [snd]; lra|exact Hb]|].
           split; [exact Ha|exact Hfold].
    + rewrite (critical_step_past_800 (Num m, name) (k1, o1) Hpast).
      cbn [snd] in Hpast. pose proof (past_800_thickness_mm o1 Hpast) as Hz.
      destruct (IH m name Hm0)
        as [[Hall Hfold]
           |(before & k & o & after & -> & Ho & Hm & Hb & Ha & Hfold)].
      * left. split; [|exact Hfold]. constructor; [cbn [snd]; lra|exact Hall].
      * right. exists ((k1, o1) :: before), k, o, after.
        split; [reflexivity|]. split; [exact Ho|]. split; [exact Hm|].
        split; [constructor; [cbn [snd]; lra|exact Hb]|].
        split; [exact Ha|exact Hfold].
Qed.

Lemma search_entry_truthy (o : Output) :
  search_entry o -> truthy_value (thickness (result o)) = true.
Proof.
  intros [[Ht Hpos]|Ht]; rewrite Ht; [|reflexivity].
  cbn [truthy_value truthy]. apply negb_true_iff, Reqb_false. lra.
Qed.

Lemma filter_all {A : Type} (f : A -> bool) (l : list A) :
  Forall (fun a => f a = true) l -> filter f l = l.
Proof.
  induction 1 as [|a l Ha _ IH]; [reflexivity|].
  cbn [filter]. now rewrite Ha, IH.
Qed.

Lemma criticalLoadCase_fold (outputs : list (string * Output)) :
  outputs <> [] ->
  Forall (fun kv => search_entry (snd kv)) outputs ->
  criticalLoadCase outputs = snd (fold_left critical_step outputs (Num 0, None)).
Proof.
  intros Hne Hentries. unfold criticalLoadCase. rewrite filter_all.
  - destruct outputs; [congruence|reflexivity].
  - eapply Forall_impl; [|exact Hentries]. intros kv. apply search_entry_truthy.
Qed.

(** Among the entries, [criticalLoadCase] names the first one, in their
    order, with the largest numeric thickness; entries of searches that ran
    past 800 count as 0. *)
Lemma criticalLoadCase_first_max (outputs : list (string * Output)) :
  Forall (fun kv => search_entry (snd kv)) outputs ->
  Exists (fun kv => numeric (snd kv)) outputs ->
  exists before k o after,
    outputs = before ++ (k, o) :: after
    /\ numeric o
    /\ Forall (fun kv => thickness_mm (snd kv) < thickness_mm o) before
    /\ Forall (fun kv => thickness_mm (snd kv) <= thickness_mm o) after
    /\ criticalLoadCase outputs = Some k.
Proof.
  intros Hentries Hex.
  assert (Hne : outputs <> []) by (intros ->; inversion Hex).
  rewrite (criticalLoadCase_fold outputs Hne Hentries).
  destruct (critical_fold_first_max outputs Hentries 0 None ltac:(lra))
    as [[Hall _]|(before & k & o & after & E & Ho & _ & Hb & Ha & Hfold)].
  - exfalso. apply Exists_exists in Hex as (kv & Hin & [_ Hpos]).
    rewrite Forall_forall in Hall. specialize (Hall kv Hin). lra.
  - exists before, k, o, after. rewrite Hfold.
    split; [exact E|]. split; [exact Ho|]. split; [exact Hb|].
    split; [exact Ha|reflexivity].
Qed.

(** When every search ran past 800 no case is marked. *)
Lemma criticalLoadCase_all_past_800 (outputs : list (string * Output)) :
  Forall (fun kv => past_800 (snd kv)) outputs ->
  criticalLoadCase outputs = None.
Proof.
  intros Hall. destruct outputs as [|kv rest]; [reflexivity|].
  rewrite criticalLoadCase_fold; [|discriminate|].
  - assert (forall l, Forall (fun kv => past_800 (snd kv)) l ->
              fold_left critical_step l (Num 0, None) = (Num 0, None)) as Hfold.
    { induction 1 as [|kv' l Hkv _ IH]; [reflexivity|].
      cbn [fold_left]. now rewrite (critical_step_past_800 _ _ Hkv). }
    now rewrite Hfold.
  - eapply Forall_impl; [|exact Hall]. intros ? ?. now right.
Qed.

Lemma Math_max_finite (a b : R) : Math_max (Num a) (Num b) = Num (Rmax a b).
Proof.
  unfold Math_max, Rmax. cbn [nle]. unfold Rleb.
  now destruct (Rle_dec a b).
Qed.

(** The design summary of the point-load calculator: the largest of the
    three thicknesses, attributed to the corner when the corner attains it,
    else to the edge when the edge attains it, else to the interior. *)
Lemma governedBy_finite (r : PointLoad.Results) (i e c : R) :
  PointLoad.thickness (PointLoad.interior r) = Num i ->
  PointLoad.thickness (PointLoad.edge r) = Num e ->
  PointLoad.thickness (PointLoad.corner r) = Num c ->
  PointLoad.recommendedMinimumThickness r = Num (Rmax (Rmax i e) c)
  /\ PointLoad.governedBy r =
       if Rle_dec (Rmax (Rmax i e) c) c then "Corner Loading"%string
       else if Rle_dec (Rmax (Rmax i e) c) e then "Edge Loading"%string
       else "Interior Loading"%string.
Proof.
  intros Hi He Hc.
  unfold PointLoad.recommendedMinimumThickness, PointLoad.governedBy,
    PointLoad.Math_max3.
  rewrite Hi, He, Hc, !Math_max_finite. split; [reflexivity|].
  cbn [nge nle]. unfold Rleb.
  pose proof (Rmax_l (Rmax i e) c). pose proof (Rmax_r (Rmax i e) c).
  pose proof (Rmax_l i e). pose proof (Rmax_r i e).
  assert (Rmax (Rmax i e) c = c \/ Rmax (Rmax i e) c = Rmax i e)
    by (unfold Rmax at 1 3; destruct (Rle_dec (Rmax i e) c); auto).
  assert (Rmax i e = e \/ Rmax i e = i)
    by (unfold Rmax; destruct (Rle_dec i e); auto).
  destruct (Rle_dec e c), (Rle_dec i c), (Rle_dec i e); cbn [andb];
    destruct (Rle_dec (Rmax (Rmax i e) c) c), (Rle_dec (Rmax (Rmax i e) c) e);
    try reflexivity; exfalso; lra.
Qed.

Definition output_of (t : value) (s : value) (strength : number) : Output :=
  {| result := {| thickness := t; stress := s |}; ultimateStrength := strength |}.

(** C7, as the code has it: the governing case is a case with the largest
    thickness.  On a tie the design summary of the point-load calculator
    prefers the corner to the edge and the edge to the interior, whereas
    [criticalLoadCase] of the rack calculator keeps the first of the tied
    cases in the order of its results (interior, long edge, short edge,
    corner) and passes over the searches that ran past 800. *)
Theorem governing_case
    (r : PointLoad.Results) (i e c : R) (outputs : list (string * Output)) :
  PointLoad.thickness (PointLoad.interior r) = Num i ->
  PointLoad.thickness (PointLoad.edge r) = Num e ->
  PointLoad.thickness (PointLoad.corner r) = Num c ->
  Forall (fun kv => search_entry (snd kv)) outputs ->
  Exists (fun kv => numeric (snd kv)) outputs ->
  (PointLoad.recommendedMinimumThickness r = Num (Rmax (Rmax i e) c)
   /\ PointLoad.governedBy r =
        if Rle_dec (Rmax (Rmax i e) c) c then "Corner Loading"%string
        else if Rle_dec (Rmax (Rmax i e) c) e then "Edge Loading"%string
        else "Interior Loading"%string)
  /\ (exists before k o after,
        outputs = before ++ (k, o) :: after
        /\ numeric o
        /\ Forall (fun kv => thickness_mm (snd kv) < thickness_mm o) before
        /\ Forall (fun kv => thickness_mm (snd kv) <= thickness_mm o) after
        /\ criticalLoadCase outputs = Some k).
Proof.
  intros Hi He Hc Hentries Hex. split.
  - now apply governedBy_finite.
  - now apply criticalLoadCase_first_max.
Qed.

Definition result_at (t : R) : PointLoad.CalculationResult :=
  {| PointLoad.equivalentRadius := Num 0; PointLoad.radiusOfStiffness := Num 0;
     PointLoad.stress := Num 0; PointLoad.thickness := Num t;
     PointLoad.isAdequate := true |}.

Definition found_at (t : R) : Output :=
  output_of (VNum (Num t)) (VNum (Num 3)) (Num 4).

Lemma found_at_numeric (t : R) : 0 < t -> numeric (found_at t).
Proof. intros H. split; [reflexivity|exact H]. Qed.

Lemma governing_case_witness :
  let r := {| PointLoad.modulus := Num 54; PointLoad.allowableStress := Num 4000;
              PointLoad.interior := result_at 150; PointLoad.edge := result_at 175;
              PointLoad.corner := result_at 200 |} in
  let outputs := [("interior"%string, found_at 150); ("edgeLong"%string, found_at 175);
                  ("edgeShort"%string, output_of (VStr ">800") VNull (Num 4));
                  ("corner"%string, found_at 200)] in
  (PointLoad.recommendedMinimumThickness r = Num (Rmax (Rmax 150 175) 200)
   /\ PointLoad.governedBy r =
        if Rle_dec (Rmax (Rmax 150 175) 200) 200 then "Corner Loading"%string
        else if Rle_dec (Rmax (Rmax 150 175) 200) 175 then "Edge Loading"%string
        else "Interior Loading"%string)
  /\ (exists before k o after,
        outputs = before ++ (k, o) :: after
        /\ numeric o
        /\ Forall (fun kv => thickness_mm (snd kv) < thickness_mm o) before
        /\ Forall (fun kv => thickness_mm (snd kv) <= thickness_mm o) after
        /\ criticalLoadCase outputs = Some k).
Proof.
  cbv zeta.
  apply (governing_case _ 150 175 200); try reflexivity.
  - repeat (apply Forall_cons;
            [cbn [snd];
             solve [left; apply found_at_numeric; lra | right; reflexivity]|]).
    apply Forall_nil.
  - left. cbn [snd]. apply found_at_numeric. lra.
Defined.

(** Four searches that all stop at 100 mm: the rack calculator marks the
    interior case as critical, not the corner. *)
Lemma governing_case_tie_counterexample :
  criticalLoadCase
    [("interior"%string, found_at 100); ("edgeLong"%string, found_at 100);
     ("edgeShort"%string, found_at 100); ("corner"%string, found_at 100)]
  = Some "interior"%string.
Proof.
  rewrite criticalLoadCase_fold;
    [|discriminate
     |repeat (apply Forall_cons; [cbn [snd]; left; apply found_at_numeric; lra|]);
      apply Forall_nil].
  cbn [fold_left].
  repeat (rewrite critical_step_numeric by (apply found_at_numeric; lra);
          cbn [fst snd thickness_mm found_at output_of result thickness];
          rcases).
  reflexivity.
Qed.

(** A search that ran past 800 is left out of the comparison. *)
Lemma criticalLoadCase_skips_exhausted :
  criticalLoadCase
    [("interior"%string, found_at 150);
     ("corner"%string, output_of (VStr ">800") VNull (Num 4))]
  = Some "interior"%string.
Proof.
  unfold criticalLoadCase, found_at, output_of. simpl.
  repeat (unfold Reqb, Rltb; rcases; simpl).
  reflexivity.
Qed.

End GoverningCase.

(* ================================================================== *)
(** * The repetition factor k2                                         *)
(* ================================================================== *)

Section Fatigue.

Import Rack.
Local Open Scope R_scope.

Lemma ln_le (x y : R) : 0 < x -> x <= y -> ln x <= ln y.
Proof.
  intros Hx [Hlt| ->]; [|lra]. left. now apply ln_increasing.
Qed.

Lemma ln_10_pos : 0 < ln 10.
Proof. rewrite <- ln_1. apply ln_increasing; lra. Qed.

(** The decimal logarithm, as [Math.log10] has it on positive numbers. *)
Definition log10 (x : R) : R := ln x / ln 10.

Lemma log10_le (x y : R) : 0 < x -> x <= y -> log10 x <= log10 y.
Proof.
  intros Hx Hxy. unfold log10. pose proof ln_10_pos.
  apply Rmult_le_compat_r; [left; now apply Rinv_0_lt_compat|now apply ln_le].
Qed.

(** [x^p <= 10^q] bounds the decimal logarithm of [x] by [q / p]. *)
Lemma log10_upper (x : R) (p q : nat) :
  0 < x -> (0 < p)%nat -> x ^ p <= 10 ^ q -> log10 x <= INR q / INR p.
Proof.
  intros Hx Hp H. pose proof ln_10_pos as H10.
  assert (HP : 0 < INR p) by (apply lt_0_INR; lia).
  assert (Hln : INR p * ln x <= INR q * ln 10).
  { rewrite <- !ln_pow by lra. apply ln_le; [now apply pow_lt|exact H]. }
  unfold log10. apply Rmult_le_reg_r with (INR p * ln 10); [nra|].
  field_simplify; [|lra|lra]. lra.
Qed.

Lemma log10_lower (x : R) (p q : nat) :
  0 < x -> (0 < p)%nat -> 10 ^ q <= x ^ p -> INR q / INR p <= log10 x.
Proof.
  intros Hx Hp H. pose proof ln_10_pos as H10.
  assert (HP : 0 < INR p) by (apply lt_0_INR; lia).
  assert (Hln : INR q * ln 10 <= INR p * ln x).
  { rewrite <- !ln_pow by lra. apply ln_le; [apply pow_lt; lra|exact H]. }
  unfold log10. apply Rmult_le_reg_r with (INR p * ln 10); [nra|].
  field_simplify; [|lra|lra]. lra.
Qed.

(** The factor before it is clamped. *)
Definition k2_calculated (repetitions : R) : R :=
  1.5 * (0.73 - 0.0846 * (log10 repetitions - 3)).

Definition clamp (x : R) : R := Rmax 0.75 (Rmin 1 x).

Lemma clamp_bounds (x : R) : 0.75 <= clamp x <= 1.
Proof.
  unfold clamp, Rmax, Rmin.
  destruct (Rle_dec 1 x); destruct (Rle_dec 0.75 _); lra.
Qed.

Lemma clamp_le (x y : R) : x <= y -> clamp x <= clamp y.
Proof.
  intros H. unfold clamp, Rmax, Rmin.
  destruct (Rle_dec 1 x), (Rle_dec 1 y);
    repeat match goal with |- context [Rle_dec ?a ?b] => destruct (Rle_dec a b) end;
    lra.
Qed.

Lemma k2_calculated_decreasing (x y : R) :
  0 < x -> x <= y -> k2_calculated y <= k2_calculated x.
Proof.
  intros Hx Hxy. pose proof (log10_le x y Hx Hxy). unfold k2_calculated. lra.
Qed.

(** ** The rack calculator: [getK2] *)

(** [getK2] on a finite number of repetitions. *)
Definition k2_rack (r : R) : R :=
  if Rlt_dec r 8000 then 1
  else if Rle_dec r 400000 then clamp (k2_calculated r)
  else 0.77.

Lemma Math_min_finite (a b : R) : Math_min (Num a) (Num b) = Num (Rmin a b).
Proof.
  unfold Math_min, Rmin. cbn [nle]. unfold Rleb. now destruct (Rle_dec a b).
Qed.

(** A text that scans as a run of digits. *)
Lemma parseFloat_integer (s : string) (m : Z) :
  scan_literal s = LitDecimal false m 0 -> parseFloat s = Num (IZR m).
Proof.
  intros H. unfold parseFloat. rewrite H. cbn [number_of_literal powerRZ].
  apply Num_eq. ring.
Qed.

(** The text [Unlimited] is not a number, so the branch that tests for it
    is never reached. *)
Lemma parseFloat_Unlimited : parseFloat "Unlimited" = NaN.
Proof. reflexivity. Qed.

Lemma getK2_not_a_number (s : string) :
  parseFloat s = NaN -> getK2 s = Num 1.
Proof. intros H. unfold getK2. rewrite H. apply Num_eq. lra. Qed.

Lemma getK2_finite (s : string) (r : R) :
  parseFloat s = Num r -> getK2 s = Num (k2_rack r).
Proof.
  intros H. unfold getK2, k2_rack.
  destruct (String.eqb s "Unlimited") eqn:E.
  { apply String.eqb_eq in E. subst s. rewrite parseFloat_Unlimited in H.
    discriminate. }
  rewrite H. cbn [isNaN orb nlt nge nle ngt]. unfold Rltb, Rleb.
  destruct (Rlt_dec r 8000) as [Hlt|Hge]; [apply Num_eq; lra|].
  destruct (Rle_dec 8000 r); [|lra].
  destruct (Rle_dec r 400000) as [Hle|Hgt]; cbn [andb].
  - unfold Math_log10, Rltb. destruct (Rlt_dec 0 r); [|lra].
    cbn [nsub nadd nopp nmul]. rewrite Math_min_finite, Math_max_finite.
    apply Num_eq. unfold clamp, k2_calculated, log10.
    replace 1.0 with 1 by lra. reflexivity.
  - destruct (Rlt_dec 400000 r); [reflexivity|lra].
Qed.

Lemma getK2_infinite : forall s,
  (parseFloat s = PInf -> getK2 s = Num 0.77)
  /\ (parseFloat s = NInf -> getK2 s = Num 1).
Proof.
  intros s. unfold getK2.
  destruct (String.eqb s "Unlimited") eqn:E.
  { apply String.eqb_eq in E. subst s. rewrite parseFloat_Unlimited.
    split; discriminate. }
  split; intros ->; cbn; [reflexivity|apply Num_eq; lra].
Qed.

Lemma k2_rack_below_8000 (r : R) : r < 8000 -> k2_rack r = 1.
Proof. intros H. unfold k2_rack. destruct (Rlt_dec r 8000); [reflexivity|lra]. Qed.

Lemma k2_rack_bounds (r : R) : 0.75 <= k2_rack r <= 1.
Proof.
  unfold k2_rack. pose proof (clamp_bounds (k2_calculated r)).
  destruct (Rlt_dec r 8000), (Rle_dec r 400000); lra.
Qed.

(** At 300000 repetitions the computed factor is still above the 0.77 that
    is used beyond 400000: [log10 300000 <= 5.5]. *)
Lemma k2_calculated_300000 : 0.77 <= k2_calculated 300000.
Proof.
  assert (H : log10 300000 <= INR 11 / INR 2)
    by (apply log10_upper; [lra|lia|simpl; lra]).
  simpl in H. unfold k2_calculated. lra.
Qed.

(** At 400000 it has dropped below 0.77: [log10 400000 >= 5.6]. *)
Lemma k2_calculated_400000 : k2_calculated 400000 <= 0.7651.
Proof.
  assert (H : INR 28 / INR 5 <= log10 400000)
    by (apply log10_lower; [lra|lia|simpl; lra]).
  rewrite !INR_IZR_INZ in H. simpl in H. unfold k2_calculated. lra.
Qed.

Lemma k2_rack_monotone (r1 r2 : R) :
  r1 <= r2 -> r2 <= 400000 \/ r1 <= 300000 -> k2_rack r2 <= k2_rack r1.
Proof.
  intros H12 Hrange. pose proof (k2_rack_bounds r2) as Hb2.
  unfold k2_rack in *.
  destruct (Rlt_dec r1 8000); [lra|].
  destruct (Rlt_dec r2 8000); [lra|].
  destruct (Rle_dec r1 400000); [|destruct (Rle_dec r2 400000); lra].
  destruct (Rle_dec r2 400000).
  - apply clamp_le, k2_calculated_decreasing; lra.
  - destruct Hrange as [?|H300]; [lra|].
    apply Rle_trans with (clamp (k2_calculated 300000)).
    + pose proof k2_calculated_300000. unfold clamp, Rmax, Rmin.
      destruct (Rle_dec 1 (k2_calculated 300000)); destruct (Rle_dec 0.75 _); lra.
    + apply clamp_le, k2_calculated_decreasing; lra.
Qed.

Lemma k2_rack_highest_bucket (r : R) : 400000 <= r -> 0.75 <= k2_rack r <= 0.77.
Proof.
  intros H. unfold k2_rack.
  destruct (Rlt_dec r 8000); [lra|].
  destruct (Rle_dec r 400000); [|lra].
  replace r with 400000 by lra.
  pose proof k2_calculated_400000. pose proof (clamp_bounds (k2_calculated 400000)).
  split; [lra|]. unfold clamp, Rmax, Rmin.
  destruct (Rle_dec 1 (k2_calculated 400000)); destruct (Rle_dec 0.75 _); lra.
Qed.

(** The factor is not monotone over all counts: it rises from 400000 to any
    larger count. *)
Lemma k2_rack_rises_after_400000 : k2_rack 400000 < k2_rack 400001.
Proof.
  pose proof k2_calculated_400000. pose proof (clamp_bounds (k2_calculated 400000)).
  unfold k2_rack.
  destruct (Rlt_dec 400000 8000); [lra|]. destruct (Rlt_dec 400001 8000); [lra|].
  destruct (Rle_dec 400000 400000); [|lra]. destruct (Rle_dec 400001 400000); [lra|].
  unfold clamp, Rmax, Rmin in *.
  destruct (Rle_dec 1 (k2_calculated 400000)); destruct (Rle_dec 0.75 _); lra.
Qed.

(** ** The point-load calculator: the table in [calculateModulusOfRupture] *)

(** The table on a finite number of repetitions. *)
Definition k2_table (r : R) : R :=
  if Rle_dec 400000 r then 0.77
  else if Rle_dec 300000 r then 0.78
  else if Rle_dec 200000 r then 0.81
  else if Rle_dec 100000 r then 0.84
  else if Rle_dec 50000 r then 0.89
  else if Rle_dec 30000 r then 0.90
  else if Rle_dec 10000 r then 0.96
  else 1.

Lemma k2_of_finite (r : R) : PointLoad.k2_of (Num r) = Num (k2_table r).
Proof.
  unfold PointLoad.k2_of, k2_table. cbn [nge nle]. unfold Rleb.
  repeat match goal with
         | |- context [Rle_dec ?a r] => destruct (Rle_dec a r); try reflexivity
         end.
  apply Num_eq. lra.
Qed.

Lemma k2_table_monotone (r1 r2 : R) : r1 <= r2 -> k2_table r2 <= k2_table r1.
Proof.
  intros H. unfold k2_table.
  repeat match goal with
         | |- context [Rle_dec ?a ?b] => destruct (Rle_dec a b); try lra
         end.
Qed.

Lemma k2_table_bounds (r : R) : 0.77 <= k2_table r <= 1.
Proof.
  unfold k2_table.
  repeat match goal with
         | |- context [Rle_dec ?a ?b] => destruct (Rle_dec a b); try lra
         end.
Qed.

(** The counts offered by the rack page, after the entry [< 8000]. *)
Definition bucket_counts : list (string * R) :=
  [("8000"%string, 8000); ("10000"%string, 10000); ("30000"%string, 30000);
   ("50000"%string, 50000); ("100000"%string, 100000); ("200000"%string, 200000);
   ("300000"%string, 300000); ("400000"%string, 400000)].

Lemma bucket_counts_parse (s : string) (r : R) :
  In (s, r) bucket_counts -> parseFloat s = Num r /\ 8000 <= r <= 400000.
Proof.
  unfold bucket_counts. cbn [In].
  intros H; repeat (destruct H as [H|H]; [injection H as <- <-|]);
    try contradiction; (split; [|lra]);
    apply parseFloat_integer; vm_compute; reflexivity.
Qed.

Lemma log10_pow10 (n : nat) : log10 (10 ^ n) = INR n.
Proof.
  unfold log10. rewrite ln_pow by lra. field. pose proof ln_10_pos. lra.
Qed.

(** Two worked values: at 10000 and at 100000 repetitions the formula of
    the rack calculator gives 0.9681 and 0.8412, where the table of the
    point-load calculator has 0.96 and 0.84. *)
Lemma getK2_10000 : getK2 "10000" = Num 0.9681.
Proof.
  rewrite (getK2_finite "10000" 10000)
    by (apply parseFloat_integer; vm_compute; reflexivity).
  apply Num_eq. unfold k2_rack.
  destruct (Rlt_dec 10000 8000); [lra|]. destruct (Rle_dec 10000 400000); [|lra].
  unfold k2_calculated. replace 10000 with (10 ^ 4) at 1 by (simpl; lra).
  rewrite log10_pow10. rewrite INR_IZR_INZ. simpl IZR.
  unfold clamp, Rmax, Rmin.
  destruct (Rle_dec 1 _); [lra|]. destruct (Rle_dec 0.75 _); lra.
Qed.

Lemma getK2_100000 : getK2 "100000" = Num 0.8412.
Proof.
  rewrite (getK2_finite "100000" 100000)
    by (apply parseFloat_integer; vm_compute; reflexivity).
  apply Num_eq. unfold k2_rack.
  destruct (Rlt_dec 100000 8000); [lra|]. destruct (Rle_dec 100000 400000); [|lra].
  unfold k2_calculated. replace 100000 with (10 ^ 5) at 1 by (simpl; lra).
  rewrite log10_pow10. rewrite INR_IZR_INZ. simpl IZR.
  unfold clamp, Rmax, Rmin.
  destruct (Rle_dec 1 _); [lra|]. destruct (Rle_dec 0.75 _); lra.
Qed.

Lemma k2_of_100000 : PointLoad.k2_of (Num 100000) = Num 0.84.
Proof.
  rewrite k2_of_finite. apply Num_eq. unfold k2_table.
  repeat match goal with
         | |- context [Rle_dec ?a ?b] => destruct (Rle_dec a b); try lra
         end.
Qed.

(** C5: the fatigue factor is 1.0 below 8000 repetitions; it does not
    increase along the bucket sequence 8000, 10000, 30000, 50000, 100000,
    200000, 300000, 400000 and beyond; it always lies in [0.75, 1.0]; and
    in the highest bucket, from 400000 on, it lies in [0.75, 0.77].  This
    holds for [getK2] of the rack calculator, on the text of the count, and
    for the table of the point-load calculator. *)
Theorem k2_fatigue_factor :
  (forall s, (parseFloat s <? Num 8000)%js = true \/ s = "< 8000"%string ->
     getK2 s = Num 1)
  /\ (forall s1 r1 s2 r2,
        In (s1, r1) bucket_counts ->
        parseFloat s2 = Num r2 ->
        r1 <= r2 ->
        In (s2, r2) bucket_counts \/ (r1 <= 300000 /\ 400000 <= r2) ->
        (getK2 s2 <=? getK2 s1)%js = true)
  /\ (forall s, exists v, getK2 s = Num v /\ 0.75 <= v <= 1)
  /\ (forall s r, parseFloat s = Num r -> 400000 <= r ->
        exists v, getK2 s = Num v /\ 0.75 <= v <= 0.77)
  /\ (forall n, (n <? Num 8000)%js = true -> PointLoad.k2_of n = Num 1)
  /\ (forall r1 r2, r1 <= r2 ->
        (PointLoad.k2_of (Num r2) <=? PointLoad.k2_of (Num r1))%js = true)
  /\ (forall n, exists v, PointLoad.k2_of n = Num v /\ 0.75 <= v <= 1)
  /\ (forall n, (n >=? Num 400000)%js = true -> PointLoad.k2_of n = Num 0.77).
Proof.
  repeat match goal with |- _ /\ _ => split end.
  - intros s [H| ->]; [|now apply getK2_not_a_number].
    destruct (parseFloat s) as [| | |r] eqn:E; try discriminate.
    + now apply getK2_infinite.
    + rewrite (getK2_finite s r E). apply Num_eq, k2_rack_below_8000.
      cbn in H. now apply Rltb_true in H.
  - intros s1 r1 s2 r2 H1 H2 H12 Hrange.
    destruct (bucket_counts_parse _ _ H1) as [E1 B1].
    rewrite (getK2_finite s1 r1 E1), (getK2_finite s2 r2 H2).
    cbn [nle]. apply Rleb_true, k2_rack_monotone; [exact H12|].
    destruct Hrange as [Hin|[? ?]]; [|now right].
    left. now destruct (bucket_counts_parse _ _ Hin).
  - intros s. destruct (parseFloat s) as [| | |r] eqn:E.
    + exists 1. rewrite (getK2_not_a_number s E). split; [reflexivity|lra].
    + exists 0.77. rewrite (proj1 (getK2_infinite s) E). split; [reflexivity|lra].
    + exists 1. rewrite (proj2 (getK2_infinite s) E). split; [reflexivity|lra].
    + exists (k2_rack r). split; [now apply getK2_finite|apply k2_rack_bounds].
  - intros s r E H. exists (k2_rack r).
    split; [now apply getK2_finite|now apply k2_rack_highest_bucket].
  - intros n H. destruct n as [| | |r]; try discriminate.
    + cbn. apply Num_eq. lra.
    + rewrite k2_of_finite. apply Num_eq. cbn in H. apply Rltb_true in H.
      unfold k2_table.
      repeat match goal with
             | |- context [Rle_dec ?a ?b] => destruct (Rle_dec a b); try lra
             end.
  - intros r1 r2 H. rewrite !k2_of_finite. cbn [nle].
    now apply Rleb_true, k2_table_monotone.
  - intros n. destruct n as [| | |r].
    + exists 1. split; [cbn; apply Num_eq; lra|lra].
    + exists 0.77. split; [reflexivity|lra].
    + exists 1. split; [cbn; apply Num_eq; lra|lra].
    + exists (k2_table r). split; [apply k2_of_finite|].
      pose proof (k2_table_bounds r). lra.
  - intros n H. unfold PointLoad.k2_of. now rewrite H.
Qed.

End Fatigue.

(* ================================================================== *)
(** * The modulus of a subgrade with a granular sub-base               *)
(* ================================================================== *)

Section SubbaseModulus.

Local Open Scope R_scope.

(** The capped multiplier of the point-load calculator on a finite
    thickness of at least 100. *)
Lemma enhance_finite (inputs : PointLoad.Inputs) (k t : R) :
  PointLoad.hasSubbase inputs = true -> 100 <= t ->
  PointLoad.enhanceModulusForSubbase inputs (Num k) (Num t)
  = Num (Rmin (k * (1 + t / 300 * 0.5)) (k * 2)).
Proof.
  intros Hs Ht. unfold PointLoad.enhanceModulusForSubbase. rewrite Hs.
  cbn [negb orb nlt]. unfold Rltb. destruct (Rlt_dec t 100); [lra|].
  cbn [ndiv]. unfold Reqb. destruct (Req_dec_T 300 0); [lra|].
  cbn [nmul nadd]. apply Math_min_finite.
Qed.

Lemma enhance_infinite (inputs : PointLoad.Inputs) (k : R) :
  PointLoad.hasSubbase inputs = true -> 0 < k ->
  PointLoad.enhanceModulusForSubbase inputs (Num k) PInf = Num (k * 2).
Proof.
  intros Hs Hk. unfold PointLoad.enhanceModulusForSubbase. rewrite Hs.
  cbn [negb orb nlt ndiv inf_of]. rewrite (proj2 (Rleb_true 0 300)) by lra.
  cbn [inf_of nmul]. unfold scale_inf. rewrite (proj2 (Rltb_true 0 0.5)) by lra.
  cbn [inf_of nadd nmul]. unfold scale_inf. rewrite (proj2 (Rltb_true 0 k)) by lra.
  reflexivity.
Qed.

(** C6, as the code has it: with the capped multiplier
    [enhanceModulusForSubbase], for a base modulus [k > 0] and any
    sub-base thickness the enhanced modulus is at least [k] and at most
    [2 k], and it is [k] itself when the thickness is below 100 or there is
    no sub-base.  The regression [calculateModifiedK] of the rack
    calculator returns [k] unchanged for a thickness that is not
    positive. *)
Theorem subbase_modulus_bounds
    (inputs : PointLoad.Inputs) (k : R) (thickness : number) :
  0 < k -> isNaN thickness = false ->
  (exists k', PointLoad.enhanceModulusForSubbase inputs (Num k) thickness = Num k'
              /\ k <= k' <= 2 * k
              /\ ((thickness <? Num 100)%js = true -> k' = k)
              /\ (PointLoad.hasSubbase inputs = false -> k' = k))
  /\ ((thickness <=? Num 0)%js = true ->
      Rack.calculateModifiedK (Num k) thickness = Num k).
Proof.
  intros Hk Hnan. split.
  - destruct (PointLoad.hasSubbase inputs) eqn:Hs.
    + destruct thickness as [| | |t]; try discriminate.
      * exists (k * 2). rewrite (enhance_infinite inputs k Hs Hk).
        repeat split; try lra; discriminate.
      * exists k. unfold PointLoad.enhanceModulusForSubbase.
        cbn [nlt]. rewrite orb_true_r. repeat split; lra.
      * destruct (Rlt_dec t 100) as [Hlt|Hge].
        -- exists k. unfold PointLoad.enhanceModulusForSubbase. cbn [nlt].
           rewrite (proj2 (Rltb_true t 100) Hlt), orb_true_r. repeat split; lra.
        -- rewrite (enhance_finite inputs k t Hs) by lra.
           eexists; split; [reflexivity|].
           assert (Hmin : k <= Rmin (k * (1 + t / 300 * 0.5)) (k * 2) <= 2 * k).
           { unfold Rmin. destruct (Rle_dec _ _); nra. }
           split; [exact Hmin|]. split; [|discriminate].
           cbn [nlt]. rewrite (proj2 (Rltb_false t 100)) by lra. discriminate.
    + exists k. unfold PointLoad.enhanceModulusForSubbase. rewrite Hs.
      repeat split; lra.
  - intros H. unfold Rack.calculateModifiedK. now rewrite H.
Qed.

(** The state the point-load page starts from. *)
Definition initialInputs : PointLoad.Inputs :=
  {| PointLoad.cbrValue := Num 0; PointLoad.scalaValue := "";
     PointLoad.groundAssessmentType := "cbr"; PointLoad.hasSubbase := true;
     PointLoad.subbaseThickness := Num 100; PointLoad.concreteStrength := Num 32;
     PointLoad.isPrestressed := false; PointLoad.residualStrength := Num 0.5;
     PointLoad.assessmentAge := Num 28; PointLoad.jointType := "dowel";
     PointLoad.isBackToBack := false; PointLoad.backToBackSpacing := Num 0.1;
     PointLoad.baseplateX := Num 50; PointLoad.baseplateY := Num 50;
     PointLoad.wheelLoading := Num 1; PointLoad.loadRepetitions := Num 8000 |}.

Lemma subbase_modulus_bounds_witness :
  (exists k', PointLoad.enhanceModulusForSubbase initialInputs (Num 54) (Num 150) = Num k'
              /\ 54 <= k' <= 2 * 54
              /\ ((Num 150 <? Num 100)%js = true -> k' = 54)
              /\ (PointLoad.hasSubbase initialInputs = false -> k' = 54))
  /\ ((Num 150 <=? Num 0)%js = true ->
      Rack.calculateModifiedK (Num 54) (Num 150) = Num 54).
Proof.
  apply (subbase_modulus_bounds initialInputs 54 (Num 150)); [lra|reflexivity].
Defined.

Lemma ln_le_minus_1 (y : R) : 0 < y -> ln y <= y - 1.
Proof.
  intros Hy. pose proof (exp_ineq1_le (ln y)) as H.
  rewrite exp_ln in H by exact Hy. lra.
Qed.

(** An upper bound of a logarithm from a rational [c] with [c^n] near [x]. *)
Lemma ln_upper (x c : R) (n : nat) :
  0 < x -> 0 < c -> ln x <= (x / c ^ n - 1) + INR n * (c - 1).
Proof.
  intros Hx Hc. assert (Hcn : 0 < c ^ n) by now apply pow_lt.
  replace x with (x / c ^ n * c ^ n) at 1 by (field; lra).
  assert (0 < x / c ^ n) by now apply Rdiv_lt_0_compat.
  rewrite ln_mult, ln_pow by assumption.
  pose proof (ln_le_minus_1 (x / c ^ n) ltac:(assumption)).
  pose proof (ln_le_minus_1 c Hc). pose proof (pos_INR n). nra.
Qed.

Lemma ln_ge_1_minus_inv (y : R) : 0 < y -> 1 - / y <= ln y.
Proof.
  intros Hy. pose proof (ln_le_minus_1 (/ y) (Rinv_0_lt_compat y Hy)) as H.
  rewrite ln_Rinv in H by exact Hy. lra.
Qed.

(** A lower bound of a logarithm from a rational [c] with [c^n] near [x]. *)
Lemma ln_lower (x c : R) (n : nat) :
  0 < x -> 0 < c -> (1 - c ^ n / x) + INR n * (1 - / c) <= ln x.
Proof.
  intros Hx Hc. assert (Hcn : 0 < c ^ n) by now apply pow_lt.
  replace x with (x / c ^ n * c ^ n) at 2 by (field; lra).
  assert (Hq : 0 < x / c ^ n) by now apply Rdiv_lt_0_compat.
  rewrite ln_mult, ln_pow by assumption.
  pose proof (ln_ge_1_minus_inv (x / c ^ n) Hq) as H1.
  replace (/ (x / c ^ n)) with (c ^ n / x) in H1 by (field; lra).
  pose proof (ln_ge_1_minus_inv c Hc). pose proof (pos_INR n). nra.
Qed.

(** The regression of the rack calculator on finite positive arguments. *)
Lemma calculateModifiedK_finite (k t : R) :
  0 < k -> 0 < t ->
  Rack.calculateModifiedK (Num k) (Num t)
  = Num (t * (0.0612 * ln k - 0.1029) + (0.8752 * k - 1.453)).
Proof.
  intros Hk Ht. unfold Rack.calculateModifiedK. cbn [nle]. unfold Rleb.
  destruct (Rle_dec t 0); [lra|]. destruct (Rle_dec k 0); [lra|].
  unfold Math_log, Rltb. destruct (Rlt_dec 0 k); [|lra]. reflexivity.
Qed.

(** The claim of C6 fails for the regression: a sub-base of 50 mm, below
    the 100 mm minimum, changes a modulus of 54 MN/m3, and lowers it. *)
Lemma calculateModifiedK_counterexample :
  exists k', Rack.calculateModifiedK (Num 54) (Num 50) = Num k' /\ k' < 54.
Proof.
  rewrite calculateModifiedK_finite by lra. eexists; split; [reflexivity|].
  assert (H : ln 54 <= (54 / 1.13 ^ 32 - 1) + INR 32 * (1.13 - 1))
    by (apply ln_upper; lra).
  rewrite INR_IZR_INZ in H. simpl in H. lra.
Qed.

(** The regression has no cap either: a sub-base of 500 mm more than
    doubles a modulus of 15 MN/m3. *)
Lemma calculateModifiedK_exceeds_double :
  exists k', Rack.calculateModifiedK (Num 15) (Num 500) = Num k' /\ 2 * 15 < k'.
Proof.
  rewrite calculateModifiedK_finite by lra. eexists; split; [reflexivity|].
  pose proof (ln_lower 15 1.2 14 ltac:(lra) ltac:(lra)) as H.
  rewrite INR_IZR_INZ in H. simpl in H. lra.
Qed.

(** With a modulus of 1 the logarithm vanishes and the value is exact. *)
Lemma calculateModifiedK_at_1 :
  Rack.calculateModifiedK (Num 1) (Num 50) = Num (-5.7228).
Proof.
  rewrite calculateModifiedK_finite by lra. rewrite ln_1. apply Num_eq. lra.
Qed.

End SubbaseModulus.

(* ================================================================== *)
(** * The stress functions on finite positive arguments                *)
(* ================================================================== *)

Section FiniteStress.

Import Rack.
Local Open Scope R_scope.

Lemma Math_pow_finite (x y : R) :
  0 < x -> y <> 0 -> Math_pow (Num x) (Num y) = Num (Rpower x y).
Proof.
  intros Hx Hy. unfold Math_pow, Reqb, Rltb.
  destruct (Req_dec_T y 0); [contradiction|].
  destruct (Rlt_dec 0 x); [reflexivity|lra].
Qed.

Lemma Rpower_2 (x : R) : 0 < x -> Rpower x 2 = x * x.
Proof.
  intros Hx. change 2 with (INR 2). rewrite Rpower_pow by exact Hx. ring.
Qed.

Lemma Rpower_3 (x : R) : 0 < x -> Rpower x 3 = x * x * x.
Proof.
  intros Hx. replace 3 with (INR 3) by (simpl; lra).
  rewrite Rpower_pow by exact Hx. ring.
Qed.

(** The plate constant [12 (1 - mu^2)]. *)
Definition plate_constant : R := 12 * (1 - Rpower 0.15 2).

Lemma plate_constant_value : plate_constant = 11.73.
Proof. unfold plate_constant. rewrite Rpower_2 by lra. lra. Qed.

(** The radius of relative stiffness of [calculateL]. *)
Definition L_real (Ec h k : R) : R :=
  Rpower (Ec * Rpower h 3 * 1000 / (plate_constant * k)) 0.25.

Lemma calculateL_finite (Ec h k : R) :
  0 < Ec -> 0 < h -> 0 < k ->
  calculateL (Num Ec) (Num h) (Num k) = Num (L_real Ec h k).
Proof.
  intros HE Hh Hk. unfold calculateL. cbn [truthy nle].
  rewrite (proj2 (Reqb_false Ec 0)), (proj2 (Reqb_false h 0)),
    (proj2 (Reqb_false k 0)) by lra.
  rewrite (proj2 (Rleb_false Ec 0)), (proj2 (Rleb_false h 0)),
    (proj2 (Rleb_false k 0)) by lra.
  cbn [negb orb]. unfold POISSON_RATIO.
  rewrite !Math_pow_finite by lra. cbn [nmul nsub nadd nopp].
  pose proof plate_constant_value as Hc. unfold plate_constant in Hc.
  assert (Hden : 12 * (1 + - Rpower 0.15 2) * k <> 0).
  { replace (1 + - Rpower 0.15 2) with (1 - Rpower 0.15 2) by lra. nra. }
  cbn [ndiv]. rewrite (proj2 (Reqb_false _ 0) Hden).
  assert (Hnum : 0 < Ec * Rpower h 3 * 1000).
  { rewrite Rpower_3 by exact Hh. assert (0 < h * h * h) by (repeat apply Rmult_lt_0_compat; lra). nra. }
  rewrite Math_pow_finite; [reflexivity| |lra].
  apply Rdiv_lt_0_compat; [exact Hnum|].
  replace (1 + - Rpower 0.15 2) with (1 - Rpower 0.15 2) by lra. nra.
Qed.

Lemma L_real_pos (Ec h k : R) : 0 < L_real Ec h k.
Proof. unfold L_real, Rpower. apply exp_pos. Qed.

(** The fourth power of the radius of relative stiffness. *)
Definition stiffness_ratio (Ec h k : R) : R :=
  Ec * (h * h * h) * 1000 / (11.73 * k).

Lemma L_real_ratio (Ec h k : R) :
  0 < h -> L_real Ec h k = Rpower (stiffness_ratio Ec h k) 0.25.
Proof.
  intros Hh. unfold L_real, stiffness_ratio.
  now rewrite Rpower_3, plate_constant_value.
Qed.

Lemma stiffness_ratio_pos (Ec h k : R) :
  0 < Ec -> 0 < h -> 0 < k -> 0 < stiffness_ratio Ec h k.
Proof.
  intros HE Hh Hk. unfold stiffness_ratio.
  assert (0 < h * h * h) by (repeat apply Rmult_lt_0_compat; lra).
  apply Rdiv_lt_0_compat; nra.
Qed.

Lemma Rpower_quarter (a : R) : 0 < a -> Rpower (a * a * a * a) 0.25 = a.
Proof.
  intros Ha. replace (a * a * a * a) with (Rpower a 4).
  - rewrite Rpower_mult. replace (4 * 0.25) with 1 by lra. now apply Rpower_1.
  - replace 4 with (INR 4) by (simpl; lra). rewrite Rpower_pow by exact Ha. ring.
Qed.

(** Bounds of the radius of relative stiffness by fourth powers. *)
Lemma L_real_lower (Ec h k a : R) :
  0 < h -> 0 < a -> a * a * a * a <= stiffness_ratio Ec h k -> a <= L_real Ec h k.
Proof.
  intros Hh Ha H. rewrite L_real_ratio by exact Hh.
  rewrite <- (Rpower_quarter a Ha) at 1.
  apply Rle_Rpower_l; [lra|]. split; [|exact H].
  repeat apply Rmult_lt_0_compat; lra.
Qed.

Lemma L_real_upper (Ec h k a : R) :
  0 < Ec -> 0 < h -> 0 < k -> 0 < a ->
  stiffness_ratio Ec h k <= a * a * a * a -> L_real Ec h k <= a.
Proof.
  intros HE Hh Hk Ha H. rewrite L_real_ratio by exact Hh.
  rewrite <- (Rpower_quarter a Ha) at 1.
  apply Rle_Rpower_l; [lra|]. split; [|exact H].
  now apply stiffness_ratio_pos.
Qed.


(** The equivalent contact radius of [calculateB]. *)
Definition B_real (r h : R) : R :=
  if Rle_dec (1.72 * h) r then r else sqrt (1.6 * r * r + h * h) - 0.675 * h.

Lemma calculateB_finite (r h : R) :
  0 < r -> 0 < h -> calculateB (Num r) (Num h) = Num (B_real r h).
Proof.
  intros Hr Hh. unfold calculateB, B_real. cbn [nseq]. unfold Reqb.
  destruct (Req_dec_T r 0); [lra|]. destruct (Req_dec_T h 0); [lra|].
  cbn [orb nmul nge nle]. unfold Rleb.
  destruct (Rle_dec (1.72 * h) r); [reflexivity|].
  cbn [nadd Math_sqrt]. unfold Rleb.
  destruct (Rle_dec 0 (1.6 * r * r + h * h)); [reflexivity|nra].
Qed.

Lemma sqrt_lower (x a : R) : 0 <= a -> a * a <= x -> a <= sqrt x.
Proof.
  intros Ha H. rewrite <- (sqrt_square a Ha). now apply sqrt_le_1_alt.
Qed.

Lemma sqrt_upper (x a : R) : 0 <= a -> x <= a * a -> sqrt x <= a.
Proof.
  intros Ha H. rewrite <- (sqrt_square a Ha). now apply sqrt_le_1_alt.
Qed.

(** The equivalent radius is at least 0.325 of the thickness on the
    second branch, and positive on both. *)
Lemma B_real_lower (r h : R) :
  0 < h -> r < 1.72 * h -> 0.325 * h <= B_real r h.
Proof.
  intros Hh Hr. unfold B_real. destruct (Rle_dec (1.72 * h) r); [lra|].
  assert (h <= sqrt (1.6 * r * r + h * h)) by (apply sqrt_lower; nra). lra.
Qed.

Lemma B_real_pos (r h : R) : 0 < r -> 0 < h -> 0 < B_real r h.
Proof.
  intros Hr Hh. destruct (Rle_dec (1.72 * h) r) as [Hb|Hb].
  - unfold B_real. destruct (Rle_dec (1.72 * h) r); [lra|contradiction].
  - pose proof (B_real_lower r h Hh). lra.
Qed.

(** A stress that is not positive is replaced by zero. *)
Definition positive_part (s : R) : R := if Rlt_dec 0 s then s else 0.

Lemma clamp_finite (s : R) :
  (if (Num s >? Num 0)%js then Num s else Num 0) = Num (positive_part s).
Proof.
  unfold positive_part. cbn [ngt nlt]. unfold Rltb.
  now destruct (Rlt_dec 0 s).
Qed.

Lemma guard_finite (h l b : R) :
  0 < h -> 0 < l -> 0 < b ->
  ((Num h <=? Num 0)%js || (Num l <=? Num 0)%js || (Num b <=? Num 0)%js)%bool = false.
Proof.
  intros Hh Hl Hb. cbn [nle].
  now rewrite (proj2 (Rleb_false h 0)), (proj2 (Rleb_false l 0)),
    (proj2 (Rleb_false b 0)) by lra.
Qed.

Lemma ndiv_finite (x y : R) : y <> 0 -> (Num x / Num y)%js = Num (x / y).
Proof. intros H. cbn [ndiv]. now rewrite (proj2 (Reqb_false y 0) H). Qed.

Lemma Math_log_finite (x : R) : 0 < x -> Math_log (Num x) = Num (ln x).
Proof. intros H. unfold Math_log. now rewrite (proj2 (Rltb_true 0 x) H). Qed.

(** The factor of a joint with load transfer. *)
Definition joint_factor (jointType : string) (reduced : R) : R :=
  if String.eqb jointType "No Load Transfer" then 1 else reduced.

Definition interior_real (P h l b : R) : R :=
  0.275 * (1 + 0.15) * (P * 9810) / (h * h) * ln (l / b).

Definition edge_real (P h l b : R) (jointType : string) : R :=
  0.529 * (1 + 0.54 * 0.15) * (P * 9810) / (h * h) * ln (l / b)
  * joint_factor jointType 0.85.

Definition corner_real (P h l r : R) (jointType : string) : R :=
  3 * (P * 9810) / (h * h) * (1 - Rpower (r * sqrt 2 / l) 0.6)
  * joint_factor jointType 0.7.

Lemma interior_finite (P h l b : R) :
  0 < h -> 0 < l -> 0 < b ->
  calculateSingleInteriorStress (Num P) (Num h) (Num l) (Num b)
  = Num (positive_part (interior_real P h l b)).
Proof.
  intros Hh Hl Hb. unfold calculateSingleInteriorStress.
  rewrite guard_finite by assumption. cbv zeta. unfold POISSON_RATIO.
  rewrite (ndiv_finite l b) by lra.
  rewrite Math_log_finite by (apply Rdiv_lt_0_compat; lra).
  cbn [nmul nadd]. rewrite ndiv_finite by nra. cbn [nmul].
  apply clamp_finite.
Qed.

Lemma edge_finite (P h l b : R) (jointType : string) :
  0 < h -> 0 < l -> 0 < b ->
  calculateSingleEdgeStress (Num P) (Num h) (Num l) (Num b) jointType
  = Num (positive_part (edge_real P h l b jointType)).
Proof.
  intros Hh Hl Hb. unfold calculateSingleEdgeStress.
  rewrite guard_finite by assumption. cbv zeta. unfold POISSON_RATIO.
  rewrite (ndiv_finite l b) by lra.
  rewrite Math_log_finite by (apply Rdiv_lt_0_compat; lra).
  cbn [nmul nadd]. rewrite ndiv_finite by nra. cbn [nmul].
  unfold edge_real, joint_factor.
  destruct (String.eqb jointType "No Load Transfer"); cbn [negb];
    rewrite clamp_finite; apply Num_eq; f_equal; lra.
Qed.

Lemma corner_finite (P h l r : R) (jointType : string) :
  0 < h -> 0 < l -> 0 < r ->
  calculateSingleCornerStress (Num P) (Num h) (Num l) (Num r) jointType
  = Num (positive_part (corner_real P h l r jointType)).
Proof.
  intros Hh Hl Hr. unfold calculateSingleCornerStress.
  rewrite guard_finite by assumption. cbv zeta.
  assert (H2 : 0 < sqrt 2) by (apply sqrt_lt_R0; lra).
  unfold Math_sqrt. rewrite (proj2 (Rleb_true 0 2)) by lra.
  cbn [nmul]. rewrite (ndiv_finite (r * sqrt 2) l) by lra.
  rewrite Math_pow_finite;
    [|apply Rdiv_lt_0_compat; [apply Rmult_lt_0_compat|]; lra|lra].
  cbn [nmul nsub nadd nopp]. rewrite ndiv_finite by nra. cbn [nmul].
  unfold corner_real, joint_factor.
  destruct (String.eqb jointType "No Load Transfer"); cbn [negb];
    rewrite clamp_finite; apply Num_eq; f_equal; lra.
Qed.

End FiniteStress.

(* ================================================================== *)
(** * Stress against thickness                                         *)
(* ================================================================== *)

Section Monotonicity.

Import Rack.
Local Open Scope R_scope.





(** The total factored stress at thickness [h], with the radius of relative
    stiffness that belongs to [h]: what the search evaluates. *)
Definition stress_at
    (loadCase : string) (Ec k P : number) (jointType : string)
    (distances : list Distance) (r_contact h : number) : number :=
  calculateTotalFactoredStress P h (calculateL Ec h k) jointType distances
    loadCase r_contact.

(** The stress of an isolated load before the clamp and the load factor. *)
Definition base_real (loadCase : string) (P h l r : R) (jointType : string) : R :=
  if includes loadCase "edge" then edge_real P h l (B_real (r * sqrt 2) h) jointType
  else if String.eqb loadCase "corner" then corner_real P h l r jointType
  else interior_real P h l (B_real r h).

Lemma sqrt_2_pos : 0 < sqrt 2.
Proof. apply sqrt_lt_R0. lra. Qed.

Lemma total_isolated_finite
    (loadCase : string) (P h l r : R) (jointType : string) :
  0 < h -> 0 < l -> 0 < r ->
  calculateTotalFactoredStress (Num P) (Num h) (Num l) jointType [] loadCase (Num r)
  = Num (positive_part (base_real loadCase P h l r jointType) * 1.5).
Proof.
  intros Hh Hl Hr. pose proof sqrt_2_pos as H2.
  unfold calculateTotalFactoredStress, base_real. cbv zeta. cbn [fold_left].
  unfold Math_sqrt. rewrite (proj2 (Rleb_true 0 2)) by lra. cbn [nmul].
  assert (Hre : 0 < r * sqrt 2) by (apply Rmult_lt_0_compat; lra).
  rewrite !calculateB_finite by assumption.
  rewrite edge_finite, corner_finite, interior_finite
    by (try apply B_real_pos; assumption).
  unfold LOAD_FACTOR.
  destruct (includes loadCase "edge"); [reflexivity|].
  destruct (String.eqb loadCase "corner"); reflexivity.
Qed.

Lemma stress_at_isolated
    (loadCase : string) (P Ec k r h : R) (jointType : string) :
  0 < Ec -> 0 < k -> 0 < r -> 0 < h ->
  stress_at loadCase (Num Ec) (Num k) (Num P) jointType [] (Num r) (Num h)
  = Num (positive_part (base_real loadCase P h (L_real Ec h k) r jointType) * 1.5).
Proof.
  intros HE Hk Hr Hh. unfold stress_at.
  rewrite calculateL_finite by assumption.
  apply total_isolated_finite; [assumption|apply L_real_pos|assumption].
Qed.



(** The two thicknesses lie on the same branch of [calculateB]. *)
Definition same_branch (r h1 h2 : R) : Prop := 1.72 * h2 <= r \/ r < 1.72 * h1.





(** The regime in which the formulas decrease: the slab is stiff against
    the loaded area at the smaller thickness. *)
Definition well_supported (loadCase : string) (Ec k r h1 h2 : R) : Prop :=
  if includes loadCase "edge" then
    same_branch (r * sqrt 2) h1 h2
    /\ 1.42 <= ln (L_real Ec h1 k / B_real (r * sqrt 2) h1)
  else if String.eqb loadCase "corner" then
    Rpower (r * sqrt 2 / L_real Ec h1 k) 0.6 <= 40 / 49
  else
    same_branch r h1 h2 /\ 1.42 <= ln (L_real Ec h1 k / B_real r h1).



(** The logarithm of a ratio, from bounds of its two terms. *)
Lemma ln_ratio_lower (l b lo hi : R) :
  0 < lo <= l -> 0 < b <= hi -> ln (lo / hi) <= ln (l / b).
Proof.
  intros [Hlo Hl] [Hb Hhi]. apply ln_le; [apply Rdiv_lt_0_compat; lra|].
  apply Rmult_le_reg_r with (hi * b); [apply Rmult_lt_0_compat; lra|].
  replace (lo / hi * (hi * b)) with (lo * b) by (field; lra).
  replace (l / b * (hi * b)) with (l * hi) by (field; lra).
  nra.
Qed.

Lemma ln_ratio_upper (l b hi lo : R) :
  0 < l <= hi -> 0 < lo <= b -> ln (l / b) <= ln (hi / lo).
Proof.
  intros [Hl Hhi] [Hlo Hb]. apply ln_le; [apply Rdiv_lt_0_compat; lra|].
  apply Rmult_le_reg_r with (lo * b); [apply Rmult_lt_0_compat; lra|].
  replace (l / b * (lo * b)) with (l * lo) by (field; lra).
  replace (hi / lo * (lo * b)) with (hi * b) by (field; lra).
  nra.
Qed.

(** A 6 t leg on a 70 mm contact radius, concrete of 30000 MPa on a
    subgrade of 54 MN/m3, at 100 mm: the slab is stiff against the loaded
    area in the three load cases. *)
Lemma L_real_100 : 460 <= L_real 30000 100 54.
Proof.
  apply L_real_lower; [lra|lra|]. unfold stiffness_ratio.
  replace (11.73 * 54) with 633.42 by lra. lra.
Qed.


Lemma well_supported_interior : well_supported "interior" 30000 54 70 100 125.
Proof.
  change (same_branch 70 100 125
          /\ 1.42 <= ln (L_real 30000 100 54 / B_real 70 100)).
  split; [right; lra|]. pose proof L_real_100 as HL.
  assert (HB : B_real 70 100 <= 66.1).
  { unfold B_real. destruct (Rle_dec (1.72 * 100) 70); [lra|].
    assert (sqrt (1.6 * 70 * 70 + 100 * 100) <= 133.6) by (apply sqrt_upper; lra).
    lra. }
  pose proof (B_real_pos 70 100 ltac:(lra) ltac:(lra)) as HB0.
  apply Rle_trans with (ln (460 / 66.1)); [|apply ln_ratio_lower; lra].
  pose proof (ln_lower (460 / 66.1) 1.5 4 ltac:(lra) ltac:(lra)) as H.
  rewrite INR_IZR_INZ in H. simpl in H. lra.
Qed.




(** The fourth power of the radius of relative stiffness for a concrete of
    30000 MPa on a subgrade of 54 MN/m3. *)
Lemma stiffness_ratio_30000_54 (h : R) :
  0 <= h ->
  47361 * (h * h * h) <= stiffness_ratio 30000 h 54 <= 47362 * (h * h * h).
Proof.
  intros Hh. unfold stiffness_ratio.
  assert (0 <= h * h * h) by (repeat apply Rmult_le_pos; lra).
  set (x := h * h * h) in *.
  replace (11.73 * 54) with 633.42 by lra. lra.
Qed.


End Monotonicity.

(* ================================================================== *)
(** * A search that finds no thickness                                 *)
(* ================================================================== *)

Section ExhaustedSearch.

Import Rack.
Local Open Scope R_scope.




End ExhaustedSearch.

(* ================================================================== *)
(** * Neighbours and thickness                                         *)
(* ================================================================== *)

Section Neighbours.

Import Rack.
Local Open Scope R_scope.

Definition tangential_rows : list (R * R) :=
  [(0, 100); (0.5, 80); (1, 55); (1.5, 35); (2, 20); (3, 8); (4, 2); (5, 0); (6, 0)].

(** Between the ratios 4 and 5 the tangential influence falls from 2 % to
    nothing. *)
Lemma tangential_between_4_and_5 (x : R) :
  4 <= x <= 5 ->
  interpolate interiorTangentialPoints (Num x) = Some (Num (10 - 2 * x)).
Proof.
  intros Hx.
  change interiorTangentialPoints with (finite_table tangential_rows).
  destruct (interpolate_finite tangential_rows 0 100 6 0) as (_ & _ & Hmid);
    [simpl; lra|reflexivity|reflexivity|lra|].
  rewrite (Hmid 6%nat x 4 2 5 0); [|reflexivity|reflexivity|exact Hx].
  f_equal. apply Num_eq. unfold line. field.
Qed.

(** What a neighbour of the interior type adds, at a distance between four
    and five radii of relative stiffness. *)
Lemma interior_neighbour_contribution (s d l : R) :
  0 < l -> 4 <= d / l <= 5 ->
  getStressContribution (Num d / Num l)%js (Num s) "interior-tangential"
  = Num (s * (10 - 2 * (d / l)) / 100).
Proof.
  intros Hl Hx. rewrite ndiv_finite by lra.
  unfold getStressContribution. cbn [String.eqb Ascii.eqb Bool.eqb].
  rewrite (tangential_between_4_and_5 (d / l) Hx).
  cbn [nmul]. now rewrite ndiv_finite by lra.
Qed.

(** A number [n] of equal neighbours of the interior type around an
    interior load. *)
Definition crowd (d : R) (n : nat) : list Distance :=
  repeat (mkDistance (Num d) "interior") n.

Lemma total_interior_crowd (P h l r d : R) (jointType : string) (n : nat) :
  0 < h -> 0 < l -> 0 < r -> 0 < d -> 4 <= d / l <= 5 ->
  calculateTotalFactoredStress (Num P) (Num h) (Num l) jointType (crowd d n)
    "interior" (Num r)
  = Num ((positive_part (interior_real P h l (B_real r h))
          + INR n * (positive_part (interior_real P h l (B_real r h))
                     * (10 - 2 * (d / l)) / 100)) * 1.5).
Proof.
  intros Hh Hl Hr Hd Hx.
  unfold calculateTotalFactoredStress. cbv zeta.
  change (includes "interior" "edge") with false.
  change (String.eqb "interior" "corner") with false. cbv iota.
  rewrite calculateB_finite by assumption.
  rewrite interior_finite by (try apply B_real_pos; assumption).
  set (s := positive_part (interior_real P h l (B_real r h))).
  set (c := s * (10 - 2 * (d / l)) / 100).
  assert (Hfold : forall a,
    fold_left
      (fun total d0 =>
         if (dist d0 >? Num 0)%js then
           let distOverL := (dist d0 / Num l)%js in
           let '(adjacentStress, stressType) :=
             if String.eqb (type d0) "interior" then
               (Num s, "interior-tangential"%string)
             else if includes (type d0) "edge" then
               (calculateSingleEdgeStress (Num P) (Num h) (Num l)
                  (calculateB (Num r * Math_sqrt (Num 2))%js (Num h)) jointType,
                "edge-radial"%string)
             else (Num 0, ""%string) in
           (total + getStressContribution distOverL adjacentStress stressType)%js
         else total) (crowd d n) (Num a) = Num (a + INR n * c)).
  { unfold crowd. induction n as [|n IH]; intros a.
    - cbn [repeat fold_left]. apply Num_eq. simpl. ring.
    - cbn [repeat fold_left dist type]. cbn [ngt nlt].
      rewrite (proj2 (Rltb_true 0 d) Hd).
      change (String.eqb "interior" "interior") with true. cbv iota zeta.
      rewrite (interior_neighbour_contribution s d l Hl Hx). fold c.
      cbn [nadd]. rewrite IH. apply Num_eq. rewrite S_INR. ring. }
  rewrite Hfold. reflexivity.
Qed.

Lemma div_bounds (d l lo hi : R) :
  0 <= d -> 0 < lo <= l -> l <= hi -> d / hi <= d / l <= d / lo.
Proof.
  intros Hd [Hlo Hl] Hhi. unfold Rdiv. split; apply Rmult_le_compat_l; try exact Hd;
    apply Rinv_le_contravar; lra.
Qed.

Lemma L_real_100_bounds : 466 <= L_real 30000 100 54 <= 467.
Proof.
  pose proof (stiffness_ratio_30000_54 100 ltac:(lra)).
  split; [apply L_real_lower|apply L_real_upper]; lra.
Qed.

Lemma L_real_125_bounds : 551 <= L_real 30000 125 54 <= 552.
Proof.
  pose proof (stiffness_ratio_30000_54 125 ltac:(lra)).
  split; [apply L_real_lower|apply L_real_upper]; lra.
Qed.

Lemma B_real_70_100_bounds : 66 <= B_real 70 100 <= 66.1.
Proof.
  unfold B_real. destruct (Rle_dec (1.72 * 100) 70); [lra|].
  assert (133.5 <= sqrt (1.6 * 70 * 70 + 100 * 100)) by (apply sqrt_lower; lra).
  assert (sqrt (1.6 * 70 * 70 + 100 * 100) <= 133.6) by (apply sqrt_upper; lra).
  lra.
Qed.

Lemma B_real_70_125_bounds : 68.725 <= B_real 70 125 <= 68.825.
Proof.
  unfold B_real. destruct (Rle_dec (1.72 * 125) 70); [lra|].
  assert (153.1 <= sqrt (1.6 * 70 * 70 + 125 * 125)) by (apply sqrt_lower; lra).
  assert (sqrt (1.6 * 70 * 70 + 125 * 125) <= 153.2) by (apply sqrt_upper; lra).
  lra.
Qed.

(** The interior stress of the 6 t leg before the clamp, at 100 and at
    125 mm. *)
Lemma interior_real_100_bounds :
  0 < interior_real 6 100 (L_real 30000 100 54) (B_real 70 100) <= 3.84.
Proof.
  pose proof L_real_100_bounds as [L1 L2]. pose proof B_real_70_100_bounds as [B1 B2].
  assert (Hlo : 1.42 <= ln (L_real 30000 100 54 / B_real 70 100)).
  { pose proof well_supported_interior as H.
    change (same_branch 70 100 125
            /\ 1.42 <= ln (L_real 30000 100 54 / B_real 70 100)) in H. tauto. }
  assert (Hhi : ln (L_real 30000 100 54 / B_real 70 100) <= 2.06).
  { apply Rle_trans with (ln (467 / 66)); [apply ln_ratio_upper; lra|].
    pose proof (ln_upper (467 / 66) 1.1 20 ltac:(lra) ltac:(lra)) as H.
    rewrite INR_IZR_INZ in H. simpl in H. lra. }
  unfold interior_real.
  replace (0.275 * (1 + 0.15) * (6 * 9810) / (100 * 100)) with 1.8614475 by lra.
  lra.
Qed.

Lemma interior_real_125_lower :
  2.358 <= interior_real 6 125 (L_real 30000 125 54) (B_real 70 125).
Proof.
  pose proof L_real_125_bounds as [L1 L2]. pose proof B_real_70_125_bounds as [B1 B2].
  assert (Hlo : 1.98 <= ln (L_real 30000 125 54 / B_real 70 125)).
  { apply Rle_trans with (ln (551 / 68.825)); [|apply ln_ratio_lower; lra].
    pose proof (ln_lower (551 / 68.825) 1.1 21 ltac:(lra) ltac:(lra)) as H.
    rewrite INR_IZR_INZ in H. simpl in H. lra. }
  unfold interior_real.
  replace (0.275 * (1 + 0.15) * (6 * 9810) / (125 * 125)) with 1.1913264 by lra.
  lra.
Qed.

(** Neighbours can turn the order round, also where the slab is stiff
    against the loaded area: with a hundred equal neighbours of the
    interior type at 2210 mm the total factored stress at 125 mm is above
    the one at 100 mm, because the influence of each neighbour grows with
    the radius of relative stiffness. *)
Lemma crowded_neighbours_counterexample :
  (stress_at "interior" (Num 30000) (Num 54) (Num 6) "Dowel Joints"
     (crowd 2210 100) (Num 70) (Num 100)
   <? stress_at "interior" (Num 30000) (Num 54) (Num 6) "Dowel Joints"
        (crowd 2210 100) (Num 70) (Num 125))%js
  = true.
Proof.
  pose proof L_real_100_bounds as [L1 L1'].
  pose proof L_real_125_bounds as [L2 L2'].
  pose proof (div_bounds 2210 (L_real 30000 100 54) 466 467 ltac:(lra)
                ltac:(lra) L1') as [X1 X1'].
  pose proof (div_bounds 2210 (L_real 30000 125 54) 551 552 ltac:(lra)
                ltac:(lra) L2') as [X2 X2'].
  unfold stress_at. rewrite !calculateL_finite by lra.
  rewrite !total_interior_crowd by lra.
  cbn [nlt]. apply Rltb_true. rewrite INR_IZR_INZ. simpl IZR.
  pose proof interior_real_100_bounds as [S1 S1'].
  pose proof interior_real_125_lower as S2.
  set (s1 := interior_real 6 100 (L_real 30000 100 54) (B_real 70 100)) in *.
  set (s2 := interior_real 6 125 (L_real 30000 125 54) (B_real 70 125)) in *.
  set (x1 := 2210 / L_real 30000 100 54) in *.
  set (x2 := 2210 / L_real 30000 125 54) in *.
  assert (P1 : positive_part s1 = s1)
    by (unfold positive_part; destruct (Rlt_dec 0 s1); [reflexivity|lra]).
  assert (P2 : positive_part s2 = s2)
    by (unfold positive_part; destruct (Rlt_dec 0 s2); [reflexivity|lra]).
  rewrite P1, P2.
  replace ((s1 + 100 * (s1 * (10 - 2 * x1) / 100)) * 1.5)
    with (s1 * (11 - 2 * x1) * 1.5) by lra.
  replace ((s2 + 100 * (s2 * (10 - 2 * x2) / 100)) * 1.5)
    with (s2 * (11 - 2 * x2) * 1.5) by lra.
  assert (T1 : 0 <= 11 - 2 * x1 <= 1.536) by lra.
  assert (T2 : 2.978 <= 11 - 2 * x2) by lra.
  assert (A1 : s1 * (11 - 2 * x1) <= 3.84 * 1.536)
    by (apply Rmult_le_compat; lra).
  assert (A2 : 2.358 * 2.978 <= s2 * (11 - 2 * x2))
    by (apply Rmult_le_compat; lra).
  lra.
Qed.

End Neighbours.

(* ================================================================== *)
(** * A second-order bound of the logarithm                            *)
(* ================================================================== *)

Section Logarithm.

Local Open Scope R_scope.





End Logarithm.

(* ================================================================== *)
(** * The modulus of subgrade reaction from CBR and Scala              *)
(* ================================================================== *)

Section Subgrade.

Import Rack.
Local Open Scope R_scope.

(** [calculateKFromCBR] on a positive CBR. *)
Definition K_real (cbr : R) : R :=
  if Rlt_dec cbr 30 then 22.5 * ln cbr + 1.4305 else 109.2 * ln cbr - 293.32.

Lemma calculateKFromCBR_finite (cbr : R) :
  0 < cbr -> calculateKFromCBR (Num cbr) = Num (K_real cbr).
Proof.
  intros Hc. unfold calculateKFromCBR, K_real.
  cbn [nle nlt]. unfold Rleb, Rltb.
  destruct (Rle_dec cbr 0); [lra|].
  rewrite Math_log_finite by assumption.
  destruct (Rlt_dec cbr 30); cbn; apply Num_eq; ring.
Qed.




(** X2.  A CBR above 0 and up to 0.93 gives a negative modulus of subgrade
    reaction. *)
Theorem calculateKFromCBR_negative (cbr : R) :
  0 < cbr <= 0.93 ->
  exists k, calculateKFromCBR (Num cbr) = Num k /\ k < 0.
Proof.
  intros Hc. exists (K_real cbr).
  rewrite calculateKFromCBR_finite by lra.
  split; [reflexivity|].
  unfold K_real. destruct (Rlt_dec cbr 30); [|lra].
  pose proof (ln_le_minus_1 cbr ltac:(lra)). lra.
Qed.

Lemma calculateKFromCBR_negative_witness :
  exists k, calculateKFromCBR (Num 0.5) = Num k /\ k < 0.
Proof.
  apply (calculateKFromCBR_negative 0.5); lra.
Defined.





End Subgrade.

(* ================================================================== *)
(** * Elastic modulus, relative stiffness, allowable stress            *)
(* ================================================================== *)

Section Concrete.

Import Rack.
Local Open Scope R_scope.







Lemma getK2_range (s : string) : exists v, getK2 s = Num v /\ 0.75 <= v <= 1.
Proof.
  destruct (parseFloat s) as [| | |r] eqn:E.
  - exists 1. rewrite (getK2_not_a_number s E). split; [reflexivity|lra].
  - exists 0.77. destruct (getK2_infinite s) as [H _]. rewrite (H E).
    split; [reflexivity|lra].
  - exists 1. destruct (getK2_infinite s) as [_ H]. rewrite (H E).
    split; [reflexivity|lra].
  - exists (k2_rack r). rewrite (getK2_finite s r E).
    split; [reflexivity|apply k2_rack_bounds].
Qed.

Lemma getK1_range (days : number) : exists v, getK1 days = Num v /\ 1 <= v <= 1.1.
Proof.
  unfold getK1. destruct (days >=? Num 90)%js.
  - exists 1.1. split; [reflexivity|lra].
  - exists 1.0. split; [reflexivity|lra].
Qed.

(** X6.  For a positive compressive strength and a post-tension stress that
    reads as the number [p], the allowable stress is a finite number between
    [0.342 fc^0.66 + p] and [0.5016 fc^0.66 + p], whatever the age and the
    number of load cycles. *)
Theorem calculateAllowableStress_bounds
    (fc p : R) (days : number) (repetitions : string) (postTensionStress : value) :
  0 < fc -> parseFloat_value postTensionStress = Num p ->
  exists fr,
    calculateAllowableStress (Num fc) days repetitions postTensionStress = Num fr
    /\ 0.342 * Rpower fc 0.66 + p <= fr <= 0.5016 * Rpower fc 0.66 + p.
Proof.
  intros Hfc Hp. unfold calculateAllowableStress.
  cbn [truthy nle]. unfold Reqb, Rleb.
  destruct (Req_dec_T fc 0); [lra|]. destruct (Rle_dec fc 0); [lra|].
  cbn [negb orb]. cbv zeta.
  destruct (getK1_range days) as (k1 & -> & Hk1).
  destruct (getK2_range repetitions) as (k2 & -> & Hk2).
  rewrite Math_pow_finite by lra. rewrite Hp.
  exists (0.456 * k1 * k2 * Rpower fc 0.66 + p).
  split; [reflexivity|].
  assert (Hf : 0 < Rpower fc 0.66) by apply exp_pos.
  assert (0.75 <= k1 * k2 <= 1.1) by nra.
  nra.
Qed.

Lemma calculateAllowableStress_bounds_witness :
  exists fr,
    calculateAllowableStress (Num 35) (Num 90) "10000" (VNum (Num 0.5)) = Num fr
    /\ 0.342 * Rpower 35 0.66 + 0.5 <= fr <= 0.5016 * Rpower 35 0.66 + 0.5.
Proof.
  apply (calculateAllowableStress_bounds 35 0.5); [lra|reflexivity].
Defined.

End Concrete.

(* ================================================================== *)
(** * Comparing two thickness searches                                 *)
(* ================================================================== *)

Section SearchOrder.

Import Rack.
Local Open Scope Z_scope.

Lemma nle_trans (a b c : number) :
  (a <=? b)%js = true -> (b <=? c)%js = true -> (a <=? c)%js = true.
Proof.
  destruct a, b, c; cbn; try congruence.
  rewrite !Rleb_true. intros; lra.
Qed.

Lemma found_inj (h1 h2 : Z) (s1 s2 : number) :
  found h1 s1 = found h2 s2 -> h1 = h2 /\ s1 = s2.
Proof.
  unfold found. intros H. injection H as Hh Hs.
  split; [now apply eq_IZR|exact Hs].
Qed.

Lemma findMinThickness_first_trial
    (loadCase : string) (allowableStress Ec k P : number) (jointType : string)
    (distances : list Distance) (r_contact : number) :
  (factoredStressAt loadCase Ec k P jointType distances r_contact 100
   <=? allowableStress)%js = true ->
  findMinThickness loadCase allowableStress Ec k P jointType distances r_contact
  = Some (found 100 (factoredStressAt loadCase Ec k P jointType distances r_contact 100)).
Proof.
  intros H. unfold findMinThickness. cbn [findMinThickness_while].
  change (100 <=? 800) with true. cbv iota zeta.
  now rewrite H.
Qed.

(** A search whose trials are adequate wherever the trials of another one
    are stops no later than the other. *)
Lemma search_dominates
    (loadCase1 loadCase2 : string) (A1 A2 Ec1 Ec2 k1 k2 P1 P2 : number)
    (jointType1 jointType2 : string) (distances1 distances2 : list Distance)
    (r1 r2 : number) :
  (forall h, 100 <= h <= 800 ->
     (factoredStressAt loadCase1 Ec1 k1 P1 jointType1 distances1 r1 h <=? A1)%js = true ->
     (factoredStressAt loadCase2 Ec2 k2 P2 jointType2 distances2 r2 h <=? A2)%js = true) ->
  forall h1 s1,
    findMinThickness loadCase1 A1 Ec1 k1 P1 jointType1 distances1 r1
    = Some (found h1 s1) ->
    exists h2,
      findMinThickness loadCase2 A2 Ec2 k2 P2 jointType2 distances2 r2
      = Some (found h2 (factoredStressAt loadCase2 Ec2 k2 P2 jointType2 distances2 r2 h2))
      /\ 100 <= h2 <= h1.
Proof.
  intros Hdom h1 s1 H1.
  destruct (findMinThickness_outcome loadCase1 A1 Ec1 k1 P1 jointType1 distances1 r1)
    as (res1 & Hres1 & Hout1).
  rewrite H1 in Hres1. injection Hres1 as <-.
  destruct Hout1 as [(h & Hh & Ha & _ & Hf)|[_ Hf]]; [|discriminate Hf].
  apply found_inj in Hf as [-> _].
  destruct (findMinThickness_outcome loadCase2 A2 Ec2 k2 P2 jointType2 distances2 r2)
    as (res2 & Hres2 & Hout2).
  destruct Hout2 as [(h2 & Hh2 & Ha2 & Hmin & ->)|[Hnone _]].
  - exists h2. split; [exact Hres2|]. split; [lia|].
    destruct (Z_le_gt_dec h2 h) as [Hle|Hgt]; [exact Hle|].
    specialize (Hdom h Hh Ha). rewrite (Hmin h) in Hdom by lia. discriminate.
  - specialize (Hdom h Hh Ha). rewrite (Hnone h Hh) in Hdom. discriminate.
Qed.

(** A footing of the default size under 6 t on a 100 mm slab, with no
    neighbour: the factored interior stress is at most 5.76 MPa, so that an
    allowable stress of 6 MPa accepts the first trial. *)
Lemma typical_first_stress :
  exists s,
    factoredStressAt "interior" (Num 30000) (Num 54) (Num 6) "Dowel Joints" []
      (Num 70) 100 = Num s
    /\ (0 < s <= 5.76)%R.
Proof.
  change (factoredStressAt "interior" (Num 30000) (Num 54) (Num 6) "Dowel Joints" []
            (Num 70) 100)
    with (stress_at "interior" (Num 30000) (Num 54) (Num 6) "Dowel Joints" []
            (Num 70) (Num 100)).
  rewrite stress_at_isolated by lra.
  change (base_real "interior" 6 100 (L_real 30000 100 54) 70 "Dowel Joints")
    with (interior_real 6 100 (L_real 30000 100 54) (B_real 70 100)).
  pose proof interior_real_100_bounds as [Hlo Hhi].
  eexists. split; [reflexivity|].
  unfold positive_part.
  destruct (Rlt_dec 0 (interior_real 6 100 (L_real 30000 100 54) (B_real 70 100)));
    lra.
Qed.

Lemma typical_first_trial :
  findMinThickness "interior" (Num 6) (Num 30000) (Num 54) (Num 6) "Dowel Joints"
    [] (Num 70)
  = Some (found 100
            (factoredStressAt "interior" (Num 30000) (Num 54) (Num 6) "Dowel Joints" []
               (Num 70) 100)).
Proof.
  apply findMinThickness_first_trial.
  destruct typical_first_stress as (s & -> & Hs).
  cbn. apply Rleb_true. lra.
Qed.

(** X7.  Raising the allowable stress never raises the thickness the search
    returns: where the search finds a thickness under one allowable stress,
    it finds one that is no larger under any allowable stress that is at
    least as high. *)
Theorem findMinThickness_allowable_monotone
    (loadCase : string) (A1 A2 Ec k P : number) (jointType : string)
    (distances : list Distance) (r_contact : number) (h1 : Z) (s1 : number) :
  (A1 <=? A2)%js = true ->
  findMinThickness loadCase A1 Ec k P jointType distances r_contact
  = Some (found h1 s1) ->
  exists h2 s2,
    findMinThickness loadCase A2 Ec k P jointType distances r_contact
    = Some (found h2 s2)
    /\ 100 <= h2 <= h1.
Proof.
  intros HA H1.
  destruct (search_dominates loadCase loadCase A1 A2 Ec Ec k k P P jointType jointType
              distances distances r_contact r_contact) with (h1 := h1) (s1 := s1)
    as (h2 & H2 & Hle).
  - intros h _ Ha. exact (nle_trans _ _ _ Ha HA).
  - exact H1.
  - exists h2. eexists. split; [exact H2|exact Hle].
Qed.

Lemma findMinThickness_allowable_monotone_witness :
  exists h2 s2,
    findMinThickness "interior" (Num 7) (Num 30000) (Num 54) (Num 6) "Dowel Joints"
      [] (Num 70)
    = Some (found h2 s2)
    /\ 100 <= h2 <= 100.
Proof.
  apply (findMinThickness_allowable_monotone "interior" (Num 6) (Num 7) (Num 30000)
           (Num 54) (Num 6) "Dowel Joints" [] (Num 70) 100
           (factoredStressAt "interior" (Num 30000) (Num 54) (Num 6) "Dowel Joints" []
              (Num 70) 100)).
  - cbn. apply Rleb_true. lra.
  - apply typical_first_trial.
Defined.

End SearchOrder.

(* ================================================================== *)
(** * Contact radius and equivalent radius                             *)
(* ================================================================== *)

Section Geometry.

Import Rack.
Local Open Scope R_scope.

Lemma Math_sqrt_finite (x : R) : 0 <= x -> Math_sqrt (Num x) = Num (sqrt x).
Proof.
  intros Hx. cbn. unfold Rleb. destruct (Rle_dec 0 x); [reflexivity|lra].
Qed.

(** X8.  For every shape other than ['circular'] (so also for ['square'])
    the contact radius is that of the circle whose area is [dim1 * dim2]. *)
Theorem calculateRForPointLoad_area (shape : string) (dim1 dim2 : R) :
  String.eqb shape "circular" = false -> 0 <= dim1 * dim2 ->
  exists r,
    calculateRForPointLoad shape (Num dim1) (Num dim2) = Num r
    /\ 0 <= r
    /\ PI * (r * r) = dim1 * dim2.
Proof.
  intros Hs Ha. unfold calculateRForPointLoad. rewrite Hs.
  pose proof PI_RGT_0 as Hpi.
  assert (Hq : 0 <= dim1 * dim2 / PI).
  { apply Rmult_le_pos; [lra|]. apply Rlt_le, Rinv_0_lt_compat, Hpi. }
  unfold Math_PI. cbn [nmul]. rewrite ndiv_finite by lra.
  rewrite Math_sqrt_finite by exact Hq.
  exists (sqrt (dim1 * dim2 / PI)).
  split; [reflexivity|]. split; [apply sqrt_pos|].
  rewrite sqrt_sqrt by exact Hq. field. lra.
Qed.

Lemma calculateRForPointLoad_area_witness :
  exists r,
    calculateRForPointLoad "square" (Num 300) (Num 125) = Num r
    /\ 0 <= r
    /\ PI * (r * r) = 300 * 125.
Proof.
  apply (calculateRForPointLoad_area "square" 300 125); [reflexivity|lra].
Defined.




End Geometry.

(* ================================================================== *)
(** * The range of the influence curves                                *)
(* ================================================================== *)

Section Influence.

Import Rack.
Local Open Scope R_scope.

Lemma line_between (x1 y1 x2 y2 x lo hi : R) :
  x1 < x2 -> x1 <= x <= x2 -> lo <= y1 <= hi -> lo <= y2 <= hi ->
  lo <= line x1 y1 x2 y2 x <= hi.
Proof.
  intros Hx Hin H1 H2. unfold line.
  set (t := (x - x1) / (x2 - x1)).
  assert (Ht : 0 <= t <= 1).
  { unfold t. split.
    - apply Rmult_le_pos; [lra|]. apply Rlt_le, Rinv_0_lt_compat. lra.
    - apply Rmult_le_reg_r with (x2 - x1); [lra|].
      unfold Rdiv. rewrite Rmult_assoc, Rinv_l by lra. lra. }
  replace (y1 + (y2 - y1) * (x - x1) / (x2 - x1)) with (y1 + (y2 - y1) * t)
    by (unfold t; field; lra).
  nra.
Qed.

Lemma interpolate_loop_within (lo hi : R) (rows : list (R * R)) :
  increasing (map fst rows) ->
  Forall (fun p => lo <= snd p <= hi) rows ->
  forall x,
    interpolate_loop (finite_table rows) x = None
    \/ exists v, interpolate_loop (finite_table rows) x = Some (Num v) /\ lo <= v <= hi.
Proof.
  induction rows as [|[x1 y1] rows IH]; intros Hinc Hall x; [now left|].
  destruct rows as [|[x2 y2] rest]; [now left|].
  change (finite_table ((x1, y1) :: (x2, y2) :: rest))
    with (pt x1 y1 :: pt x2 y2 :: finite_table rest).
  rewrite interpolate_loop_cons.
  change (pt x2 y2 :: finite_table rest) with (finite_table ((x2, y2) :: rest)).
  destruct Hinc as [H12 Hinc].
  inversion Hall as [|? ? Hy1 Hall']; subst.
  inversion Hall' as [|? ? Hy2 _]; subst.
  cbn [fst snd] in *.
  destruct ((x >=? fst (pt x1 y1)) && (x <=? fst (pt x2 y2)))%js eqn:Hc.
  - right. apply andb_true_iff in Hc as [Ha Hb].
    unfold pt in *. cbn [fst snd] in *.
    destruct x as [| | |xr]; try discriminate.
    cbn in Ha, Hb. apply Rleb_true in Ha, Hb.
    rewrite line_step by exact H12.
    eexists. split; [reflexivity|].
    apply line_between; try assumption; lra.
  - apply IH; assumption.
Qed.

(** On a table of finite rows with increasing abscissas, [interpolate]
    returns a value between the least and the greatest ordinate, whatever
    its argument is. *)
Lemma interpolate_within (lo hi : R) (rows : list (R * R)) :
  rows <> [] ->
  increasing (map fst rows) ->
  Forall (fun p => lo <= snd p <= hi) rows ->
  forall x, exists v, interpolate (finite_table rows) x = Some (Num v) /\ lo <= v <= hi.
Proof.
  intros Hne Hinc Hall x.
  unfold interpolate.
  assert (Hlen : List.length (finite_table rows) = List.length rows)
    by apply length_map.
  rewrite Hlen.
  destruct rows as [|[x0 y0] rest] eqn:Erows; [contradiction|].
  rewrite <- Erows in *.
  assert (H0 : nth_error (finite_table rows) 0 = Some (Num x0, Num y0)).
  { rewrite Erows. reflexivity. }
  rewrite H0.
  destruct (nth_error rows (List.length rows - 1)) as [[xn yn]|] eqn:En.
  2:{ apply nth_error_None in En. rewrite Erows in En. cbn in En. lia. }
  assert (Hn : nth_error (finite_table rows) (List.length rows - 1)
               = Some (Num xn, Num yn)).
  { apply finite_table_nth. exact En. }
  rewrite Hn. cbn [fst snd].
  assert (Hy0 : lo <= y0 <= hi).
  { rewrite Erows in Hall. inversion Hall; subst. assumption. }
  assert (Hyn : lo <= yn <= hi).
  { apply nth_error_In in En.
    rewrite Forall_forall in Hall. exact (Hall _ En). }
  destruct (x <=? Num x0)%js; [exists y0; split; [reflexivity|exact Hy0]|].
  destruct (x >=? Num xn)%js; [exists yn; split; [reflexivity|exact Hyn]|].
  destruct (interpolate_loop_within lo hi rows Hinc Hall x) as [-> | (v & -> & Hv)].
  - exists yn; split; [reflexivity|exact Hyn].
  - exists v; split; [reflexivity|exact Hv].
Qed.

Definition radial_rows : list (R * R) :=
  [(0, 100); (0.5, 60); (1, 25); (1.5, 5); (2, -5); (3, -8); (4, -5); (5, -2); (6, 0)].

Definition edge_rows : list (R * R) :=
  [(0, 100); (0.5, 50); (1, 20); (1.5, 5); (2, -5); (3, -10); (4, -8); (5, -4); (6, 0)].

Ltac table_facts :=
  first
    [ discriminate
    | cbn; repeat split; lra
    | repeat (apply Forall_cons; [cbn; lra|]); apply Forall_nil ].

Lemma radial_range (x : number) :
  exists v, interpolate interiorRadialPoints x = Some (Num v) /\ -8 <= v <= 100.
Proof.
  change interiorRadialPoints with (finite_table radial_rows).
  apply interpolate_within; table_facts.
Qed.

Lemma tangential_range (x : number) :
  exists v, interpolate interiorTangentialPoints x = Some (Num v) /\ 0 <= v <= 100.
Proof.
  change interiorTangentialPoints with (finite_table tangential_rows).
  apply interpolate_within; table_facts.
Qed.

Lemma edge_range (x : number) :
  exists v, interpolate edgeRadialPoints x = Some (Num v) /\ -10 <= v <= 100.
Proof.
  change edgeRadialPoints with (finite_table edge_rows).
  apply interpolate_within; table_facts.
Qed.

(** X10.  Whatever the distance ratio is (also NaN or an infinity), each of
    the three influence curves gives a finite percentage within the range of
    its table: -8 to 100 for the interior radial curve, 0 to 100 for the
    interior tangential curve, -10 to 100 for the edge radial curve. *)
Theorem influence_percentage_range (x : number) :
  (exists v, interpolate interiorRadialPoints x = Some (Num v) /\ -8 <= v <= 100)
  /\ (exists v, interpolate interiorTangentialPoints x = Some (Num v) /\ 0 <= v <= 100)
  /\ (exists v, interpolate edgeRadialPoints x = Some (Num v) /\ -10 <= v <= 100).
Proof.
  split; [apply radial_range|]. split; [apply tangential_range|apply edge_range].
Qed.

Lemma scaled_finite (s v : R) : (Num s * Num v / Num 100)%js = Num (s * v / 100).
Proof.
  cbn [nmul]. apply ndiv_finite. lra.
Qed.



End Influence.

(* ================================================================== *)
(** * Which neighbours count, and how                                  *)
(* ================================================================== *)

Section Superposition.

Import Rack.
Local Open Scope js_scope.

(** The two parts of [calculateTotalFactoredStress]: the stress of the
    load itself, and the step of the loop over the neighbours. *)
Definition base_stress
    (P h l : number) (jointType loadCase : string) (r_contact : number) : number :=
  if includes loadCase "edge" then
    calculateSingleEdgeStress P h l
      (calculateB (r_contact * Math_sqrt (Num 2)) h) jointType
  else if String.eqb loadCase "corner" then
    calculateSingleCornerStress P h l r_contact jointType
  else calculateSingleInteriorStress P h l (calculateB r_contact h).

Definition neighbour_stress
    (P h l : number) (jointType : string) (r_contact : number) (type : string)
    : number * string :=
  if String.eqb type "interior" then
    (calculateSingleInteriorStress P h l (calculateB r_contact h),
     "interior-tangential"%string)
  else if includes type "edge" then
    (calculateSingleEdgeStress P h l
       (calculateB (r_contact * Math_sqrt (Num 2)) h) jointType,
     "edge-radial"%string)
  else (Num 0, EmptyString).

Definition add_neighbour
    (P h l : number) (jointType : string) (r_contact : number)
    (total : number) (d : Distance) : number :=
  if dist d >? Num 0 then
    total
    + getStressContribution (dist d / l)
        (fst (neighbour_stress P h l jointType r_contact (type d)))
        (snd (neighbour_stress P h l jointType r_contact (type d)))
  else total.

Lemma total_as_fold
    (P h l : number) (jointType : string) (distances : list Distance)
    (loadCase : string) (r_contact : number) :
  calculateTotalFactoredStress P h l jointType distances loadCase r_contact
  = fold_left (add_neighbour P h l jointType r_contact) distances
      (base_stress P h l jointType loadCase r_contact)
    * LOAD_FACTOR.
Proof.
  unfold calculateTotalFactoredStress. cbv zeta.
  f_equal. fold (base_stress P h l jointType loadCase r_contact).
  generalize (base_stress P h l jointType loadCase r_contact).
  induction distances as [|d ds IH]; intros b; [reflexivity|].
  cbn [fold_left]. rewrite IH. f_equal.
  unfold add_neighbour, neighbour_stress.
  destruct (dist d >? Num 0); [|reflexivity].
  destruct (String.eqb (type d) "interior"); [reflexivity|].
  destruct (includes (type d) "edge"); reflexivity.
Qed.

Lemma nadd_0_r (a : number) : a + Num 0 = a.
Proof.
  destruct a; cbn; try reflexivity. apply Num_eq. lra.
Qed.

Lemma nadd_NaN_r (a : number) : a + NaN = NaN.
Proof. destruct a; reflexivity. Qed.

(** A neighbour that takes part in the sum: its distance is above zero and
    its type is ['interior'] or holds ['edge']. *)
Definition counted (d : Distance) : bool :=
  (dist d >? Num 0) && (String.eqb (type d) "interior" || includes (type d) "edge").

Lemma add_neighbour_uncounted
    (P h l : number) (jointType : string) (r_contact total : number) (d : Distance) :
  counted d = false -> add_neighbour P h l jointType r_contact total d = total.
Proof.
  unfold counted, add_neighbour, neighbour_stress.
  destruct (dist d >? Num 0); [|reflexivity].
  destruct (String.eqb (type d) "interior"); [discriminate|].
  destruct (includes (type d) "edge"); [discriminate|].
  intros _. cbn [fst snd].
  replace (getStressContribution (dist d / l) (Num 0) EmptyString) with (Num 0)
    by reflexivity.
  apply nadd_0_r.
Qed.

(** X12.  Neighbours whose distance is zero, negative or NaN, and
    neighbours whose type is neither ['interior'] nor contains ['edge'], do
    not change the total stress: the result is that of the list without
    them. *)
Theorem uncounted_neighbours_ignored
    (P h l : number) (jointType : string) (distances : list Distance)
    (loadCase : string) (r_contact : number) :
  calculateTotalFactoredStress P h l jointType distances loadCase r_contact
  = calculateTotalFactoredStress P h l jointType (filter counted distances)
      loadCase r_contact.
Proof.
  rewrite !total_as_fold. f_equal.
  generalize (base_stress P h l jointType loadCase r_contact).
  induction distances as [|d ds IH]; intros b; [reflexivity|].
  cbn [fold_left filter].
  destruct (counted d) eqn:Hd.
  - cbn [fold_left]. apply IH.
  - rewrite add_neighbour_uncounted by exact Hd. apply IH.
Qed.

Local Open Scope R_scope.





(** A number that is not negative: NaN and [+Infinity] count. *)
Definition not_negative (c : number) : Prop :=
  match c with
  | NInf => False
  | Num v => 0 <= v
  | _ => True
  end.

Lemma interior_stress_not_negative (P h l b : number) :
  (Num 0 <=? calculateSingleInteriorStress P h l b)%js = true.
Proof.
  unfold calculateSingleInteriorStress.
  destruct ((h <=? Num 0) || (l <=? Num 0) || (b <=? Num 0))%js.
  - apply nle_refl_Num.
  - cbv zeta. apply clamp_nonneg.
Qed.

Lemma tangential_contribution_not_negative (x adj : number) :
  (Num 0 <=? adj)%js = true ->
  not_negative (getStressContribution x adj "interior-tangential").
Proof.
  intros Hadj. unfold getStressContribution.
  replace (String.eqb "interior-tangential" "interior-radial") with false
    by reflexivity.
  replace (String.eqb "interior-tangential" "interior-tangential") with true
    by reflexivity.
  destruct (tangential_range x) as (v & -> & Hv).
  destruct adj as [| | |s]; try discriminate.
  - cbn [nmul]. unfold scale_inf, Rltb.
    destruct (Rlt_dec 0 v).
    + cbn. unfold Rleb. destruct (Rle_dec 0 100); [exact I|lra].
    + destruct (Rlt_dec v 0); [lra|]. cbn. exact I.
  - cbn in Hadj. apply Rleb_true in Hadj.
    rewrite scaled_finite. cbn.
    apply Rmult_le_pos; [nra|lra].
Qed.

Lemma adequate_without (T c A : number) :
  not_negative c ->
  ((T + c) * LOAD_FACTOR <=? A)%js = true ->
  (T * LOAD_FACTOR <=? A)%js = true.
Proof.
  unfold LOAD_FACTOR.
  destruct T as [| | |t], c as [| | |v], A as [| | |a]; cbn;
    unfold scale_inf, Rltb;
    repeat match goal with
           | |- context [Rlt_dec ?x ?y] => destruct (Rlt_dec x y); try lra
           end;
    cbn; try congruence; try tauto.
  intros Hv. rewrite !Rleb_true. lra.
Qed.

Lemma interior_neighbour_adequacy
    (P h l : number) (jointType : string) (distances : list Distance)
    (loadCase : string) (r_contact d A : number) :
  (calculateTotalFactoredStress P h l jointType
     (distances ++ [mkDistance d "interior"]) loadCase r_contact <=? A)%js = true ->
  (calculateTotalFactoredStress P h l jointType distances loadCase r_contact
   <=? A)%js = true.
Proof.
  rewrite !total_as_fold. rewrite fold_left_app. cbn [fold_left].
  set (total := fold_left _ distances _).
  unfold add_neighbour. cbn [dist Rack.type].
  destruct (d >? Num 0)%js; [|tauto].
  apply adequate_without.
  unfold neighbour_stress.
  replace (String.eqb "interior" "interior") with true by reflexivity.
  cbn [fst snd].
  apply tangential_contribution_not_negative, interior_stress_not_negative.
Qed.

(** X14.  Adding a neighbour of type ['interior'] never relieves the load:
    an allowable stress that covers the total stress with the neighbour also
    covers the total stress without it, for every load case and all
    numbers, NaN and the infinities included. *)
Theorem interior_neighbour_never_relieves
    (P h l : number) (jointType : string) (distances : list Distance)
    (loadCase : string) (r_contact d A : number) :
  (calculateTotalFactoredStress P h l jointType
     (distances ++ [mkDistance d "interior"]) loadCase r_contact <=? A)%js = true ->
  (calculateTotalFactoredStress P h l jointType distances loadCase r_contact
   <=? A)%js = true.
Proof.
  apply interior_neighbour_adequacy.
Qed.

End Superposition.

(* ================================================================== *)
(** * Neighbours and the thickness search                              *)
(* ================================================================== *)

Section NeighbourSearch.

Import Rack.
Local Open Scope R_scope.

(** The 6 t leg on a 100 mm slab with one neighbour of the interior type
    at 2210 mm: the factored stress is at most 6 MPa. *)
Lemma one_neighbour_total :
  exists s,
    calculateTotalFactoredStress (Num 6) (Num 100) (Num (L_real 30000 100 54))
      "Dowel Joints" ([] ++ [mkDistance (Num 2210) "interior"]) "interior" (Num 70)
    = Num s
    /\ 0 < s <= 6.
Proof.
  pose proof L_real_100_bounds as [L1 L1'].
  pose proof (div_bounds 2210 (L_real 30000 100 54) 466 467 ltac:(lra)
                ltac:(lra) L1') as [X1 X1'].
  change ([] ++ [mkDistance (Num 2210) "interior"]) with (crowd 2210 1).
  rewrite total_interior_crowd by lra.
  eexists. split; [reflexivity|].
  pose proof interior_real_100_bounds as [S1 S1'].
  set (s1 := interior_real 6 100 (L_real 30000 100 54) (B_real 70 100)) in *.
  set (x1 := 2210 / L_real 30000 100 54) in *.
  assert (P1 : positive_part s1 = s1)
    by (unfold positive_part; destruct (Rlt_dec 0 s1); [reflexivity|lra]).
  rewrite P1. simpl INR.
  assert (T1 : 0 <= 10 - 2 * x1 <= 0.6) by lra.
  assert (A1 : 0 <= s1 * (10 - 2 * x1) <= 3.84 * 0.6).
  { split; [apply Rmult_le_pos; lra|apply Rmult_le_compat; lra]. }
  lra.
Qed.

Lemma interior_neighbour_never_relieves_witness :
  (calculateTotalFactoredStress (Num 6) (Num 100) (Num (L_real 30000 100 54))
     "Dowel Joints" [] "interior" (Num 70) <=? Num 6)%js = true.
Proof.
  apply (interior_neighbour_never_relieves (Num 6) (Num 100)
           (Num (L_real 30000 100 54)) "Dowel Joints" [] "interior" (Num 70)
           (Num 2210) (Num 6)).
  destruct one_neighbour_total as (s & -> & Hs).
  cbn. apply Rleb_true. lra.
Defined.

Lemma one_neighbour_first_trial :
  findMinThickness "interior" (Num 6) (Num 30000) (Num 54) (Num 6) "Dowel Joints"
    ([] ++ [mkDistance (Num 2210) "interior"]) (Num 70)
  = Some (found 100
            (factoredStressAt "interior" (Num 30000) (Num 54) (Num 6) "Dowel Joints"
               ([] ++ [mkDistance (Num 2210) "interior"]) (Num 70) 100)).
Proof.
  apply findMinThickness_first_trial.
  unfold factoredStressAt. cbv zeta.
  change (IZR 100) with 100.
  rewrite calculateL_finite by lra.
  destruct one_neighbour_total as (s & -> & Hs).
  cbn. apply Rleb_true. lra.
Qed.

Local Open Scope Z_scope.

(** X15.  A further neighbour of type ['interior'] never lowers the
    thickness the search returns: where the search with the neighbour finds
    a thickness, the search without it finds one that is no larger. *)
Theorem interior_neighbour_never_thinner
    (loadCase : string) (A Ec k P : number) (jointType : string)
    (distances : list Distance) (r_contact d : number) (h1 : Z) (s1 : number) :
  findMinThickness loadCase A Ec k P jointType
    (distances ++ [mkDistance d "interior"]) r_contact
  = Some (found h1 s1) ->
  exists h2 s2,
    findMinThickness loadCase A Ec k P jointType distances r_contact
    = Some (found h2 s2)
    /\ 100 <= h2 <= h1.
Proof.
  intros H1.
  destruct (search_dominates loadCase loadCase A A Ec Ec k k P P jointType jointType
              (distances ++ [mkDistance d "interior"]) distances r_contact r_contact)
    with (h1 := h1) (s1 := s1) as (h2 & H2 & Hle).
  - intros h _. unfold factoredStressAt. cbv zeta.
    apply interior_neighbour_adequacy.
  - exact H1.
  - exists h2. eexists. split; [exact H2|exact Hle].
Qed.

Lemma interior_neighbour_never_thinner_witness :
  exists h2 s2,
    findMinThickness "interior" (Num 6) (Num 30000) (Num 54) (Num 6) "Dowel Joints"
      [] (Num 70)
    = Some (found h2 s2)
    /\ 100 <= h2 <= 100.
Proof.
  apply (interior_neighbour_never_thinner "interior" (Num 6) (Num 30000) (Num 54)
           (Num 6) "Dowel Joints" [] (Num 70) (Num 2210) 100
           (factoredStressAt "interior" (Num 30000) (Num 54) (Num 6) "Dowel Joints"
              ([] ++ [mkDistance (Num 2210) "interior"]) (Num 70) 100)).
  apply one_neighbour_first_trial.
Defined.

End NeighbourSearch.

(* ================================================================== *)
(** * Searches on a bad modulus or allowable stress                    *)
(* ================================================================== *)

Section DegenerateSearch.

Import Rack.
Local Open Scope js_scope.

Lemma calculateL_bad_k (Ec h k : number) :
  (k <=? Num 0) = true \/ isNaN k = true -> calculateL Ec h k = Num 0.
Proof.
  intros Hk. unfold calculateL.
  assert (H : negb (truthy k) || (k <=? Num 0) = true).
  { destruct Hk as [-> | Hn]; [apply orb_true_r|].
    destruct k; try discriminate. reflexivity. }
  rewrite <- orb_assoc, H, orb_true_r. reflexivity.
Qed.

(** X16.  With a modulus of subgrade reaction that is zero, negative or
    NaN the radius of relative stiffness is taken as 0 and every stress with
    it, so the search accepts its first trial: 100 mm at a stress of 0, for
    every load and every allowable stress that is not negative. *)
Theorem nonpositive_modulus_search
    (loadCase : string) (A Ec k P : number) (jointType : string)
    (distances : list Distance) (r_contact : number) :
  (k <=? Num 0) = true \/ isNaN k = true ->
  (Num 0 <=? A) = true ->
  findMinThickness loadCase A Ec k P jointType distances r_contact
  = Some (found 100 (Num 0)).
Proof.
  intros Hk HA.
  assert (Hs : factoredStressAt loadCase Ec k P jointType distances r_contact 100
               = Num 0).
  { unfold factoredStressAt. cbv zeta.
    rewrite (calculateL_bad_k _ _ _ Hk). apply total_stress_zero_l. }
  rewrite findMinThickness_first_trial; rewrite Hs; [reflexivity|exact HA].
Qed.

Lemma nonpositive_modulus_search_witness :
  findMinThickness "corner" (Num 5) (Num 26000) (Num (-14)) (Num 100) "Dowel Joints"
    [mkDistance (Num 800) "edgeShort"] (Num 70)
  = Some (found 100 (Num 0)).
Proof.
  apply nonpositive_modulus_search.
  - left. cbn. apply Rleb_true. lra.
  - cbn. apply Rleb_true. lra.
Defined.

Lemma nle_NaN_r (a : number) : (a <=? NaN) = false.
Proof. destruct a; reflexivity. Qed.

Lemma findMinThickness_NaN
    (loadCase : string) (Ec k P : number) (jointType : string)
    (distances : list Distance) (r_contact : number) :
  findMinThickness loadCase NaN Ec k P jointType distances r_contact
  = Some exhausted.
Proof.
  destruct (findMinThickness_outcome loadCase NaN Ec k P jointType distances r_contact)
    as (r & -> & Hout).
  destruct Hout as [(h & _ & Ha & _)|[_ ->]]; [|reflexivity].
  rewrite nle_NaN_r in Ha. discriminate.
Qed.

(** X17.  When the post-tension stress does not read as a number (an empty
    field, for one) and the compressive strength is positive, the allowable
    stress is NaN and every search ends with ['>800'] and no stress,
    whatever the load is. *)
Theorem unreadable_post_tension_search
    (fc days : number) (repetitions : string) (postTensionStress : value)
    (loadCase : string) (Ec k P : number) (jointType : string)
    (distances : list Distance) (r_contact : number) :
  (fc >? Num 0) = true ->
  parseFloat_value postTensionStress = NaN ->
  calculateAllowableStress fc days repetitions postTensionStress = NaN
  /\ findMinThickness loadCase
       (calculateAllowableStress fc days repetitions postTensionStress)
       Ec k P jointType distances r_contact
     = Some {| thickness := VStr ">800"; stress := VNull |}.
Proof.
  intros Hfc Hp.
  assert (HA : calculateAllowableStress fc days repetitions postTensionStress = NaN).
  { unfold calculateAllowableStress.
    assert (Hg : negb (truthy fc) || (fc <=? Num 0) = false).
    { destruct fc as [| | |x]; try discriminate; [reflexivity|].
      cbn in Hfc |- *. apply Rltb_true in Hfc.
      unfold Reqb, Rleb.
      destruct (Req_dec_T x 0); [lra|]. destruct (Rle_dec x 0); [lra|reflexivity]. }
    rewrite Hg. cbv zeta. rewrite Hp. apply nadd_NaN_r. }
  split; [exact HA|]. rewrite HA. apply findMinThickness_NaN.
Qed.

Lemma unreadable_post_tension_search_witness :
  calculateAllowableStress (Num 35) (Num 90) "10000" (VStr EmptyString) = NaN
  /\ findMinThickness "interior"
       (calculateAllowableStress (Num 35) (Num 90) "10000" (VStr EmptyString))
       (Num 26000) (Num 65) (Num 6) "Dowel Joints"
       [mkDistance (Num 800) "interior"] (Num 70)
     = Some {| thickness := VStr ">800"; stress := VNull |}.
Proof.
  apply unreadable_post_tension_search.
  - cbn. apply Rltb_true. lra.
  - reflexivity.
Defined.

End DegenerateSearch.

(* ================================================================== *)
(** * The outputs of the rack and wheel pages                          *)
(* ================================================================== *)

Section PageOutputs.

Import Rack Pages.
Local Open Scope Z_scope.

(** What a page shows for one load case: ['>800'] without a stress, or a
    thickness from 100 to 800 with a factored stress that the design
    strength covers. *)
Definition page_entry (o : Output) : Prop :=
  (past_800 o /\ stress (result o) = VNull)
  \/ (exists h s,
        100 <= h <= 800
        /\ thickness (result o) = VNum (Num (IZR h))
        /\ stress (result o) = VNum s
        /\ (s <=? ultimateStrength o)%js = true).

(** The highlighted load case: none when every search ran past 800 mm,
    else the first entry whose thickness is the largest. *)
Definition highlight (outputs : list (string * Output)) : Prop :=
  (Forall (fun kv => past_800 (snd kv)) outputs /\ criticalLoadCase outputs = None)
  \/ (exists before k o after,
        outputs = before ++ (k, o) :: after
        /\ numeric o
        /\ Forall (fun kv => (thickness_mm (snd kv) < thickness_mm o)%R) before
        /\ Forall (fun kv => (thickness_mm (snd kv) <= thickness_mm o)%R) after
        /\ criticalLoadCase outputs = Some k).

Definition page_report (names : list string)
    (outputs : option (list (string * Output))) : Prop :=
  exists entries,
    outputs = Some entries
    /\ map fst entries = names
    /\ Forall (fun kv => page_entry (snd kv)) entries
    /\ highlight entries.

Lemma search_entry_of_page_entry (o : Output) : page_entry o -> search_entry o.
Proof.
  intros [[H _]|(h & s & Hh & Ht & _)]; [now right|left].
  unfold numeric, thickness_mm. rewrite Ht.
  split; [reflexivity|]. apply IZR_lt. lia.
Qed.

Lemma highlight_entries (outputs : list (string * Output)) :
  Forall (fun kv => search_entry (snd kv)) outputs -> highlight outputs.
Proof.
  intros Hall.
  assert (Hcases : Forall (fun kv => past_800 (snd kv)) outputs
                   \/ Exists (fun kv => numeric (snd kv)) outputs).
  { induction Hall as [|kv l [Hn|Hp] _ IH].
    - left. constructor.
    - right. now constructor.
    - destruct IH as [IH|IH]; [left; now constructor|right; now constructor 2]. }
  destruct Hcases as [Hp|Hn].
  - left. split; [exact Hp|]. now apply criticalLoadCase_all_past_800.
  - right. now apply criticalLoadCase_first_max.
Qed.

Lemma search_page_entry
    (name loadCase : string) (A Ec k P : number) (jointType : string)
    (distances : list Distance) (r_contact : number) :
  exists o,
    entry name
      (findMinThickness loadCase A Ec k P jointType distances r_contact) A
    = Some (name, o)
    /\ page_entry o.
Proof.
  destruct (findMinThickness_outcome loadCase A Ec k P jointType distances r_contact)
    as (r & -> & Hout).
  eexists. split; [reflexivity|].
  destruct Hout as [(h & Hh & Ha & _ & ->)|[_ ->]].
  - right. exists h. eexists. repeat split; try lia. exact Ha.
  - left. split; reflexivity.
Qed.

Ltac four_entries :=
  repeat match goal with
  | |- context [entry ?n (findMinThickness ?lc ?A ?Ec ?k ?P ?jt ?ds ?r) ?A] =>
      let o := fresh "o" in
      let H := fresh "H" in
      let E := fresh "E" in
      destruct (search_page_entry n lc A Ec k P jt ds r) as (o & E & H);
      rewrite E; clear E
  end.

(** X18.  On the back-to-back page and on the wheel page [Calculate] always
    gives four entries, in the order interior, long edge, short edge, corner
    (interior, edge perpendicular, edge parallel, corner for wheels).  Each
    entry is either ['>800'] without a stress or a thickness from 100 to
    800 mm with a factored stress that the design strength covers, and the
    highlighted case is the first entry of largest thickness, or none when
    all four are ['>800']. *)
Theorem page_outputs
    (sharedInputs : SharedInputs) (racks : BackToBack.Inputs)
    (wheels : WheelLoad.Inputs) :
  page_report ["interior"; "edgeLong"; "edgeShort"; "corner"]%string
    (BackToBack.handleCalculateThickness sharedInputs racks)
  /\ page_report ["interior"; "edgePerp"; "edgePara"; "corner"]%string
       (WheelLoad.handleCalculateThickness sharedInputs wheels).
Proof.
  split.
  - unfold BackToBack.handleCalculateThickness. cbv zeta.
    four_entries. cbn [entries].
    eexists. split; [reflexivity|]. split; [reflexivity|].
    assert (Hall : Forall (fun kv : string * Output => page_entry (snd kv))
                     [("interior"%string, o); ("edgeLong"%string, o0);
                      ("edgeShort"%string, o1); ("corner"%string, o2)]).
    { repeat (apply Forall_cons; [assumption|]). apply Forall_nil. }
    split; [exact Hall|].
    apply highlight_entries.
    eapply Forall_impl; [|exact Hall].
    intros kv. apply search_entry_of_page_entry.
  - unfold WheelLoad.handleCalculateThickness. cbv zeta.
    four_entries. cbn [entries].
    eexists. split; [reflexivity|]. split; [reflexivity|].
    assert (Hall : Forall (fun kv : string * Output => page_entry (snd kv))
                     [("interior"%string, o); ("edgePerp"%string, o0);
                      ("edgePara"%string, o1); ("corner"%string, o2)]).
    { repeat (apply Forall_cons; [assumption|]). apply Forall_nil. }
    split; [exact Hall|].
    apply highlight_entries.
    eapply Forall_impl; [|exact Hall].
    intros kv. apply search_entry_of_page_entry.
Qed.

(** The rack of a back-to-back pair, standing in a single line. *)
Definition single_line (racks : BackToBack.Inputs) : SingleRack.Inputs :=
  {| SingleRack.x := BackToBack.x racks;
     SingleRack.y := BackToBack.y racks;
     SingleRack.p := BackToBack.p racks;
     SingleRack.basePlate_a := BackToBack.basePlate_a racks;
     SingleRack.basePlate_b := BackToBack.basePlate_b racks;
     SingleRack.loadCycles := BackToBack.loadCycles racks |}.

(** X19.  For the same spacings, load, base plate and load cycles, the
    interior case of racks back to back never gets a thinner slab than the
    interior case of a single line of racks: the back-to-back search ends
    with ['>800'], or both searches find a thickness and the one of the
    single line is no larger. *)
Theorem back_to_back_interior_not_thinner
    (sharedInputs : SharedInputs) (racks : BackToBack.Inputs) :
  exists o rest,
    BackToBack.handleCalculateThickness sharedInputs racks
    = Some (("interior"%string, o) :: rest)
    /\ (past_800 o
        \/ exists h1 h2 s2,
             thickness (result o) = VNum (Num (IZR h1))
             /\ SingleRack.interiorResult sharedInputs (single_line racks)
                = Some (found h2 s2)
             /\ 100 <= h2 <= h1).
Proof.
  unfold BackToBack.handleCalculateThickness. cbv zeta.
  set (A := calculateAllowableStress _ _ _ _).
  set (Ec := calculateEc _).
  set (k := parseFloat_value (finalModulus sharedInputs)).
  set (P := (parseFloat_value (BackToBack.p racks) / Num 9.81)%js).
  set (r := calculateRForPointLoad _ _ _).
  destruct (findMinThickness_outcome "interior" A Ec k P (jointType sharedInputs)
              (BackToBack.distances_interior racks) r) as (res & Hres & Hout).
  rewrite Hres. cbn [entry].
  four_entries. cbn [entries].
  eexists. eexists. split; [reflexivity|].
  destruct Hout as [(h & Hh & Ha & _ & ->)|[_ ->]]; [right|now left].
  change (BackToBack.distances_interior racks)
    with (SingleRack.singleRackDistances_interior (single_line racks)
          ++ [mkDistance (BackToBack.dist_z_center racks) "interior"]) in Hres.
  destruct (search_dominates "interior" "interior" A A Ec Ec k k P P
              (jointType sharedInputs) (jointType sharedInputs)
              (SingleRack.singleRackDistances_interior (single_line racks)
               ++ [mkDistance (BackToBack.dist_z_center racks) "interior"])
              (SingleRack.singleRackDistances_interior (single_line racks)) r r)
    with (h1 := h)
         (s1 := factoredStressAt "interior" Ec k P (jointType sharedInputs)
                 (SingleRack.singleRackDistances_interior (single_line racks)
                  ++ [mkDistance (BackToBack.dist_z_center racks) "interior"]) r h)
    as (h2 & H2 & Hle).
  - intros h' _. unfold factoredStressAt. cbv zeta.
    apply interior_neighbour_adequacy.
  - exact Hres.
  - exists h, h2. eexists. split; [reflexivity|]. split; [exact H2|exact Hle].
Qed.

End PageOutputs.

(* ================================================================== *)
(** * The point-load page                                              *)
(* ================================================================== *)

Section PointLoadingPage.

Import Rack Pages.
Local Open Scope R_scope.





End PointLoadingPage.

(* ================================================================== *)
(** * The contact area of a wheel                                      *)
(* ================================================================== *)

Section WheelContact.

Import Rack Pages.
Local Open Scope R_scope.

Lemma Math_pow_square (x : R) : 0 <= x -> Math_pow (Num x) (Num 2) = Num (x * x).
Proof.
  intros Hx. destruct (Req_dec_T x 0) as [-> | Hne].
  - cbn. unfold Reqb, Rltb.
    destruct (Req_dec_T 2 0); [lra|]. destruct (Rlt_dec 0 0); [lra|].
    destruct (Req_dec_T 0 0); [|lra]. destruct (Rlt_dec 0 2); [|lra].
    apply Num_eq. ring.
  - rewrite Math_pow_finite by lra. rewrite Rpower_2 by lra. reflexivity.
Qed.

(** X21.  On the wheel page, for an axle load [axle] kN, a tyre pressure
    [pressure] kPa and a tyre spacing [tc] mm that read as numbers
    ([axle >= 0], [pressure > 0], [tc >= 0]): for a single wheel the contact
    radius is that of the circle on which the tyre pressure carries half
    the axle load; for dual wheels each tyre carries a quarter of the axle
    load on a circle of radius [r_tyre], and the contact circle has the area
    of that circle plus [2 tc r_tyre]. *)
Theorem wheel_contact_area (inputs : WheelLoad.Inputs) (axle pressure tc : R) :
  parseFloat_value (WheelLoad.axleLoad inputs) = Num axle ->
  parseFloat_value (WheelLoad.tyrePressure inputs) = Num pressure ->
  parseFloat_value (WheelLoad.tc inputs) = Num tc ->
  0 <= axle -> 0 < pressure -> 0 <= tc ->
  exists r,
    WheelLoad.r_contact inputs = Num r
    /\ 0 <= r
    /\ if String.eqb (WheelLoad.wheelType inputs) "dual"
       then exists r_tyre,
              0 <= r_tyre
              /\ PI * (r_tyre * r_tyre) * (pressure / 1000) = axle / 2 * 1000 / 2
              /\ PI * (r * r) = PI * (r_tyre * r_tyre) + 2 * tc * r_tyre
       else PI * (r * r) * (pressure / 1000) = axle / 2 * 1000.
Proof.
  intros Ha Hp Ht Haxle Hpressure Htc.
  pose proof PI_RGT_0 as Hpi.
  unfold WheelLoad.r_contact, WheelLoad.P_wheel_kN. cbv zeta.
  rewrite Ha, Hp, Ht. unfold Math_PI.
  rewrite !ndiv_finite by lra. cbn [nmul].
  assert (Hmpa : 0 < pressure / 1000) by lra.
  destruct (String.eqb (WheelLoad.wheelType inputs) "dual").
  - rewrite !ndiv_finite by lra.
    set (area := axle / 2 * 1000 / 2 / (pressure / 1000) / PI).
    assert (Harea : 0 <= area).
    { unfold area. repeat (apply Rmult_le_pos; [|apply Rlt_le, Rinv_0_lt_compat; lra]).
      lra. }
    rewrite Math_sqrt_finite by exact Harea.
    pose proof (sqrt_pos area) as Hrt.
    rewrite Math_pow_square by exact Hrt. cbn [nmul].
    rewrite ndiv_finite by lra. cbn [nadd].
    assert (Hsum : 0 <= sqrt area * sqrt area + 2 * tc * sqrt area / PI).
    { apply Rplus_le_le_0_compat; [nra|].
      apply Rmult_le_pos; [nra|]. apply Rlt_le, Rinv_0_lt_compat, Hpi. }
    rewrite Math_sqrt_finite by exact Hsum.
    eexists. split; [reflexivity|]. split; [apply sqrt_pos|].
    exists (sqrt area). split; [exact Hrt|].
    rewrite (sqrt_sqrt _ Hsum). rewrite (sqrt_sqrt _ Harea).
    split; [unfold area|]; field; lra.
  - rewrite !ndiv_finite by lra.
    set (area := axle / 2 * 1000 / (pressure / 1000) / PI).
    assert (Harea : 0 <= area).
    { unfold area. repeat (apply Rmult_le_pos; [|apply Rlt_le, Rinv_0_lt_compat; lra]).
      lra. }
    rewrite Math_sqrt_finite by exact Harea.
    eexists. split; [reflexivity|]. split; [apply sqrt_pos|].
    rewrite sqrt_sqrt by exact Harea. unfold area. field. lra.
Qed.

Definition default_wheels : WheelLoad.Inputs :=
  {| WheelLoad.s := VNum (Num 2000); WheelLoad.s_a := VNum (Num 700);
     WheelLoad.tyrePressure := VNum (Num 700); WheelLoad.axleLoad := VNum (Num 400);
     WheelLoad.loadCycles := "< 8000"; WheelLoad.wheelType := "single";
     WheelLoad.tc := VNum (Num 300) |}.

Lemma wheel_contact_area_witness :
  exists r,
    WheelLoad.r_contact default_wheels = Num r
    /\ 0 <= r
    /\ PI * (r * r) * (700 / 1000) = 400 / 2 * 1000.
Proof.
  apply (wheel_contact_area default_wheels 400 700 300);
    first [reflexivity | lra].
Defined.

End WheelContact.

(* ================================================================== *)
(** * Stand-alone calculator: ground and sub-base                      *)
(* ================================================================== *)

Section GroundSteps.

Import PointLoad.
Local Open Scope R_scope.

(** [cbrToModulus] on a finite CBR. *)
Definition modulus_table (cbr : R) : R :=
  if Rle_dec cbr 2 then 15
  else if Rle_dec cbr 5 then 37
  else if Rle_dec cbr 10 then 54
  else if Rle_dec cbr 20 then 68
  else if Rle_dec cbr 40 then 82
  else 109.

(** [scalaToCBR] on a reading that is a finite number. *)
Definition scala_table (scala : R) : R :=
  if Rle_dec 100 scala then 2
  else if Rle_dec 50 scala then 3
  else if Rle_dec 20 scala then 5
  else if Rle_dec 10 scala then 8
  else if Rle_dec 5 scala then 12
  else if Rle_dec 2 scala then 20
  else if Rle_dec 1 scala then 30
  else 50.

Lemma cbrToModulus_finite (cbr : R) :
  cbrToModulus (Num cbr) = Num (modulus_table cbr).
Proof.
  unfold cbrToModulus, modulus_table. cbn [nle]. unfold Rleb.
  repeat match goal with
         | |- context [Rle_dec ?a ?b] => destruct (Rle_dec a b)
         end; reflexivity.
Qed.

Lemma scalaToCBR_finite (scala : string) (r : R) :
  parseFloat scala = Num r -> scalaToCBR scala = Num (scala_table r).
Proof.
  intros H. unfold scalaToCBR, scala_table. rewrite H. cbv zeta.
  unfold nge. cbn [nle]. unfold Rleb.
  repeat match goal with
         | |- context [Rle_dec ?a ?b] => destruct (Rle_dec a b)
         end; reflexivity.
Qed.

Lemma modulus_table_range (cbr : R) : 15 <= modulus_table cbr <= 109.
Proof.
  unfold modulus_table.
  repeat match goal with
         | |- context [Rle_dec ?a ?b] => destruct (Rle_dec a b)
         end; lra.
Qed.

Lemma modulus_table_monotone (c1 c2 : R) :
  c1 <= c2 -> modulus_table c1 <= modulus_table c2.
Proof.
  intros H. unfold modulus_table.
  repeat match goal with
         | |- context [Rle_dec ?a ?b] => destruct (Rle_dec a b)
         end; lra.
Qed.

Lemma scala_table_antitone (r1 r2 : R) :
  r1 <= r2 -> scala_table r2 <= scala_table r1.
Proof.
  intros H. unfold scala_table.
  repeat match goal with
         | |- context [Rle_dec ?a ?b] => destruct (Rle_dec a b)
         end; lra.
Qed.

Lemma cbrToModulus_range (cbr : number) :
  exists k, cbrToModulus cbr = Num k /\ 15 <= k <= 109.
Proof.
  destruct cbr as [| | |c].
  - exists 109. split; [reflexivity|lra].
  - exists 109. split; [reflexivity|lra].
  - exists 15. split; [reflexivity|lra].
  - exists (modulus_table c). split; [apply cbrToModulus_finite|].
    apply modulus_table_range.
Qed.

(** X22.  The modulus of subgrade reaction of the stand-alone calculator is
    always one of the table values from 15 to 109; it does not fall when the
    CBR grows, and on the Scala route it does not grow when the reading
    grows.  A Scala reading that is not a number gives the highest value,
    109. *)
Theorem ground_modulus_steps :
  (forall cbr, exists k, cbrToModulus cbr = Num k /\ 15 <= k <= 109)
  /\ (forall cbr1 cbr2 : R,
        cbr1 <= cbr2 ->
        (cbrToModulus (Num cbr1) <=? cbrToModulus (Num cbr2))%js = true)
  /\ (forall scala1 scala2 r1 r2,
        parseFloat scala1 = Num r1 -> parseFloat scala2 = Num r2 -> r1 <= r2 ->
        (cbrToModulus (scalaToCBR scala2) <=? cbrToModulus (scalaToCBR scala1))%js
        = true)
  /\ (forall scala,
        parseFloat scala = NaN ->
        scalaToCBR scala = Num 50 /\ cbrToModulus (scalaToCBR scala) = Num 109).
Proof.
  split; [exact cbrToModulus_range|]. split; [|split].
  - intros c1 c2 H. rewrite !cbrToModulus_finite. cbn. apply Rleb_true.
    now apply modulus_table_monotone.
  - intros s1 s2 r1 r2 H1 H2 H.
    rewrite (scalaToCBR_finite s1 r1 H1), (scalaToCBR_finite s2 r2 H2).
    rewrite !cbrToModulus_finite. cbn. apply Rleb_true.
    apply modulus_table_monotone. now apply scala_table_antitone.
  - intros s H.
    assert (E : scalaToCBR s = Num 50).
    { unfold scalaToCBR. rewrite H. reflexivity. }
    split; [exact E|]. rewrite E, cbrToModulus_finite.
    apply Num_eq. unfold modulus_table.
    repeat match goal with
           | |- context [Rle_dec ?a ?b] => destruct (Rle_dec a b); try lra
           end.
Qed.

Lemma enhance_range (inputs : Inputs) (k : R) (t : number) :
  0 < k -> isNaN t = false ->
  exists k', enhanceModulusForSubbase inputs (Num k) t = Num k' /\ k <= k' <= 2 * k.
Proof.
  intros Hk Ht.
  destruct (hasSubbase inputs) eqn:Hs.
  2:{ exists k. unfold enhanceModulusForSubbase. rewrite Hs.
      split; [reflexivity|lra]. }
  destruct t as [| | |t]; try discriminate.
  - exists (k * 2). rewrite enhance_infinite by assumption.
    split; [reflexivity|lra].
  - exists k. unfold enhanceModulusForSubbase. rewrite Hs.
    split; [reflexivity|lra].
  - destruct (Rlt_dec t 100) as [Hlt | Hge].
    + exists k. unfold enhanceModulusForSubbase. rewrite Hs. cbn.
      unfold Rltb. destruct (Rlt_dec t 100); [|lra].
      split; [reflexivity|lra].
    + rewrite enhance_finite by (try assumption; lra).
      eexists. split; [reflexivity|].
      unfold Rmin. destruct (Rle_dec (k * (1 + t / 300 * 0.5)) (k * 2)); nra.
Qed.

Lemma calculate_modulus (inputs : Inputs) :
  isNaN (subbaseThickness inputs) = false ->
  exists k, modulus (calculate inputs) = Num k /\ 15 <= k <= 218.
Proof.
  intros Ht. unfold calculate. cbv zeta. cbn [modulus].
  set (cbr := if (String.eqb (groundAssessmentType inputs) "scala"
                  && negb (String.eqb (scalaValue inputs) EmptyString))%bool
              then scalaToCBR (scalaValue inputs) else cbrValue inputs).
  destruct (cbrToModulus_range cbr) as (k0 & -> & Hk0).
  destruct (hasSubbase inputs).
  - destruct (enhance_range inputs k0 (subbaseThickness inputs) ltac:(lra) Ht)
      as (k' & -> & Hk').
    exists k'. split; [reflexivity|lra].
  - exists k0. split; [reflexivity|lra].
Qed.

(** X23.  Whatever the ground inputs are (a CBR that is NaN, a Scala reading
    that is no number), the modulus that the stand-alone calculator passes
    to its searches is a finite number from 15 to 218, as long as the
    sub-base thickness is not NaN. *)
Theorem calculate_modulus_range (inputs : Inputs) :
  isNaN (subbaseThickness inputs) = false ->
  exists k, modulus (calculate inputs) = Num k /\ 15 <= k <= 218.
Proof.
  apply calculate_modulus.
Qed.

Lemma calculate_modulus_range_witness :
  exists k, modulus (calculate initialInputs) = Num k /\ 15 <= k <= 218.
Proof.
  apply (calculate_modulus_range initialInputs). reflexivity.
Defined.

End GroundSteps.

(* ================================================================== *)
(** * Stand-alone calculator: the two radii                            *)
(* ================================================================== *)

Section Radii.

Import PointLoad.
Local Open Scope R_scope.

Lemma calculateEquivalentRadius_finite
    (X Y : R) (h : number) (isBackToBack : bool) (backToBackSpacing : number) :
  0 <= X * Y ->
  calculateEquivalentRadius (Num X) (Num Y) h isBackToBack backToBackSpacing
  = Num (sqrt ((if isBackToBack then 2 else 1) * (X * Y / 1000000) / PI)).
Proof.
  intros Ha. pose proof PI_RGT_0 as Hpi.
  unfold calculateEquivalentRadius. cbv zeta. unfold Math_PI.
  cbn [nmul]. rewrite ndiv_finite by lra.
  assert (Hq : forall c, 0 <= c -> 0 <= c * (X * Y / 1000000) / PI).
  { intros c Hc. apply Rmult_le_pos; [|apply Rlt_le, Rinv_0_lt_compat, Hpi]. nra. }
  destruct isBackToBack.
  - cbn [nmul]. rewrite ndiv_finite by lra.
    replace (X * Y / 1000000 * 2 / PI) with (2 * (X * Y / 1000000) / PI)
      by (field; lra).
    apply Math_sqrt_finite, Hq. lra.
  - rewrite ndiv_finite by lra.
    replace (X * Y / 1000000 / PI) with (1 * (X * Y / 1000000) / PI)
      by (field; lra).
    apply Math_sqrt_finite, Hq. lra.
Qed.



Lemma calculateRadiusOfStiffness_finite (E h k : R) :
  0 < E -> 0 < h -> 0 < k ->
  calculateRadiusOfStiffness (Num E) (Num h) (Num k)
  = Num (Rpower (E * (h * h * h) / (11.73 * k * 1000)) 0.25).
Proof.
  intros HE Hh Hk. unfold calculateRadiusOfStiffness. cbv zeta.
  rewrite !Math_pow_finite by lra.
  rewrite Rpower_3 by lra. cbn [nmul nsub nadd nopp].
  fold plate_constant.
  replace (1 + - Rpower 0.15 2) with (1 - Rpower 0.15 2) by ring.
  fold plate_constant. rewrite plate_constant_value.
  assert (Hd : 11.73 * k * 1000 <> 0) by nra.
  rewrite ndiv_finite by exact Hd.
  assert (Hq : 0 < E * (h * h * h) / (11.73 * k * 1000)).
  { apply Rdiv_lt_0_compat; [|nra]. positive. }
  rewrite Math_pow_finite by lra. reflexivity.
Qed.



End Radii.

(* ================================================================== *)
(** * Stand-alone calculator: what a search returns                    *)
(* ================================================================== *)

Section PointLoadOutcome.

Import PointLoad.
Local Open Scope R_scope.

Lemma trial_max (i j : nat) : Math_max (trial i) (trial j) = trial (Nat.max i j).
Proof.
  unfold trial. rewrite Math_max_finite. apply Num_eq.
  destruct (Nat.le_ge_cases i j) as [H | H].
  - rewrite Nat.max_r by exact H. apply le_INR in H.
    rewrite Rmax_right by lra. reflexivity.
  - rewrite Nat.max_l by exact H. apply le_INR in H.
    rewrite Rmax_left by lra. reflexivity.
Qed.

(** What a search of the stand-alone calculator returns, by its thickness
    alone: the trial number [i], adequate exactly when [i] is below 20. *)
Lemma position_result
    (inputs : Inputs) (position : string) (modulus : number)
    (hasLoadTransfer : bool) (allowableStress : number) :
  exists i,
    (i <= 20)%nat
    /\ thickness (calculateThicknessForPosition inputs position modulus
                    hasLoadTransfer allowableStress) = trial i
    /\ isAdequate (calculateThicknessForPosition inputs position modulus
                     hasLoadTransfer allowableStress) = (i <? 20)%nat.
Proof.
  destruct (calculateThicknessForPosition_outcome inputs position modulus
              hasLoadTransfer allowableStress)
    as [(i & Hi & _ & _ & ->)|[_ ->]].
  - exists i. unfold maxIterations in Hi. split; [lia|]. split; [reflexivity|].
    cbn [isAdequate adequate_at]. symmetry. apply Nat.ltb_lt. lia.
  - exists 20%nat. split; [lia|]. split; reflexivity.
Qed.

(** X26.  Each of the three searches of the stand-alone calculator returns
    a thickness of [125 + 25 i] mm with [i] from 0 to 20, and reports it as
    adequate exactly when [i] is below 20: 625 mm always means that no
    adequate thickness was found.  The recommended minimum thickness is the
    largest of the three, so it is on the same grid. *)
Theorem recommended_thickness_on_grid (inputs : Inputs) :
  exists i e c,
    (i <= 20 /\ e <= 20 /\ c <= 20)%nat
    /\ thickness (interior (calculate inputs)) = Num (125 + 25 * INR i)
    /\ thickness (edge (calculate inputs)) = Num (125 + 25 * INR e)
    /\ thickness (corner (calculate inputs)) = Num (125 + 25 * INR c)
    /\ isAdequate (interior (calculate inputs)) = (i <? 20)%nat
    /\ isAdequate (edge (calculate inputs)) = (e <? 20)%nat
    /\ isAdequate (corner (calculate inputs)) = (c <? 20)%nat
    /\ recommendedMinimumThickness (calculate inputs)
       = Num (125 + 25 * INR (Nat.max (Nat.max i e) c)).
Proof.
  unfold recommendedMinimumThickness, Math_max3, calculate. cbv zeta.
  cbn [interior edge corner].
  set (k := if hasSubbase inputs then _ else _).
  set (A := if isPrestressed inputs then _ else _).
  set (lt := (String.eqb (jointType inputs) "dowel"
              || String.eqb (jointType inputs) "tied")%bool).
  destruct (position_result inputs "interior" k lt A) as (i & Hi & -> & ->).
  destruct (position_result inputs "edge" k lt A) as (e & He & -> & ->).
  destruct (position_result inputs "corner" k lt A) as (c & Hc & -> & ->).
  exists i, e, c. rewrite !trial_max.
  repeat split; assumption.
Qed.

Lemma k2_of_range (repetitions : number) :
  exists v, k2_of repetitions = Num v /\ 0.77 <= v <= 1.
Proof.
  unfold k2_of.
  repeat match goal with
         | |- context [(?a >=? ?b)%js] => destruct (a >=? b)%js
         end;
    eexists; (split; [reflexivity|lra]).
Qed.

Lemma nmul_NaN_r (a : number) : (a * NaN)%js = NaN.
Proof. destruct a; reflexivity. Qed.

Lemma Int_part_0_66 : Int_part 0.66 = 0%Z.
Proof. symmetry. apply Int_part_spec. simpl. lra. Qed.

Lemma Math_pow_negative_base (x : R) : x < 0 -> Math_pow (Num x) (Num 0.66) = NaN.
Proof.
  intros Hx. cbn [Math_pow]. unfold Reqb, Rltb, is_integer.
  destruct (Req_dec_T 0.66 0); [lra|].
  destruct (Rlt_dec 0 x); [lra|].
  destruct (Req_dec_T x 0); [lra|].
  rewrite Int_part_0_66. unfold Reqb.
  destruct (Req_dec_T (IZR 0) 0.66); [lra|reflexivity].
Qed.

Lemma position_NaN
    (inputs : Inputs) (position : string) (modulus : number)
    (hasLoadTransfer : bool) :
  thickness (calculateThicknessForPosition inputs position modulus
               hasLoadTransfer NaN) = Num 625
  /\ isAdequate (calculateThicknessForPosition inputs position modulus
                   hasLoadTransfer NaN) = false.
Proof.
  destruct (calculateThicknessForPosition_outcome inputs position modulus
              hasLoadTransfer NaN)
    as [(i & _ & Ha & _)|[_ ->]].
  - rewrite nle_NaN_r in Ha. discriminate.
  - split; [|reflexivity]. cbn [thickness inadequate_at].
    unfold trial, maxIterations. apply Num_eq.
    rewrite INR_IZR_INZ. simpl. lra.
Qed.

(** X27.  With a negative compressive strength the allowable stress of the
    stand-alone calculator is NaN, no trial is adequate, and all three
    cases end at 625 mm as not adequate, whatever the load is. *)
Theorem negative_strength_point_load (inputs : Inputs) (fc : R) :
  concreteStrength inputs = Num fc -> fc < 0 ->
  allowableStress (calculate inputs) = NaN
  /\ thickness (interior (calculate inputs)) = Num 625
  /\ isAdequate (interior (calculate inputs)) = false
  /\ thickness (edge (calculate inputs)) = Num 625
  /\ isAdequate (edge (calculate inputs)) = false
  /\ thickness (corner (calculate inputs)) = Num 625
  /\ isAdequate (corner (calculate inputs)) = false.
Proof.
  intros Hc Hfc. unfold calculate. cbv zeta.
  cbn [allowableStress interior edge corner].
  set (k := if hasSubbase inputs then _ else _).
  assert (HA : (if isPrestressed inputs
                then (calculateModulusOfRupture (concreteStrength inputs)
                        (assessmentAge inputs) (loadRepetitions inputs) * Num 1000
                      + residualStrength inputs * Num 1000)%js
                else (calculateModulusOfRupture (concreteStrength inputs)
                        (assessmentAge inputs) (loadRepetitions inputs) * Num 1000)%js)
               = NaN).
  { unfold calculateModulusOfRupture. cbv zeta.
    rewrite Hc, Math_pow_negative_base by exact Hfc.
    rewrite nmul_NaN_r. destruct (isPrestressed inputs); reflexivity. }
  rewrite HA.
  split; [reflexivity|].
  repeat split; apply position_NaN.
Qed.

Definition negative_strength_inputs : Inputs :=
  {| cbrValue := Num 10; scalaValue := EmptyString; groundAssessmentType := "cbr";
     hasSubbase := true; subbaseThickness := Num 100; concreteStrength := Num (-32);
     isPrestressed := false; residualStrength := Num 0.5; assessmentAge := Num 28;
     jointType := "dowel"; isBackToBack := false; backToBackSpacing := Num 0.1;
     baseplateX := Num 50; baseplateY := Num 50; wheelLoading := Num 1;
     loadRepetitions := Num 8000 |}.

Lemma negative_strength_point_load_witness :
  allowableStress (calculate negative_strength_inputs) = NaN
  /\ thickness (interior (calculate negative_strength_inputs)) = Num 625
  /\ isAdequate (interior (calculate negative_strength_inputs)) = false
  /\ thickness (edge (calculate negative_strength_inputs)) = Num 625
  /\ isAdequate (edge (calculate negative_strength_inputs)) = false
  /\ thickness (corner (calculate negative_strength_inputs)) = Num 625
  /\ isAdequate (corner (calculate negative_strength_inputs)) = false.
Proof.
  apply (negative_strength_point_load negative_strength_inputs (-32));
    [reflexivity|lra].
Defined.

End PointLoadOutcome.

(* ================================================================== *)
(** * Stand-alone calculator: the stress the loop tests                *)
(* ================================================================== *)

Section SwappedRadii.

Import PointLoad.
Local Open Scope R_scope.

Lemma ln_10_lower : 1.7 <= ln 10.
Proof.
  pose proof (ln_lower 10 2 3 ltac:(lra) ltac:(lra)) as H.
  rewrite INR_IZR_INZ in H. simpl in H. lra.
Qed.

Lemma Rpower_ge_1 (x y : R) : 1 <= x -> 0 <= y -> 1 <= Rpower x y.
Proof.
  intros Hx Hy. unfold Rpower.
  assert (0 <= ln x) by (rewrite <- ln_1; apply ln_le; lra).
  rewrite <- exp_0. destruct (Req_dec_T (y * ln x) 0) as [-> | Hne]; [lra|].
  apply Rlt_le, exp_increasing. nra.
Qed.

(** The formulas of [calculateStress] with a radius [l] of at most 1 in the
    place of the radius of relative stiffness and a radius [b] of at least
    10 in the place of the equivalent radius: no stress is above zero. *)
Lemma calculateStress_swapped
    (P h l b : R) (position : string) (hasLoadTransfer isBackToBack : bool)
    (backToBackSpacing : number) :
  0 <= P -> 0 < h -> 0 < l <= 1 -> 10 <= b ->
  exists s,
    calculateStress (Num P) (Num h) (Num l) (Num b) position hasLoadTransfer
      isBackToBack backToBackSpacing = Num s
    /\ s <= 0.
Proof.
  intros HP Hh Hl Hb.
  unfold calculateStress. cbv zeta.
  assert (Heff : exists Pe,
            (if (isBackToBack && (backToBackSpacing <? Num 2 * Num h)%js)%bool
             then (Num P * Num 2)%js else Num P) = Num Pe /\ 0 <= Pe).
  { destruct (isBackToBack && (backToBackSpacing <? Num 2 * Num h)%js)%bool.
    - exists (P * 2). split; [reflexivity|lra].
    - exists P. split; [reflexivity|exact HP]. }
  destruct Heff as (Pe & -> & HPe).
  rewrite !Math_pow_finite by lra.
  assert (Hh2 : 0 < Rpower h 2) by apply exp_pos.
  assert (H106 : 0 < Rpower 10 6) by apply exp_pos.
  cbn [nmul]. rewrite !(ndiv_finite _ (Rpower h 2)) by lra.
  set (K := Pe * 1000 / Rpower h 2).
  assert (HK : 0 <= K).
  { unfold K. apply Rmult_le_pos; [lra|]. apply Rlt_le, Rinv_0_lt_compat, Hh2. }
  assert (Hlb : 0 < l / b) by (apply Rdiv_lt_0_compat; lra).
  assert (Hbl : 0 < b / l) by (apply Rdiv_lt_0_compat; lra).
  assert (Hlnl : ln l <= 0) by (rewrite <- ln_1; apply ln_le; lra).
  assert (Hlnb : 1.7 <= ln b).
  { apply Rle_trans with (ln 10); [apply ln_10_lower|apply ln_le; lra]. }
  assert (Hlnlb : ln (l / b) = ln l - ln b).
  { unfold Rdiv. rewrite ln_mult by (try apply Rinv_0_lt_compat; lra).
    rewrite ln_Rinv by lra. ring. }
  destruct (String.eqb position "interior").
  { rewrite ndiv_finite by lra. rewrite Math_log_finite by exact Hlb.
    cbn [nmul nadd]. rewrite ndiv_finite by lra.
    eexists. split; [reflexivity|].
    rewrite Hlnlb.
    assert (Hneg : 0.70 * (1 + 0.15) * (ln l - ln b) + 1.069 <= 0) by lra.
    assert (K * (0.70 * (1 + 0.15) * (ln l - ln b) + 1.069) <= 0) by nra.
    assert (K * (0.70 * (1 + 0.15) * (ln l - ln b) + 1.069) * Rpower 10 6 <= 0)
      by nra.
    lra. }
  destruct (String.eqb position "edge").
  { rewrite !ndiv_finite by lra.
    assert (Hb254 : 0 < b / 25.4) by (apply Rdiv_lt_0_compat; lra).
    rewrite !Math_log_finite by assumption.
    cbn [nmul nadd]. rewrite ndiv_finite by lra.
    rewrite Hlnlb.
    set (g := 4 * (ln l - ln b) + ln (b / 25.4)).
    assert (Hg : g <= 0).
    { unfold g.
      assert (ln (b / 25.4) <= ln b).
      { apply ln_le; [exact Hb254|]. unfold Rdiv.
        rewrite <- (Rmult_1_r b) at 2. apply Rmult_le_compat_l; lra. }
      lra. }
    assert (Hs : 5.19 * (1 + 0.54 * 0.15) * K * g * Rpower 10 6 / 1000 <= 0).
    { assert (5.19 * (1 + 0.54 * 0.15) * K * g <= 0) by nra.
      assert (5.19 * (1 + 0.54 * 0.15) * K * g * Rpower 10 6 <= 0) by nra.
      lra. }
    destruct hasLoadTransfer.
    - cbn [nmul]. eexists. split; [reflexivity|]. lra.
    - eexists. split; [reflexivity|]. exact Hs. }
  destruct (String.eqb position "corner").
  { rewrite !ndiv_finite by lra.
    rewrite Math_pow_finite by lra.
    cbn [nmul nadd nsub nopp].
    assert (Hq : 10 <= b / l).
    { apply Rmult_le_reg_r with l; [lra|].
      unfold Rdiv. rewrite Rmult_assoc, Rinv_l by lra. nra. }
    assert (Hden : 0 < 0.925 + 0.22 * (b / l)) by lra.
    rewrite ndiv_finite by lra. cbn [nmul]. rewrite ndiv_finite by lra.
    pose proof (Rpower_ge_1 (b / l) 0.5 ltac:(lra) ltac:(lra)) as Hpow.
    set (w := Rpower (b / l) 0.5) in *.
    assert (Hs : 41.2 * K * (1 + - w) / (0.925 + 0.22 * (b / l)) * Rpower 10 6 / 1000
                 <= 0).
    { assert (H1 : 41.2 * K * (1 + - w) <= 0) by nra.
      assert (H2 : 41.2 * K * (1 + - w) / (0.925 + 0.22 * (b / l)) <= 0).
      { unfold Rdiv. 
        assert (0 < / (0.925 + 0.22 * (b / l))) by (apply Rinv_0_lt_compat; lra).
        nra. }
      assert (41.2 * K * (1 + - w) / (0.925 + 0.22 * (b / l)) * Rpower 10 6 <= 0)
        by nra.
      lra. }
    destruct hasLoadTransfer.
    - cbn [nmul]. eexists. split; [reflexivity|]. lra.
    - eexists. split; [reflexivity|]. exact Hs. }
  exists 0. split; [reflexivity|lra].
Qed.

End SwappedRadii.

(* ================================================================== *)
(** * Stand-alone calculator: the first trial                          *)
(* ================================================================== *)

Section FirstTrial.

Import PointLoad.
Local Open Scope R_scope.

Lemma first_trial_adequate
    (inputs : Inputs) (position : string) (modulus : number)
    (hasLoadTransfer : bool) (allowableStress : number) :
  (designStressInLoop inputs position modulus hasLoadTransfer (Num 125)
   <=? allowableStress)%js = true ->
  thickness (calculateThicknessForPosition inputs position modulus
               hasLoadTransfer allowableStress) = Num 125
  /\ isAdequate (calculateThicknessForPosition inputs position modulus
                   hasLoadTransfer allowableStress) = true.
Proof.
  intros H. unfold calculateThicknessForPosition, maxIterations.
  cbn [calculateThickness_while]. cbv zeta. rewrite H. split; reflexivity.
Qed.

Lemma E_of_inputs_finite (inputs : Inputs) (fc : R) :
  concreteStrength inputs = Num fc -> 1 <= fc ->
  exists E, E_of_inputs inputs = Num E /\ 5000000 <= E.
Proof.
  intros Hc Hfc. unfold E_of_inputs. rewrite Hc.
  rewrite Math_sqrt_finite by lra. cbn [nmul].
  eexists. split; [reflexivity|].
  assert (1 <= sqrt fc) by (apply sqrt_lower; lra).
  lra.
Qed.

Lemma radiusOfStiffness_at_125 (inputs : Inputs) (fc k : R) :
  concreteStrength inputs = Num fc -> 1 <= fc -> 15 <= k <= 218 ->
  exists l, radiusOfStiffnessAt inputs (Num k) (Num 125) = Num l /\ 10 <= l.
Proof.
  intros Hc Hfc Hk. unfold radiusOfStiffnessAt.
  destruct (E_of_inputs_finite inputs fc Hc Hfc) as (E & -> & HE).
  rewrite calculateRadiusOfStiffness_finite by lra.
  eexists. split; [reflexivity|].
  rewrite <- (Rpower_quarter 10) at 1 by lra.
  apply Rle_Rpower_l; [lra|]. split; [lra|].
  assert (HD : 0 < 11.73 * k * 1000) by nra.
  assert (HN : 10 * 10 * 10 * 10 * (11.73 * k * 1000) <= E * (125 * 125 * 125))
    by nra.
  apply (Rmult_le_reg_r (11.73 * k * 1000)); [exact HD|].
  replace (E * (125 * 125 * 125) / (11.73 * k * 1000) * (11.73 * k * 1000))
    with (E * (125 * 125 * 125)) by (field; lra).
  exact HN.
Qed.

Lemma equivalentRadius_small (inputs : Inputs) (X Y : R) (h : number) :
  baseplateX inputs = Num X -> baseplateY inputs = Num Y ->
  0 < X -> 0 < Y -> X * Y <= 1500000 ->
  exists b, equivalentRadiusAt inputs h = Num b /\ 0 < b <= 1.
Proof.
  intros HX HY HX0 HY0 Harea. unfold equivalentRadiusAt. rewrite HX, HY.
  assert (Hxy : 0 < X * Y) by (apply Rmult_lt_0_compat; assumption).
  rewrite calculateEquivalentRadius_finite by lra.
  eexists. split; [reflexivity|].
  pose proof PI2_3_2 as Hpi.
  set (c := if isBackToBack inputs then 2 else 1).
  assert (Hc : 1 <= c <= 2) by (unfold c; destruct (isBackToBack inputs); lra).
  assert (Hnum : 0 < c * (X * Y / 1000000) <= 3) by nra.
  assert (Hq : 0 < c * (X * Y / 1000000) / PI <= 1).
  { split.
    - apply Rdiv_lt_0_compat; lra.
    - apply Rmult_le_reg_r with PI; [lra|].
      unfold Rdiv. rewrite Rmult_assoc, Rinv_l by lra. lra. }
  split; [apply sqrt_lt_R0; lra|apply sqrt_upper; lra].
Qed.

Lemma allowable_not_negative (inputs : Inputs) (fc res : R) :
  concreteStrength inputs = Num fc -> residualStrength inputs = Num res ->
  1 <= fc -> 0 <= res ->
  exists a, allowableStress (calculate inputs) = Num a /\ 0 <= a.
Proof.
  intros Hc Hr Hfc Hres. unfold calculate. cbv zeta. cbn [allowableStress].
  unfold calculateModulusOfRupture. cbv zeta.
  destruct (k2_of_range (loadRepetitions inputs)) as (k2 & -> & Hk2).
  rewrite Hc, Hr. rewrite Math_pow_finite by lra.
  assert (Hf : 0 < Rpower fc 0.66) by apply exp_pos.
  destruct (assessmentAge inputs >=? Num 90)%js, (isPrestressed inputs);
    cbn [nmul nadd]; eexists; (split; [reflexivity|]); nra.
Qed.

(** X28.  In the loop of the stand-alone calculator the equivalent radius
    and the radius of relative stiffness are passed to [calculateStress] in
    each other's place.  With a base plate of up to 1.5 square metres the
    first is at most 1 and with a strength of 1 MPa or more the second is at
    least 10, so the design stress of the first trial is never above zero:
    for every load that is not negative all three cases are adequate at
    125 mm, and the summary reads 125 mm, governed by corner loading. *)
Theorem point_load_calculator_always_125
    (inputs : Inputs) (fc X Y P res : R) :
  concreteStrength inputs = Num fc ->
  baseplateX inputs = Num X ->
  baseplateY inputs = Num Y ->
  wheelLoading inputs = Num P ->
  residualStrength inputs = Num res ->
  isNaN (subbaseThickness inputs) = false ->
  1 <= fc -> 0 < X -> 0 < Y -> X * Y <= 1500000 -> 0 <= P -> 0 <= res ->
  thickness (interior (calculate inputs)) = Num 125
  /\ isAdequate (interior (calculate inputs)) = true
  /\ thickness (edge (calculate inputs)) = Num 125
  /\ isAdequate (edge (calculate inputs)) = true
  /\ thickness (corner (calculate inputs)) = Num 125
  /\ isAdequate (corner (calculate inputs)) = true
  /\ recommendedMinimumThickness (calculate inputs) = Num 125
  /\ governedBy (calculate inputs) = "Corner Loading"%string.
Proof.
  intros Hc HX HY HP Hr Ht Hfc HX0 HY0 Harea HP0 Hres.
  destruct (calculate_modulus inputs Ht) as (k & Hk & Hk0).
  destruct (allowable_not_negative inputs fc res Hc Hr Hfc Hres) as (a & Ha & Ha0).
  assert (Hpos : forall position,
    thickness (calculateThicknessForPosition inputs position
                 (modulus (calculate inputs))
                 (String.eqb (jointType inputs) "dowel"
                  || String.eqb (jointType inputs) "tied")
                 (allowableStress (calculate inputs))) = Num 125
    /\ isAdequate (calculateThicknessForPosition inputs position
                     (modulus (calculate inputs))
                     (String.eqb (jointType inputs) "dowel"
                      || String.eqb (jointType inputs) "tied")
                     (allowableStress (calculate inputs))) = true).
  { intros position. rewrite Hk, Ha.
    apply first_trial_adequate.
    unfold designStressInLoop. rewrite HP.
    destruct (radiusOfStiffness_at_125 inputs fc k Hc Hfc Hk0) as (l & -> & Hl).
    destruct (equivalentRadius_small inputs X Y (Num 125) HX HY HX0 HY0 Harea)
      as (b & -> & Hb).
    destruct (calculateStress_swapped P 125 b l position
                (String.eqb (jointType inputs) "dowel"
                 || String.eqb (jointType inputs) "tied")
                (isBackToBack inputs) (backToBackSpacing inputs)
                HP0 ltac:(lra) Hb Hl) as (s & -> & Hs).
    cbn. apply Rleb_true. lra. }
  assert (Hi : thickness (interior (calculate inputs)) = Num 125
               /\ isAdequate (interior (calculate inputs)) = true)
    by exact (Hpos "interior"%string).
  assert (He : thickness (edge (calculate inputs)) = Num 125
               /\ isAdequate (edge (calculate inputs)) = true)
    by exact (Hpos "edge"%string).
  assert (Hco : thickness (corner (calculate inputs)) = Num 125
                /\ isAdequate (corner (calculate inputs)) = true)
    by exact (Hpos "corner"%string).
  destruct Hi as [Hi1 Hi2], He as [He1 He2], Hco as [Hc1 Hc2].
  repeat (split; [assumption|]).
  unfold recommendedMinimumThickness, Math_max3, governedBy.
  rewrite Hi1, He1, Hc1. rewrite !Math_max_finite.
  assert (Hmax : Rmax (Rmax 125 125) 125 = 125).
  { unfold Rmax. destruct (Rle_dec 125 125); destruct (Rle_dec 125 125); lra. }
  rewrite Hmax.
  split; [reflexivity|].
  unfold nge. cbn [nle]. rewrite Rleb_refl. reflexivity.
Qed.

Lemma point_load_calculator_always_125_witness :
  thickness (interior (calculate initialInputs)) = Num 125
  /\ isAdequate (interior (calculate initialInputs)) = true
  /\ thickness (edge (calculate initialInputs)) = Num 125
  /\ isAdequate (edge (calculate initialInputs)) = true
  /\ thickness (corner (calculate initialInputs)) = Num 125
  /\ isAdequate (corner (calculate initialInputs)) = true
  /\ recommendedMinimumThickness (calculate initialInputs) = Num 125
  /\ governedBy (calculate initialInputs) = "Corner Loading"%string.
Proof.
  apply (point_load_calculator_always_125 initialInputs 32 50 50 1 0.5);
    first [reflexivity | lra].
Defined.

End FirstTrial.

